(** * dmux popups: the new-pane prompt and the popup manager

    A shallow embedding of the two halves of
    [src/components/popups/newPanePopup.tsx]:

    - [NewPanePopupApp], the prompt with its [@file] autocompletion
      (detection effect, key handler, [shouldAllowCancel]);
    - [PopupManager], the launcher of popup processes ([launchPopup],
      [handleResult], [launchNewPanePopup]).

    JavaScript strings are sequences of UTF-16 code units, modelled here as
    lists of [N]; state hooks become fields of a record with one setter each;
    asynchronous code that can throw runs in a small state-and-exception
    monad over the host's observable state. *)

From Stdlib Require Import ZArith Lia.
From stdpp Require Import base list gmap strings pretty.

Local Open Scope Z_scope.

(** ** JavaScript strings *)

Abbreviation jsstring := (list N).

(** A string literal of the source, as code units. *)
Definition js (s : string) : jsstring :=
  Ascii.N_of_ascii <$> String.list_ascii_of_string s.

(** [.length] of a string or of an array. *)
Definition len {A} (s : list A) : Z := Z.of_nat (length s).

(** The characters the source compares against: ['@'] and [' ']. *)
Definition AT : N := 64%N.
Definition SPACE : N := 32%N.

(** The class [\s] of a JavaScript regular expression: WhiteSpace and
    LineTerminator of ECMAScript. *)
Definition isWhiteSpace (c : N) : bool :=
  ((9 <=? c) && (c <=? 13) || (c =? 32) || (c =? 160) || (c =? 5760)
   || (8192 <=? c) && (c <=? 8202) || (c =? 8232) || (c =? 8233)
   || (c =? 8239) || (c =? 8287) || (c =? 12288) || (c =? 65279))%N.

(** [String.prototype.slice]: a negative index counts from the end, every
    index is clamped into [0, length]. *)
Definition clampIndex (length i : Z) : Z :=
  if i <? 0 then Z.max (length + i) 0 else Z.min i length.

Definition slice (s : jsstring) (start : Z) (stop : option Z) : jsstring :=
  let from := clampIndex (len s) start in
  let to := match stop with
            | None => len s
            | Some e => clampIndex (len s) e
            end in
  take (Z.to_nat (to - from)) (drop (Z.to_nat from) s).

(** [s[i]] for an integer [i]: [undefined] ([None]) out of range. *)
Definition charAt (s : jsstring) (i : Z) : option N :=
  if i <? 0 then None else s !! Z.to_nat i.

(** [l[i]] on an array of strings. *)
Definition itemAt (l : list jsstring) (i : Z) : option jsstring :=
  if i <? 0 then None else l !! Z.to_nat i.

(** String concatenation of a value that may be [undefined]. *)
Definition toStringOr (o : option jsstring) : jsstring :=
  default (js "undefined") o.

Fixpoint isPrefixOf (pat s : jsstring) : bool :=
  match pat, s with
  | [], _ => true
  | _ :: _, [] => false
  | p :: pat', c :: s' => (p =? c)%N && isPrefixOf pat' s'
  end.

(** [s.startsWith(pat)] *)
Definition startsWith (s pat : jsstring) : bool := isPrefixOf pat s.

(** [s.includes(pat)] *)
Fixpoint includes (s pat : jsstring) : bool :=
  isPrefixOf pat s ||
  match s with
  | [] => false
  | _ :: s' => includes s' pat
  end.

(** [s.replace(pat, rep)] with a string pattern: the first occurrence only. *)
Fixpoint replaceFirst (s pat rep : jsstring) : jsstring :=
  if isPrefixOf pat s then rep ++ drop (length pat) s
  else match s with
       | [] => []
       | c :: s' => c :: replaceFirst s' pat rep
       end.

(** The greedy star of [[^\s]*] at the start of [s]; it always matches. *)
Fixpoint nonSpaceRun (s : jsstring) : jsstring :=
  match s with
  | [] => []
  | c :: s' => if isWhiteSpace c then [] else c :: nonSpaceRun s'
  end.

(** [s.match] on the pattern [^] [(] [[^\s]*] [)]: its first group. *)
Definition matchQuery (s : jsstring) : option jsstring :=
  Some (nonSpaceRun s).

(** [s.match] on the pattern [^@[^\s]*]: the whole match, [null] ([None])
    without a leading ['@']. *)
Definition matchAtToken (s : jsstring) : option jsstring :=
  match s with
  | c :: s' => if (c =? AT)%N then Some (c :: nonSpaceRun s') else None
  | [] => None
  end.

(** ** The prompt with [@file] autocompletion: [NewPanePopupApp] *)

Module Mention.

(** The component's state hooks. *)
Record AppState := mkApp {
  prompt : jsstring;
  isFileListActive : bool;
  filteredFiles : list jsstring;
  selectedFileIndex : Z;
  atPosition : Z;
  cursorPosition : option Z;
  currentCursor : Z;
}.

Definition setPrompt (v : jsstring) (st : AppState) : AppState :=
  mkApp v (isFileListActive st) (filteredFiles st) (selectedFileIndex st)
        (atPosition st) (cursorPosition st) (currentCursor st).
Definition setIsFileListActive (v : bool) (st : AppState) : AppState :=
  mkApp (prompt st) v (filteredFiles st) (selectedFileIndex st)
        (atPosition st) (cursorPosition st) (currentCursor st).
Definition setFilteredFiles (v : list jsstring) (st : AppState) : AppState :=
  mkApp (prompt st) (isFileListActive st) v (selectedFileIndex st)
        (atPosition st) (cursorPosition st) (currentCursor st).
Definition setSelectedFileIndex (v : Z) (st : AppState) : AppState :=
  mkApp (prompt st) (isFileListActive st) (filteredFiles st) v
        (atPosition st) (cursorPosition st) (currentCursor st).
Definition setAtPosition (v : Z) (st : AppState) : AppState :=
  mkApp (prompt st) (isFileListActive st) (filteredFiles st)
        (selectedFileIndex st) v (cursorPosition st) (currentCursor st).
Definition setCursorPosition (v : option Z) (st : AppState) : AppState :=
  mkApp (prompt st) (isFileListActive st) (filteredFiles st)
        (selectedFileIndex st) (atPosition st) v (currentCursor st).
Definition setCurrentCursor (v : Z) (st : AppState) : AppState :=
  mkApp (prompt st) (isFileListActive st) (filteredFiles st)
        (selectedFileIndex st) (atPosition st) (cursorPosition st) v.

(** [useState] initial values. *)
Definition initialState : AppState :=
  mkApp [] false [] 0 (-1) None 0.

(** The three setter calls that hide the file list. *)
Definition hideFileList (st : AppState) : AppState :=
  setAtPosition (-1) (setFilteredFiles [] (setIsFileListActive false st)).

(** The backward loop [for (let i = currentCursor - 1; i >= 0; i--)]:
    [scanAt p n] inspects the indices [n-1], ..., [0] and answers the first
    that holds ['@'], or [-1]. *)
Fixpoint scanAt (p : jsstring) (n : nat) : Z :=
  match n with
  | O => -1
  | S i => if decide (p !! i = Some AT) then Z.of_nat i else scanAt p i
  end.

Section Engine.

(** The file index of [utils/fileScanner.js], which is not among the
    sources: [scanProjectFiles(FILE_SCAN_ROOT).files] and
    [fuzzyMatchFiles(query, files)]. [None] stands for a thrown
    exception. *)
Variable scanProjectFiles : option (list jsstring).
Variable fuzzyMatchFiles : jsstring → list jsstring → option (list jsstring).

(** The body of the [try] block of the detection effect. *)
Definition showFileList (query : jsstring) (atBeforeCursor : Z)
    (st : AppState) : AppState :=
  match scanProjectFiles ≫= fuzzyMatchFiles query with
  | Some matches =>
      setSelectedFileIndex 0
        (setIsFileListActive true
           (setAtPosition atBeforeCursor (setFilteredFiles matches st)))
  | None =>
      setIsFileListActive false (setFilteredFiles [] st)
  end.

(** The effect [useEffect(..., [prompt, currentCursor])]. *)
Definition detectMention (st : AppState) : AppState :=
  let atBeforeCursor := scanAt (prompt st) (Z.to_nat (currentCursor st)) in
  if negb (atBeforeCursor =? -1) then
    let afterAt := slice (prompt st) (atBeforeCursor + 1) None in
    let query := default [] (matchQuery afterAt) in
    let endOfQuery := atBeforeCursor + 1 + len query in
    if (currentCursor st >=? atBeforeCursor)
       && (currentCursor st <=? endOfQuery) then
      let charAfterQuery := charAt afterAt (len query) in
      let spacePosition := atBeforeCursor + 1 + len query in
      if bool_decide (charAfterQuery = Some SPACE)
         && (len query >? 0) && (currentCursor st >? spacePosition) then
        hideFileList st
      else showFileList query atBeforeCursor st
    else hideFileList st
  else hideFileList st.

(** React runs the effect after a render in which one of its dependencies
    changed. *)
Definition afterRender (before after : AppState) : AppState :=
  if decide (prompt before = prompt after
             ∧ currentCursor before = currentCursor after)
  then after else detectMention after.

End Engine.

(** The [key] object ink passes to a [useInput] handler. *)
Record Key := mkKey {
  escape : bool;
  upArrow : bool;
  downArrow : bool;
  tab : bool;
  return_ : bool;
}.

Definition escapeKey : Key := mkKey true false false false false.
Definition upKey : Key := mkKey false true false false false.
Definition downKey : Key := mkKey false false true false false.
Definition tabKey : Key := mkKey false false false true false.
Definition returnKey : Key := mkKey false false false false true.

(** The accept gesture: the body of [if (key.tab || key.return)]. *)
Definition acceptSelection (st : AppState) : AppState :=
  if (len (filteredFiles st) >? 0)
     && (selectedFileIndex st <? len (filteredFiles st)) then
    let selectedFile := itemAt (filteredFiles st) (selectedFileIndex st) in
    let beforeAt := slice (prompt st) 0 (Some (atPosition st)) in
    let afterAt := slice (prompt st) (atPosition st) None in
    let afterAtMatch := matchAtToken afterAt in
    let queryLength := match afterAtMatch with
                       | Some m => len m
                       | None => 1
                       end in
    let afterQuery := slice (prompt st) (atPosition st + queryLength) None in
    let fileReference := AT :: toStringOr selectedFile in
    let newPrompt :=
      beforeAt ++ fileReference
      ++ (if startsWith afterQuery [SPACE] then [] else [SPACE])
      ++ afterQuery in
    let newCursorPos := len beforeAt + len fileReference in
    setAtPosition (-1)
      (setFilteredFiles []
         (setIsFileListActive false
            (setCursorPosition (Some newCursorPos) (setPrompt newPrompt st))))
  else st.

(** The [useInput] handler of the component. *)
Definition useInputHandler (key : Key) (st : AppState) : AppState :=
  if escape key && isFileListActive st then hideFileList st
  else if escape key && (len (prompt st) >? 0) then setPrompt [] st
  else if negb (isFileListActive st) then st
  else if upArrow key then
    setSelectedFileIndex (Z.max 0 (selectedFileIndex st - 1)) st
  else if downArrow key then
    setSelectedFileIndex
      (Z.min (len (filteredFiles st) - 1) (selectedFileIndex st + 1)) st
  else if tab key || return_ key then acceptSelection st
  else st.

Definition shouldAllowCancel (st : AppState) : bool :=
  if isFileListActive st then false
  else if len (prompt st) >? 0 then false
  else true.

Section Session.

Variable scanProjectFiles : option (list jsstring).
Variable fuzzyMatchFiles : jsstring → list jsstring → option (list jsstring).

(** One key event: the handler's state updates, then the render and its
    effects. *)
Definition keypress (key : Key) (st : AppState) : AppState :=
  afterRender scanProjectFiles fuzzyMatchFiles st (useInputHandler key st).

(** The popup session: the component's state, and whether the popup has
    been closed. *)
Record Session := mkSession {
  app : AppState;
  closed : bool;
}.

(** Modelled from the spec: [PopupWrapper] of [./shared/index.js], which is
    not among the sources. Rendered with [allowEscapeToCancel], it honours
    a cancel gesture exactly when the [shouldAllowCancel] callback of the
    current render answers [true], and then closes the session. *)
Definition popupWrapperCloses (key : Key) (st : AppState) : bool :=
  escape key && shouldAllowCancel st.

(** A cancel gesture reaches both [PopupWrapper] and the component's own
    [useInput] handler, each with the state of the current render. *)
Definition cancelGesture (s : Session) : Session :=
  if closed s then s
  else mkSession (keypress escapeKey (app s))
                 (popupWrapperCloses escapeKey (app s)).

End Session.

(** The arrow keys, for sequences of navigation steps. *)
Inductive Nav := Up | Down.

Definition navKey (d : Nav) : Key :=
  match d with
  | Up => upKey
  | Down => downKey
  end.

(** A sequence of arrow keys, one key event each. *)
Definition navigate (scanProjectFiles : option (list jsstring))
    (fuzzyMatchFiles : jsstring → list jsstring → option (list jsstring))
    (ds : list Nav) (st : AppState) : AppState :=
  foldl (λ s d, keypress scanProjectFiles fuzzyMatchFiles (navKey d) s) st ds.

(** *** The specification's vocabulary *)

(** [anchorIndex] is the nearest ['@'] before the cursor. *)
Definition nearestAt (text : jsstring) (cursorIndex anchorIndex : Z) : Prop :=
  0 ≤ anchorIndex < cursorIndex
  ∧ charAt text anchorIndex = Some AT
  ∧ ∀ j, anchorIndex < j < cursorIndex → charAt text j ≠ Some AT.

(** No ['@'] stands before the cursor. *)
Definition noAtBefore (text : jsstring) (cursorIndex : Z) : Prop :=
  ∀ j, 0 ≤ j < cursorIndex → charAt text j ≠ Some AT.

(** [run] is the maximal run of non-whitespace code units at the start of
    [s]. *)
Definition maximalRun (s run : jsstring) : Prop :=
  ∃ rest, s = run ++ rest
    ∧ Forall (λ c, isWhiteSpace c = false) run
    ∧ match rest with
      | [] => True
      | c :: _ => isWhiteSpace c = true
      end.

(** [query] is the maximal non-whitespace run right after the ['@'] at
    [anchorIndex]. *)
Definition queryAt (text : jsstring) (anchorIndex : Z) (query : jsstring)
    : Prop :=
  maximalRun (drop (Z.to_nat (anchorIndex + 1)) text) query.

(** The length of the [@token] run at [anchorIndex]: [1 + query.length], or
    1 when no ['@'] stands there. *)
Definition tokenLength (text : jsstring) (anchorIndex : Z) : Z :=
  if decide (charAt text anchorIndex = Some AT)
  then 1 + len (nonSpaceRun (drop (Z.to_nat (anchorIndex + 1)) text))
  else 1.

(** [text[anchorIndex:]] without its leading [@token] run. *)
Definition restAfterToken (text : jsstring) (anchorIndex : Z) : jsstring :=
  drop (Z.to_nat (anchorIndex + tokenLength text anchorIndex)) text.

(** The separator as the specification words it: empty when the rest begins
    with whitespace, a single space otherwise. *)
Definition separatorAsStated (rest : jsstring) : jsstring :=
  match rest with
  | c :: _ => if isWhiteSpace c then [] else [SPACE]
  | [] => [SPACE]
  end.

(** The new text as the specification words it. *)
Definition insertionAsStated (text : jsstring) (anchorIndex : Z)
    (candidate : jsstring) : jsstring :=
  let before := take (Z.to_nat anchorIndex) text in
  let rest := restAfterToken text anchorIndex in
  before ++ AT :: candidate ++ separatorAsStated rest ++ rest.

(** *** Concrete prompts *)

(** A file index holding [readme.md] and [BUG.md] whose fuzzy match keeps
    the files that contain the query. *)
Definition sampleFiles : list jsstring := [js "readme.md"; js "BUG.md"].
Definition sampleMatch (query : jsstring) (files : list jsstring)
    : option (list jsstring) :=
  Some (filter (λ f, includes f query = true) files).

(** The user has typed [text] and the cursor stands at [cursor]. *)
Definition typed (text : jsstring) (cursor : Z) : AppState :=
  detectMention (Some sampleFiles) sampleMatch
    (setCurrentCursor cursor (setPrompt text initialState)).

(** ["see @re"] with the cursor at its end. *)
Definition seeRe : AppState := typed (js "see @re") 7.

(** The same mention followed by a tab character and more text. *)
Definition seeReTab : AppState := typed (js "see @re" ++ [9%N] ++ js "x") 7.

(** *** Submitting, and the events of a session *)

(** [handleSubmit(value)]: the prompt handed to [writeSuccessAndExit] (of
    [./shared/index.js], which is not among the sources), [value || prompt],
    or [None] when the function returns without submitting. *)
Definition handleSubmit (value : option jsstring) (st : AppState)
    : option jsstring :=
  if isFileListActive st then None
  else Some match value with
            | Some (c :: v) => c :: v
            | _ => prompt st
            end.

(** The effect [useEffect(..., [cursorPosition])]: a cursor override is
    cleared by a timer once it has been applied. *)
Definition clearCursorOverride (st : AppState) : AppState :=
  match cursorPosition st with
  | Some _ => setCursorPosition None st
  | None => st
  end.

(** What can happen to the component: the text input reports a new text
    ([onChange]) or a new cursor ([onCursorChange]), a key arrives, or the
    timer of the cursor override fires. *)
Inductive Event :=
| Change (text : jsstring)
| CursorMoved (cursor : Z)
| Press (key : Key)
| OverrideApplied.

Section Events.

Variable scanProjectFiles : option (list jsstring).
Variable fuzzyMatchFiles : jsstring → list jsstring → option (list jsstring).

(** One event: the state update, then the render and its effects. *)
Definition react (st : AppState) (ev : Event) : AppState :=
  match ev with
  | Change text =>
      afterRender scanProjectFiles fuzzyMatchFiles st (setPrompt text st)
  | CursorMoved cursor =>
      afterRender scanProjectFiles fuzzyMatchFiles st
        (setCurrentCursor cursor st)
  | Press key => keypress scanProjectFiles fuzzyMatchFiles key st
  | OverrideApplied => clearCursorOverride st
  end.

Definition reactAll (evs : list Event) (st : AppState) : AppState :=
  foldl react st evs.

(** [n] cancel gestures in a row. *)
Definition cancelGestures (n : nat) (s : Session) : Session :=
  Nat.iter n (cancelGesture scanProjectFiles fuzzyMatchFiles) s.

End Events.

(** The number of cancel gestures it takes to close a session. *)
Definition gesturesToClose (st : AppState) : nat :=
  ((if isFileListActive st then 1 else 0)
   + (if len (prompt st) >? 0 then 1 else 0) + 1)%nat.

(** A file path without whitespace and without ['@']. *)
Definition plainPath (candidate : jsstring) : Prop :=
  Forall (λ c, isWhiteSpace c = false ∧ c ≠ AT) candidate.

(** What the detection effect decides from the text and the cursor: to hide
    the list, to show it for the anchor [a] with the candidates [matches],
    or, when the file index throws, to empty it. *)
Inductive Verdict :=
| Hide
| Show (a : Z) (matches : list jsstring)
| Failed.

Definition verdict (scanProjectFiles : option (list jsstring))
    (fuzzyMatchFiles : jsstring → list jsstring → option (list jsstring))
    (text : jsstring) (cursor : Z) : Verdict :=
  let a := scanAt text (Z.to_nat cursor) in
  if a =? -1 then Hide
  else
    let query := nonSpaceRun (drop (Z.to_nat (a + 1)) text) in
    if cursor <=? a + 1 + len query then
      match scanProjectFiles ≫= fuzzyMatchFiles query with
      | Some matches => Show a matches
      | None => Failed
      end
    else Hide.

Definition applyVerdict (v : Verdict) (st : AppState) : AppState :=
  match v with
  | Hide => hideFileList st
  | Show a matches =>
      mkApp (prompt st) true matches 0 a (cursorPosition st)
            (currentCursor st)
  | Failed => setIsFileListActive false (setFilteredFiles [] st)
  end.

(** A state the accept gesture can work on: an active list is anchored on
    an ['@'] of the text, a non-empty candidate list has its selection
    inside, and candidates are kept only while the list is active. *)
Definition wellFormed (st : AppState) : Prop :=
  (isFileListActive st = true →
     0 ≤ atPosition st ∧ charAt (prompt st) (atPosition st) = Some AT)
  ∧ (filteredFiles st ≠ [] →
       0 ≤ selectedFileIndex st < len (filteredFiles st))
  ∧ (isFileListActive st = false → filteredFiles st = []).

End Mention.

(** ** The popup manager: [PopupManager] *)

Module Launcher.

(** *** Code that can throw *)

(** A thrown value, read through [error.message]. *)
Record Exn := mkExn {
  message : option jsstring;
}.

Inductive Outcome (A : Type) : Type :=
| Returned (a : A)
| Thrown (e : Exn).
Arguments Returned {A} a.
Arguments Thrown {A} e.

(** A computation over a state [S] that returns or throws; the state it
    reached is kept in both cases. *)
Definition M (S A : Type) : Type := S → Outcome A * S.

Definition ret {S A} (a : A) : M S A := λ s, (Returned a, s).

Definition throw {S A} (e : Exn) : M S A := λ s, (Thrown e, s).

Definition bind {S A B} (m : M S A) (k : A → M S B) : M S B :=
  λ s, match m s with
       | (Returned a, s') => k a s'
       | (Thrown e, s') => (Thrown e, s')
       end.

(** [try { m } catch (error) { handler(error) }] *)
Definition tryCatch {S A} (m : M S A) (handler : Exn → M S A) : M S A :=
  λ s, match m s with
       | (Returned a, s') => (Returned a, s')
       | (Thrown e, s') => handler e s'
       end.

(** A function of the environment that returns or throws and leaves the
    state alone. *)
Definition call {S A} (o : Outcome A) : M S A := λ s, (o, s).

Definition modify {S} (f : S → S) : M S unit := λ s, (Returned tt, f s).

(** A [let] variable of the enclosing function, visible in its [try] and
    [catch] blocks. *)
Definition withLocal {S L A} (init : L) (m : M (S * L) A) : M S A :=
  λ s, match m (s, init) with
       | (o, (s', _)) => (o, s')
       end.

Definition getLocal {S L} : M (S * L) L := λ sl, (Returned sl.2, sl).

Definition setLocal {S L} (l : L) : M (S * L) unit :=
  λ sl, (Returned tt, (sl.1, l)).

Definition lift {S L A} (m : M S A) : M (S * L) A :=
  λ sl, match m sl.1 with
        | (o, s') => (o, (s', sl.2))
        end.

Notation "'do' x <- m ; k" := (bind m (λ x, k))
  (at level 10, x name, m at level 100, k at level 200,
   format "'[v' 'do'  x  <-  m ; '/' k ']'").
Notation "'exec' m ; k" := (bind m (λ _, k))
  (at level 10, m at level 100, k at level 200,
   format "'[v' 'exec'  m ; '/' k ']'").

(** *** The host *)

(** What a timer set with [setTimeout] will do. *)
Inductive TimerTask :=
| ClearStatusMessage
| StopIgnoringInput.

Inductive FsCall :=
| WriteFile (path content : jsstring)
| Unlink (path : jsstring).

(** The observable state of the host: the files, the calls made to [fs],
    the calls made to the two callbacks the manager was constructed with,
    and the timers it has set (each list in the order of the calls). *)
Record Host := mkHost {
  files : gmap jsstring jsstring;
  fsCalls : list FsCall;
  statusMessages : list jsstring;
  ignoreInput : list bool;
  timers : list (Z * TimerTask);
}.

Definition setFiles (f : gmap jsstring jsstring) (h : Host) : Host :=
  mkHost f (fsCalls h) (statusMessages h) (ignoreInput h) (timers h).
Definition logFsCall (c : FsCall) (h : Host) : Host :=
  mkHost (files h) (fsCalls h ++ [c]) (statusMessages h) (ignoreInput h)
         (timers h).
Definition setStatusMessage (msg : jsstring) (h : Host) : Host :=
  mkHost (files h) (fsCalls h) (statusMessages h ++ [msg]) (ignoreInput h)
         (timers h).
Definition setIgnoreInput (b : bool) (h : Host) : Host :=
  mkHost (files h) (fsCalls h) (statusMessages h) (ignoreInput h ++ [b])
         (timers h).
Definition setTimeout (task : TimerTask) (delay : Z) (h : Host) : Host :=
  mkHost (files h) (fsCalls h) (statusMessages h) (ignoreInput h)
         (timers h ++ [(delay, task)]).

(** Modelled from the spec: the type [PopupResult<T>] of [utils/popup.js],
    which is not among the sources. The popup writes one of
    [{success: true, data}], [{cancelled: true}] and [{error}];
    [handleResult] reads the four properties [success], [data], [cancelled]
    and [error], each of which may be absent ([None] is [undefined]). *)
Record PopupResult (T : Type) := mkResult {
  success : option bool;
  data : option T;
  cancelled : option bool;
  error : option jsstring;
}.
Arguments mkResult {T} success data cancelled error.
Arguments success {T} p.
Arguments data {T} p.
Arguments cancelled {T} p.
Arguments error {T} p.

Definition successResult {T} (d : T) : PopupResult T :=
  mkResult (Some true) (Some d) None None.
Definition cancelledResult {T} : PopupResult T :=
  mkResult None None (Some true) None.
Definition errorResult {T} (msg : jsstring) : PopupResult T :=
  mkResult None None None (Some msg).

(** Truthiness of an optional boolean and of an optional string. *)
Definition truthy (o : option bool) : bool := default false o.
Definition nonEmpty (o : option jsstring) : bool :=
  match o with
  | Some (_ :: _) => true
  | _ => false
  end.

Inductive Placement := Standard | Centered | Large.

Record PopupOptions := mkOptions {
  width : option Z;
  height : option Z;
  title : jsstring;
  positioning : option Placement;
}.

Record Dimensions := mkDimensions {
  clientWidth : Z;
  clientHeight : Z;
}.

(** The fields of [PopupManagerConfig] that the methods below read. *)
Record PopupManagerConfig := mkConfig {
  sidebarWidth : Z;
  projectRoot : jsstring;
  popupsSupported : bool;
  terminalWidth : Z;
  terminalHeight : Z;
}.

Section Manager.

(** The type of a popup's data, of a payload, and of the objects that
    [POPUP_POSITIONING] builds. *)
Context {T Payload Positioning : Type}.

(** The options object handed to [launchNodePopupNonBlocking]: the
    positioning, then [width] and [height] when given, then the title. *)
Record LaunchOptions := mkLaunchOptions {
  placement : Positioning;
  widthOverride : option Z;
  heightOverride : option Z;
  launchTitle : jsstring;
}.

(** The handle of a launched popup: what its result promise settles to. *)
Record PopupHandle := mkHandle {
  resultPromise : Outcome (PopupResult T);
}.

(** Everything outside this file: Node's [path], [Date], [JSON] and [fs],
    [TmuxService], [POPUP_POSITIONING] and [launchNodePopupNonBlocking] of
    [utils/popup.js], [INPUT_IGNORE_DELAY] of [constants/timing.js], and
    what other processes (the popup among them) do to the files while the
    launcher waits for the result. [Date.now()] is a number of
    milliseconds since the epoch, a natural number. [fs.writeFile] and
    [fs.unlink] fail with the given exception, if any; a failed write may
    leave a file with part of the content behind. *)
Record Env := mkEnv {
  dirname : jsstring;
  path_resolve : jsstring → jsstring → jsstring;
  path_join : list jsstring → jsstring;
  path_basename : jsstring → jsstring;
  dateNow : N;
  jsonStringify : Payload → Outcome jsstring;
  writeFileError : option Exn;
  failedWriteLeaves : option jsstring;
  unlinkError : option Exn;
  getAllDimensions : Outcome Dimensions;
  positioningLarge : Z → Z → Z → Positioning;
  positioningCentered : Z → Positioning;
  positioningStandard : Z → Positioning;
  launchNodePopupNonBlocking :
    jsstring → list jsstring → LaunchOptions → Outcome PopupHandle;
  meanwhile : gmap jsstring jsstring → gmap jsstring jsstring;
  INPUT_IGNORE_DELAY : Z;
}.

(** The same environment with another answer of [fs.unlink]. *)
Definition withUnlinkError (e : option Exn) (env : Env) : Env :=
  mkEnv (dirname env) (path_resolve env) (path_join env) (path_basename env)
        (dateNow env) (jsonStringify env) (writeFileError env)
        (failedWriteLeaves env) e
        (getAllDimensions env) (positioningLarge env)
        (positioningCentered env) (positioningStandard env)
        (launchNodePopupNonBlocking env) (meanwhile env)
        (INPUT_IGNORE_DELAY env).

Variable env : Env.
Variable config : PopupManagerConfig.

(** [fs.writeFile(path, content)] *)
Definition fs_writeFile (path content : jsstring) : M Host unit :=
  λ h, let h := logFsCall (WriteFile path content) h in
       match writeFileError env with
       | Some e =>
           match failedWriteLeaves env with
           | Some part => (Thrown e, setFiles (<[path := part]> (files h)) h)
           | None => (Thrown e, h)
           end
       | None => (Returned tt, setFiles (<[path := content]> (files h)) h)
       end.

(** [fs.unlink(path)]: it fails when the environment says so, and when the
    file does not exist. *)
Definition fs_unlink (path : jsstring) : M Host unit :=
  λ h, let h := logFsCall (Unlink path) h in
       match unlinkError env with
       | Some e => (Thrown e, h)
       | None =>
           match files h !! path with
           | Some _ => (Returned tt, setFiles (delete path (files h)) h)
           | None => (Thrown (mkExn (Some (js "ENOENT"))), h)
           end
       end.

(** [await popupHandle.resultPromise] *)
Definition awaitResult (handle : PopupHandle) : M Host (PopupResult T) :=
  λ h, (resultPromise handle, setFiles (meanwhile env (files h)) h).

Definition getPopupScriptPath (scriptName : jsstring) : jsstring :=
  let projectRootForPopup :=
    if includes (dirname env) (js "/dist")
    then path_resolve env (dirname env) (js "../..")
    else path_resolve env (dirname env) (js "../..") in
  path_join env [projectRootForPopup; js "dist"; js "components";
                 js "popups"; scriptName].

Definition showTempMessage (msg : jsstring) (duration : Z) : M Host unit :=
  exec modify (setStatusMessage msg);
  modify (setTimeout ClearStatusMessage duration).

Definition checkPopupSupport : M Host bool :=
  if negb (popupsSupported config) then
    exec showTempMessage (js "Popups require tmux 3.2+") 3000;
    ret false
  else ret true.

Definition ignoreInputBriefly : M Host unit :=
  exec modify (setIgnoreInput true);
  modify (setTimeout StopIgnoringInput (INPUT_IGNORE_DELAY env)).

(** The name of the channel file of a launch that reads the clock at
    [now]. *)
Definition tempFileName (scriptName : jsstring) (now : N) : jsstring :=
  js "/tmp/dmux-" ++ replaceFirst scriptName (js ".js") [] ++ js "-"
  ++ js (pretty now) ++ js ".json".

(** The cleanup of both exit paths:
    [if (tempFile) { try { await fs.unlink(tempFile) } catch {} }] *)
Definition cleanUp : M (Host * option jsstring) unit :=
  do tempFile <- getLocal;
  if nonEmpty tempFile then
    tryCatch (lift (fs_unlink (default [] tempFile))) (λ _, ret tt)
  else ret tt.

(** The block under [// Get positioning]: only the large layout asks
    [TmuxService] for the dimensions, which may throw. *)
Definition getPositioning (options : PopupOptions) : Outcome Positioning :=
  match positioning options with
  | Some Large =>
      match getAllDimensions env with
      | Returned dims =>
          Returned (positioningLarge env (sidebarWidth config)
                      (clientWidth dims) (clientHeight dims))
      | Thrown e => Thrown e
      end
  | Some Centered => Returned (positioningCentered env (sidebarWidth config))
  | _ => Returned (positioningStandard env (sidebarWidth config))
  end.

(** The call
    [launchNodePopupNonBlocking(popupScriptPath, args, {...positioning, ...})]. *)
Definition spawnPopup (popupScriptPath : jsstring) (args : list jsstring)
    (options : PopupOptions) (positioning : Positioning)
    : Outcome PopupHandle :=
  launchNodePopupNonBlocking env popupScriptPath args
    (mkLaunchOptions positioning (width options) (height options)
       (title options)).

Definition launchPopup (scriptName : jsstring) (args : list jsstring)
    (options : PopupOptions) (tempData : option Payload)
    : M Host (PopupResult T) :=
  let popupScriptPath := getPopupScriptPath scriptName in
  withLocal None
    (tryCatch
       (do args <-
          match tempData with
          | Some tempData =>
              let tempFile := tempFileName scriptName (dateNow env) in
              exec setLocal (Some tempFile);
              do content <- call (jsonStringify env tempData);
              exec lift (fs_writeFile tempFile content);
              ret (tempFile :: args)
          | None => ret args
          end;
        do positioning <- call (getPositioning options);
        do popupHandle <-
          call (spawnPopup popupScriptPath args options positioning);
        do result <- lift (awaitResult popupHandle);
        exec cleanUp;
        ret result)
       (λ error,
          exec cleanUp;
          throw error)).

(** The first test of [handleResult] is
    [result.success && result.data !== undefined]: the data is handed on
    only when both hold. *)
Definition handleResult (result : PopupResult T)
    (onSuccess : option (T → M Host (option T)))
    (onError : option (jsstring → M Host unit)) : M Host (option T) :=
  match (if truthy (success result) then data result else None) with
  | Some d =>
      match onSuccess with
      | Some onSuccess => onSuccess d
      | None => ret (Some d)
      end
  | None =>
      if truthy (cancelled result) then ret None
      else if nonEmpty (error result) then
        let errorMsg := js "Popup error: " ++ toStringOr (error result) in
        exec match onError with
             | Some onError => onError errorMsg
             | None => showTempMessage errorMsg 3000
             end;
        ret None
      else ret None
  end.

(** [`Failed to launch popup: ${error.message}`] *)
Definition failedToLaunch (error : Exn) : jsstring :=
  js "Failed to launch popup: " ++ toStringOr (message error).

End Manager.

Section NewPane.

(** The new-pane popup returns the prompt, a string. *)
Context {Payload Positioning : Type}.
Variable env : @Env jsstring Payload Positioning.
Variable config : PopupManagerConfig.

(** The title of the new-pane popup; its two symbols are the code units
    U+2728 and U+2014. *)
Definition newPaneTitle (projectName : jsstring) : jsstring :=
  js "  " ++ [10024%N] ++ js " New Pane " ++ [8212%N] ++ js " "
  ++ projectName ++ js "  ".

(** The arguments and options of the new-pane popup. The height is
    [Math.floor(terminalHeight * 0.8)]. *)
Definition newPaneArgs (projectPath : option jsstring) : list jsstring :=
  if nonEmpty projectPath then [toStringOr projectPath] else [].

Definition newPaneOptions (projectPath : option jsstring) : PopupOptions :=
  let popupHeight := terminalHeight config * 4 / 5 in
  let effectivePath :=
    if nonEmpty projectPath then toStringOr projectPath
    else projectRoot config in
  let projectName :=
    if nonEmpty (Some effectivePath) then path_basename env effectivePath
    else js "dmux" in
  mkOptions (Some 90) (Some popupHeight) (newPaneTitle projectName)
            (Some Centered).

Definition launchNewPanePopup (projectPath : option jsstring)
    : M Host (option jsstring) :=
  do supported <- checkPopupSupport config;
  if negb supported then ret None
  else
    tryCatch
      (do result <-
         launchPopup env config (js "newPanePopup.js")
           (newPaneArgs projectPath) (newPaneOptions projectPath) None;
       exec ignoreInputBriefly env;
       handleResult result None None)
      (λ error,
         exec showTempMessage (failedToLaunch error) 3000;
         ret None).

End NewPane.

(** *** Vocabulary of the properties *)

(** The steps of [launchPopup] before the spawn: the arguments of the popup,
    with the channel file in front when a payload was written. *)
Definition prepareArgs {T Payload Positioning}
    (env : @Env T Payload Positioning) (scriptName : jsstring)
    (args : list jsstring) (tempData : option Payload)
    : Outcome (list jsstring) :=
  match tempData with
  | None => Returned args
  | Some payload =>
      match jsonStringify env payload, writeFileError env with
      | Thrown e, _ => Thrown e
      | Returned _, Some e => Thrown e
      | Returned _, None =>
          Returned (tempFileName scriptName (dateNow env) :: args)
      end
  end.

(** What [launchPopup] returns or throws, read off its steps: the first
    step that throws decides, otherwise the settled result promise. *)
Definition launchOutcome {T Payload Positioning}
    (env : @Env T Payload Positioning) (config : PopupManagerConfig)
    (scriptName : jsstring) (args : list jsstring) (options : PopupOptions)
    (tempData : option Payload) : Outcome (PopupResult T) :=
  match prepareArgs env scriptName args tempData with
  | Thrown e => Thrown e
  | Returned args =>
      match getPositioning env config options with
      | Thrown e => Thrown e
      | Returned positioning =>
          match spawnPopup env (getPopupScriptPath env scriptName) args
                  options positioning with
          | Thrown e => Thrown e
          | Returned handle => resultPromise handle
          end
      end
  end.

(** The host after the quiet removal of [path]:
    [try { await fs.unlink(path) } catch {}]. *)
Definition unlinkQuietly {T Payload Positioning}
    (env : @Env T Payload Positioning) (path : jsstring) (h : Host) : Host :=
  (tryCatch (fs_unlink env path) (λ _, ret tt) h).2.

(** Unfolds the monad and the steps of [launchPopup], up to the calls of
    [fs.unlink]. *)
Ltac run_launcher :=
  cbv beta iota zeta delta
    [launchPopup unlinkQuietly withLocal tryCatch bind cleanUp getLocal
     setLocal lift call ret throw awaitResult spawnPopup fs_writeFile modify
     withUnlinkError fst snd];
  simpl.

(** Both answers of the one call of [fs.unlink] that is left. *)
Ltac settle_unlink :=
  unfold setFiles, logFsCall; simpl;
  destruct (fs_unlink _ _ _) as [[[]|?] ?]; simpl; reflexivity.

(** *** Concrete launches *)

(** An environment whose popups settle as [settles], whose clock reads
    [now], whose spawn fails with [spawnError] when given, and whose
    [fs.unlink] fails with [unlinkFails] when given. Payloads are already
    serialized. *)
Definition sampleEnv (settles : Outcome (PopupResult jsstring))
    (spawnError unlinkFails : option Exn) (now : N)
    : @Env jsstring jsstring unit :=
  mkEnv (js "/opt/dmux/dist/services")
        (λ _ _, js "/opt/dmux")
        (λ parts, foldr (λ p acc, js "/" ++ p ++ acc) [] parts)
        (λ p, p)
        now
        (λ payload, Returned payload)
        None None
        unlinkFails
        (Returned (mkDimensions 200 50))
        (λ _ _ _, tt) (λ _, tt) (λ _, tt)
        (λ _ _ _, match spawnError with
                  | Some e => Thrown e
                  | None => Returned (mkHandle settles)
                  end)
        (λ fs, fs)
        100.

Definition sampleConfig : PopupManagerConfig :=
  mkConfig 40 (js "/home/dev/project") true 200 50.

Definition emptyHost : Host := mkHost ∅ [] [] [] [].

Definition confirmOptions : PopupOptions :=
  mkOptions (Some 80) (Some 12) (js "Confirm") None.

(** The spawn fails. *)
Definition spawnFailure : Exn := mkExn (Some (js "spawn tmux ENOENT")).

(** Two launches of the confirm popup within the same millisecond. *)
Definition firstConfirm : Outcome (PopupResult jsstring) * Host :=
  launchPopup (sampleEnv (Returned cancelledResult) None None 1700000000000)
    sampleConfig (js "confirmPopup.js") [] confirmOptions
    (Some (js "{title:A}")) emptyHost.
Definition secondConfirm : Outcome (PopupResult jsstring) * Host :=
  launchPopup (sampleEnv (Returned (successResult (js "true"))) None None
                 1700000000000)
    sampleConfig (js "confirmPopup.js") [] confirmOptions
    (Some (js "{title:B}")) emptyHost.

(** A launch whose spawn fails. *)
Definition failedConfirm : Outcome (PopupResult jsstring) * Host :=
  launchPopup (sampleEnv (Returned cancelledResult) (Some spawnFailure) None
                 1700000000000)
    sampleConfig (js "confirmPopup.js") [] confirmOptions
    (Some (js "{title:A}")) emptyHost.

(** *** The other launch methods *)

(** [s.split(sep)] for a separator of one code unit: the pieces between the
    separators, one piece more than there are separators. *)
Fixpoint splitOn (sep : N) (s : jsstring) : list jsstring :=
  match s with
  | [] => [[]]
  | c :: s' =>
      if (c =? sep)%N then [] :: splitOn sep s'
      else match splitOn sep s' with
           | piece :: pieces => (c :: piece) :: pieces
           | [] => [[c]]
           end
  end.

(** [Math.ceil(n / d)] for a length [n] and a positive integer [d]: the
    quotient of two such numbers is far from the rounding of doubles. *)
Definition ceilDiv (n d : Z) : Z := (n + d - 1) / d.

(** [title || fallback] *)
Definition orElse (s fallback : jsstring) : jsstring :=
  match s with
  | [] => fallback
  | _ :: _ => s
  end.

Record ChoiceOption := mkChoiceOption {
  optionId : jsstring;
  optionLabel : jsstring;
  optionDescription : option jsstring;
  optionDanger : option bool;
  optionDefault : option bool;
}.

Inductive ProgressType := Info | Success | Failure.

(** The payload objects of the launch methods below, one constructor for
    each object literal. *)
Inductive PopupPayload :=
| ConfirmData (title message : jsstring) (yesLabel noLabel : option jsstring)
| ChoiceData (title message : jsstring) (options : list ChoiceOption)
| ProjectSelectData (defaultValue : jsstring)
| InputData (title message : jsstring)
    (placeholder defaultValue : option jsstring)
| ProgressData (message : jsstring) (type : ProgressType) (timeout : Z)
| ShortcutsData (hasSidebarLayout : bool).

(** The data of the popups that answer with an action. *)
Record ActionData := mkActionData {
  action : option jsstring;
}.

Section Methods.

Context {Positioning : Type}.
Variable config : PopupManagerConfig.

(** The number of rows the confirm popup reserves for its message: every
    line of the message counts for its length in rows of 75, and for one
    row at least. *)
Definition messageLines (message : jsstring) : Z :=
  foldl (λ count line, count + Z.max 1 (ceilDiv (len line) 75)) 0
        (splitOn 10 message).

Definition confirmHeight (message : jsstring) : Z :=
  Z.min 35 (Z.max 12 (messageLines message + 6)).

Definition launchConfirmPopup (env : @Env bool PopupPayload Positioning)
    (title message : jsstring) (yesLabel noLabel : option jsstring)
    : M Host bool :=
  do supported <- checkPopupSupport config;
  if negb supported then ret false
  else
    tryCatch
      (let calculatedHeight := confirmHeight message in
       do result <-
         launchPopup env config (js "confirmPopup.js") []
           (mkOptions (Some 80) (Some calculatedHeight)
              (orElse title (js "Confirm")) None)
           (Some (ConfirmData title message yesLabel noLabel));
       do answer <- handleResult result None None;
       ret (default false answer))
      (λ error,
         exec showTempMessage (failedToLaunch error) 3000;
         ret false).

Definition launchChoicePopup (env : @Env jsstring PopupPayload Positioning)
    (title message : jsstring) (options : list ChoiceOption)
    : M Host (option jsstring) :=
  do supported <- checkPopupSupport config;
  if negb supported then ret None
  else
    tryCatch
      (do result <-
         launchPopup env config (js "choicePopup.js") []
           (mkOptions (Some 70) (Some (Z.min 25 (len options * 3 + 8)))
              (orElse title (js "Choose Option")) None)
           (Some (ChoiceData title message options));
       handleResult result None None)
      (λ error,
         exec showTempMessage (failedToLaunch error) 3000;
         ret None).

Definition launchProjectSelectPopup
    (env : @Env jsstring PopupPayload Positioning)
    (defaultValue : option jsstring) : M Host (option jsstring) :=
  do supported <- checkPopupSupport config;
  if negb supported then ret None
  else
    tryCatch
      (do result <-
         launchPopup env config (js "projectSelectPopup.js") []
           (mkOptions (Some 80) (Some 25) (js "  Select Project  ")
              (Some Centered))
           (Some (ProjectSelectData
                    (if nonEmpty defaultValue then toStringOr defaultValue
                     else [])));
       exec ignoreInputBriefly env;
       handleResult result None None)
      (λ error,
         exec showTempMessage (failedToLaunch error) 3000;
         ret None).

Definition launchInputPopup (env : @Env jsstring PopupPayload Positioning)
    (title message : jsstring) (placeholder defaultValue : option jsstring)
    : M Host (option jsstring) :=
  do supported <- checkPopupSupport config;
  if negb supported then ret None
  else
    tryCatch
      (do result <-
         launchPopup env config (js "inputPopup.js") []
           (mkOptions (Some 70) (Some 15) (orElse title (js "Input")) None)
           (Some (InputData title message placeholder defaultValue));
       handleResult result None None)
      (λ error,
         exec showTempMessage (failedToLaunch error) 3000;
         ret None).

(** The titles of the progress popup; their symbols are the code units
    U+2713, U+2717 and U+2139. *)
Definition progressTitle (type : ProgressType) : jsstring :=
  match type with
  | Success => [10003%N] ++ js " Success"
  | Failure => [10007%N] ++ js " Error"
  | Info => [8505%N] ++ js " Info"
  end.

(** [launchProgressPopup(message, type = "info", timeout = 2000)]: an
    absent argument is [None]. *)
Definition launchProgressPopup (env : @Env unit PopupPayload Positioning)
    (message : jsstring) (type : option ProgressType) (timeout : option Z)
    : M Host unit :=
  let type := default Info type in
  let timeout := default 2000 timeout in
  if negb (popupsSupported config) then showTempMessage message timeout
  else
    tryCatch
      (let lines := ceilDiv (len message) 60 + 3 in
       let titleText := progressTitle type in
       exec launchPopup env config (js "progressPopup.js") []
              (mkOptions (Some 70) (Some (Z.min 15 (lines + 4))) titleText
                 None)
              (Some (ProgressData message type timeout));
       ret tt)
      (λ error, showTempMessage message timeout).

(** The title of the shortcuts popup; its symbol is the code units U+2328
    and U+FE0F. *)
Definition shortcutsTitle : jsstring :=
  [9000%N; 65039%N] ++ js "  Keyboard Shortcuts".

(** [data?.action === name] *)
Definition hasAction (data : option ActionData) (name : jsstring) : bool :=
  bool_decide (data ≫= action = Some name).

Definition launchShortcutsPopup
    (env : @Env ActionData PopupPayload Positioning)
    (hasSidebarLayout : bool) : M Host (option jsstring) :=
  do supported <- checkPopupSupport config;
  if negb supported then ret None
  else
    tryCatch
      (do result <-
         launchPopup env config (js "shortcutsPopup.js") []
           (mkOptions (Some 50) (Some 21) shortcutsTitle None)
           (Some (ShortcutsData hasSidebarLayout));
       exec ignoreInputBriefly env;
       do data <- handleResult result None None;
       ret (if hasAction data (js "hooks") then Some (js "hooks") else None))
      (λ error,
         exec showTempMessage (failedToLaunch error) 3000;
         ret None).

(** The hook names of [launchHooksPopup]. *)
Definition allHookTypes : list jsstring :=
  [js "before_pane_create"; js "pane_created"; js "worktree_created";
   js "before_pane_close"; js "pane_closed"; js "before_worktree_remove";
   js "worktree_removed"; js "pre_merge"; js "post_merge"; js "run_test";
   js "run_dev"].

(** [names.map(f)] for a callback that may throw: the first exception ends
    the loop. *)
Fixpoint mapOutcome {A B} (f : A → Outcome B) (l : list A)
    : Outcome (list B) :=
  match l with
  | [] => Returned []
  | x :: l' =>
      match f x with
      | Thrown e => Thrown e
      | Returned y =>
          match mapOutcome f l' with
          | Thrown e => Thrown e
          | Returned ys => Returned (y :: ys)
          end
      end
  end.

(** The title of the hooks popup; its symbol is U+1FA9D, a surrogate
    pair. *)
Definition hooksTitle : jsstring :=
  [55358%N; 56989%N] ++ js " Manage Hooks".

Section Hooks.

Context {Payload : Type}.
Variable env : @Env ActionData Payload Positioning.

(** The module [utils/hooks.js], which is not among the sources: its dynamic
    import and its [hasHook] may throw. [process.cwd()], and
    [JSON.stringify] on the array of [{name, active}] objects. *)
Variable importHooks : Outcome unit.
Variable hasHook : jsstring → jsstring → Outcome bool.
Variable processCwd : jsstring.
Variable stringifyHooks : list (jsstring * bool) → jsstring.

Definition launchHooksPopup (onEditHooks : M Host unit) : M Host unit :=
  do supported <- checkPopupSupport config;
  if negb supported then ret tt
  else
    tryCatch
      (exec call importHooks;
       do hooks <-
         call (mapOutcome
                 (λ hookName,
                    match hasHook (orElse (projectRoot config) processCwd)
                            hookName with
                    | Returned active => Returned (hookName, active)
                    | Thrown e => Thrown e
                    end)
                 allHookTypes);
       do result <-
         launchPopup env config (js "hooksPopup.js") [stringifyHooks hooks]
           (mkOptions (Some 70) (Some 24) hooksTitle None) None;
       do data <- handleResult result None None;
       if hasAction data (js "edit") then onEditHooks
       else if hasAction data (js "view") then
         showTempMessage (js "View in editor not yet implemented") 2000
       else ret tt)
      (λ error, showTempMessage (failedToLaunch error) 3000).

End Hooks.

Section Settings.

(** The data of the settings popup is typed [any]: of a value we read its
    [action] property and its truthiness. *)
Context {Payload Data : Type}.
Variable dataAction : Data → option jsstring.
Variable dataTruthy : Data → bool.
Variable env : @Env Data Payload Positioning.

(** The argument of the settings popup, [JSON.stringify({...})] over
    [SETTING_DEFINITIONS] and three calls of the settings manager (neither
    among the sources), which may throw; and the number of the setting
    definitions. *)
Variable settingsArgument : Outcome jsstring.
Variable settingDefinitionsLength : Z.

(** The title of the settings popup; its symbol is the code units U+2699
    and U+FE0F. *)
Definition settingsTitle : jsstring :=
  [9881%N; 65039%N] ++ js "  Settings".

Definition launchSettingsPopup (onLaunchHooks : M Host unit)
    : M Host (option Data) :=
  do supported <- checkPopupSupport config;
  if negb supported then ret None
  else
    tryCatch
      (do argument <- call settingsArgument;
       do result <-
         launchPopup env config (js "settingsPopup.js") [argument]
           (mkOptions (Some 70)
              (Some (Z.min 25 (settingDefinitionsLength + 8)))
              settingsTitle None) None;
       if truthy (success result) then
         if bool_decide (data result ≫= dataAction = Some (js "hooks")) then
           exec onLaunchHooks;
           ret None
         else
           match data result with
           | Some d => if dataTruthy d then ret (Some d) else ret None
           | None => ret None
           end
       else ret None)
      (λ error,
         exec showTempMessage (failedToLaunch error) 3000;
         ret None).

End Settings.

End Methods.

(** *** Vocabulary of the further properties *)

(** The host after [showTempMessage(msg, duration)]. *)
Definition notify (msg : jsstring) (duration : Z) (h : Host) : Host :=
  setTimeout ClearStatusMessage duration (setStatusMessage msg h).

(** The host after [ignoreInputBriefly()]. *)
Definition ignoringInput (delay : Z) (h : Host) : Host :=
  setTimeout StopIgnoringInput delay (setIgnoreInput true h).

(** The data a result delivers: both [success] and [data] are there. *)
Definition deliveredData {T} (result : PopupResult T) : option T :=
  if truthy (success result) then data result else None.

(** The text [handleResult] reports for a result, if any. *)
Definition reportedError {T} (result : PopupResult T) : option jsstring :=
  match deliveredData result with
  | Some _ => None
  | None =>
      if truthy (cancelled result) then None
      else if nonEmpty (error result)
           then Some (js "Popup error: " ++ toStringOr (error result))
           else None
  end.

(** The host after [handleResult] without callbacks. *)
Definition afterHandling {T} (result : PopupResult T) (h : Host) : Host :=
  match reportedError result with
  | Some msg => notify msg 3000 h
  | None => h
  end.

(** The frame the launch methods share: the support check, then the body
    in a [try] whose [catch] reports the failure and answers [fallback]. *)
Definition guarded {A} (config : PopupManagerConfig) (fallback : A)
    (body : M Host A) : M Host A :=
  do supported <- checkPopupSupport config;
  if negb supported then ret fallback
  else
    tryCatch body
      (λ error,
         exec showTempMessage (failedToLaunch error) 3000;
         ret fallback).

(** The body most launch methods share: the launch, for some methods the
    brief ignoring of input, then [handleResult] without callbacks and a
    last step [f] on what it answers. *)
Definition standardBody {T Payload Positioning A}
    (env : @Env T Payload Positioning) (config : PopupManagerConfig)
    (scriptName : jsstring) (args : list jsstring) (options : PopupOptions)
    (tempData : option Payload) (ignore : bool) (f : option T → A)
    : M Host A :=
  do result <- launchPopup env config scriptName args options tempData;
  exec (if ignore then ignoreInputBriefly env else ret tt);
  do answer <- handleResult result None None;
  ret (f answer).

(** What a launch method hands to its caller, before its last step: the
    data the popup delivered, if the popup could be launched and its result
    promise resolved. *)
Definition launcherData {T} (config : PopupManagerConfig)
    (outcome : Outcome (PopupResult T)) : option T :=
  if popupsSupported config then
    match outcome with
    | Returned result => deliveredData result
    | Thrown _ => None
    end
  else None.

(** The status message of a launch method, if any. *)
Definition launcherMessage {T} (config : PopupManagerConfig)
    (outcome : Outcome (PopupResult T)) : option jsstring :=
  if popupsSupported config then
    match outcome with
    | Returned result => reportedError result
    | Thrown e => Some (failedToLaunch e)
    end
  else Some (js "Popups require tmux 3.2+").

(** Whether the result promise of a launch resolved. *)
Definition resolved {T} (config : PopupManagerConfig)
    (outcome : Outcome (PopupResult T)) : bool :=
  popupsSupported config
  && match outcome with
     | Returned _ => true
     | Thrown _ => false
     end.

(** The launches of the methods: script, arguments, options and payload. *)
Section Launches.

Context {Positioning : Type}.
Variable config : PopupManagerConfig.

Definition newPaneLaunch {Payload}
    (env : @Env jsstring Payload Positioning) (projectPath : option jsstring)
    : Outcome (PopupResult jsstring) :=
  launchOutcome env config (js "newPanePopup.js") (newPaneArgs projectPath)
    (newPaneOptions env config projectPath) None.

Definition confirmLaunch (env : @Env bool PopupPayload Positioning)
    (title message : jsstring) (yesLabel noLabel : option jsstring)
    : Outcome (PopupResult bool) :=
  launchOutcome env config (js "confirmPopup.js") []
    (mkOptions (Some 80) (Some (confirmHeight message))
       (orElse title (js "Confirm")) None)
    (Some (ConfirmData title message yesLabel noLabel)).

Definition choiceLaunch (env : @Env jsstring PopupPayload Positioning)
    (title message : jsstring) (options : list ChoiceOption)
    : Outcome (PopupResult jsstring) :=
  launchOutcome env config (js "choicePopup.js") []
    (mkOptions (Some 70) (Some (Z.min 25 (len options * 3 + 8)))
       (orElse title (js "Choose Option")) None)
    (Some (ChoiceData title message options)).

Definition projectSelectLaunch (env : @Env jsstring PopupPayload Positioning)
    (defaultValue : option jsstring) : Outcome (PopupResult jsstring) :=
  launchOutcome env config (js "projectSelectPopup.js") []
    (mkOptions (Some 80) (Some 25) (js "  Select Project  ") (Some Centered))
    (Some (ProjectSelectData
             (if nonEmpty defaultValue then toStringOr defaultValue
              else []))).

Definition inputLaunch (env : @Env jsstring PopupPayload Positioning)
    (title message : jsstring) (placeholder defaultValue : option jsstring)
    : Outcome (PopupResult jsstring) :=
  launchOutcome env config (js "inputPopup.js") []
    (mkOptions (Some 70) (Some 15) (orElse title (js "Input")) None)
    (Some (InputData title message placeholder defaultValue)).

Definition shortcutsLaunch (env : @Env ActionData PopupPayload Positioning)
    (hasSidebarLayout : bool) : Outcome (PopupResult ActionData) :=
  launchOutcome env config (js "shortcutsPopup.js") []
    (mkOptions (Some 50) (Some 21) shortcutsTitle None)
    (Some (ShortcutsData hasSidebarLayout)).

Definition progressLaunch (env : @Env unit PopupPayload Positioning)
    (message : jsstring) (type : option ProgressType) (timeout : option Z)
    : Outcome (PopupResult unit) :=
  launchOutcome env config (js "progressPopup.js") []
    (mkOptions (Some 70)
       (Some (Z.min 15 (ceilDiv (len message) 60 + 3 + 4)))
       (progressTitle (default Info type)) None)
    (Some (ProgressData message (default Info type) (default 2000 timeout))).

End Launches.

(** The answer of the shortcuts popup: ["hooks"] or [null]. *)
Definition hooksOrNull (data : option ActionData) : option jsstring :=
  if hasAction data (js "hooks") then Some (js "hooks") else None.


(** What a method that hands a payload to its popup does to the files,
    from the host [h] to the host [h']: in a supporting environment at most
    one write of the channel file and then its removal as the last file
    operation, after which the file is absent unless [fs.unlink] failed;
    no file operation otherwise. *)
Definition channelFileHandled {T Payload Positioning}
    (env : @Env T Payload Positioning) (config : PopupManagerConfig)
    (scriptName : jsstring) (h h' : Host) : Prop :=
  let tempFile := tempFileName scriptName (dateNow env) in
  if popupsSupported config then
    (∃ written,
       fsCalls h' = fsCalls h ++ written ++ [Unlink tempFile]
       ∧ (written = [] ∨ ∃ content, written = [WriteFile tempFile content]))
    ∧ (unlinkError env = None → files h' !! tempFile = None)
  else fsCalls h' = fsCalls h ∧ files h' = files h.

(** The launch of the settings popup for a serialized argument, and what
    the method answers for a result that does not ask for the hooks. *)
Definition settingsLaunch {Data Payload Positioning}
    (config : PopupManagerConfig) (env : @Env Data Payload Positioning)
    (argument : jsstring) (settingDefinitionsLength : Z)
    : Outcome (PopupResult Data) :=
  launchOutcome env config (js "settingsPopup.js") [argument]
    (mkOptions (Some 70) (Some (Z.min 25 (settingDefinitionsLength + 8)))
       settingsTitle None) None.

Definition asksForHooks {Data} (dataAction : Data → option jsstring)
    (result : PopupResult Data) : bool :=
  truthy (success result)
  && bool_decide (data result ≫= dataAction = Some (js "hooks")).

Definition settingsAnswer {Data} (dataTruthy : Data → bool)
    (result : PopupResult Data) : option Data :=
  if truthy (success result) then
    match data result with
    | Some d => if dataTruthy d then Some d else None
    | None => None
    end
  else None.

(** The hook statuses [launchHooksPopup] collects, and its launch. *)
Definition hookStatuses (config : PopupManagerConfig)
    (hasHook : jsstring → jsstring → Outcome bool) (processCwd : jsstring)
    : Outcome (list (jsstring * bool)) :=
  mapOutcome
    (λ hookName,
       match hasHook (orElse (projectRoot config) processCwd) hookName with
       | Returned active => Returned (hookName, active)
       | Thrown e => Thrown e
       end)
    allHookTypes.

Definition hooksLaunch {Payload Positioning} (config : PopupManagerConfig)
    (env : @Env ActionData Payload Positioning) (argument : jsstring)
    : Outcome (PopupResult ActionData) :=
  launchOutcome env config (js "hooksPopup.js") [argument]
    (mkOptions (Some 70) (Some 24) hooksTitle None) None.

(** The host after a callback that may throw, inside the [try] of a launch
    method. *)
Definition afterCallback (callback : M Host unit) (h : Host) : Host :=
  match callback h with
  | (Returned _, h') => h'
  | (Thrown e, h') => notify (failedToLaunch e) 3000 h'
  end.

(** *** Concrete popups *)

(** An environment whose popup settles as [settles] and in which nothing
    else fails. *)
Definition quietEnv {T Payload} (settles : Outcome (PopupResult T))
    : @Env T Payload unit :=
  mkEnv (js "/opt/dmux/dist/services")
        (λ _ _, js "/opt/dmux")
        (λ parts, foldr (λ p acc, js "/" ++ p ++ acc) [] parts)
        (λ p, p)
        1700000000000
        (λ _, Returned (js "{}"))
        None None None
        (Returned (mkDimensions 200 50))
        (λ _ _ _, tt) (λ _, tt) (λ _, tt)
        (λ _ _ _, Returned (mkHandle settles))
        (λ fs, fs)
        100.

(** The settings popup asks for the hooks; the callback shows a message. *)
Definition settingsAsksForHooks : Outcome (option jsstring) * Host :=
  launchSettingsPopup sampleConfig Some (λ _, true)
    (quietEnv (Payload := unit) (Returned (successResult (js "hooks"))))
    (Returned (js "{}")) 6 (showTempMessage (js "hooks") 1000) emptyHost.

(** The hooks popup asks to edit the hooks, none of which is there; the
    callback throws. *)
Definition hooksAsksForEdit : Outcome unit * Host :=
  launchHooksPopup sampleConfig
    (quietEnv (Payload := unit)
       (Returned (successResult (mkActionData (Some (js "edit"))))))
    (Returned tt) (λ _ _, Returned false) (js "/home/dev")
    (λ _, js "[]") (throw (mkExn (Some (js "no editor")))) emptyHost.

(** *** The launch methods that read other services *)

(** A closed worktree as [launchReopenWorktreePopup] receives it, with a
    [Date], and as it hands it to the popup, with the date as a string. *)
Record Worktree (Date : Type) := mkWorktree {
  wtSlug : jsstring;
  wtPath : jsstring;
  wtLastModified : Date;
  wtBranch : jsstring;
  wtHasUncommittedChanges : bool;
}.
Arguments mkWorktree {Date} wtSlug wtPath wtLastModified wtBranch
  wtHasUncommittedChanges.
Arguments wtSlug {Date} w.
Arguments wtPath {Date} w.
Arguments wtLastModified {Date} w.
Arguments wtBranch {Date} w.
Arguments wtHasUncommittedChanges {Date} w.

Record WorktreeRef := mkWorktreeRef {
  refSlug : jsstring;
  refPath : jsstring;
}.

(** The data of the logs popup. *)
Record LogsAnswer := mkLogsAnswer {
  clearLogs : option bool;
}.

Section OtherMethods.

Context {Positioning : Type}.
Variable config : PopupManagerConfig.

Section Kebab.

(** [pane.slug]; [getAvailableActions(pane, this.config.projectSettings)]
    of [actions/index.js], which may throw, and [JSON.stringify] on what it
    returns; the [debug] and [error] methods of [LogService], with their
    message and source. None of them is among the sources. *)
Context {Payload Action : Type}.
Variable env : @Env jsstring Payload Positioning.
Variable paneSlug : jsstring.
Variable availableActions : Outcome (list Action).
Variable stringifyActions : list Action → jsstring.
Variable logDebug : jsstring → jsstring → M Host unit.
Variable logError : jsstring → jsstring → M Host unit.

Definition launchKebabMenuPopup : M Host (option jsstring) :=
  do supported <- checkPopupSupport config;
  if negb supported then ret None
  else
    tryCatch
      (do actions <- call availableActions;
       do result <-
         launchPopup env config (js "kebabMenuPopup.js")
           [paneSlug; stringifyActions actions]
           (mkOptions (Some 60) (Some (Z.min 20 (len actions + 5)))
              (js "Menu: " ++ paneSlug) None) None;
       do actionId <-
         handleResult result
           (Some (λ data,
              exec logDebug (js "Action selected: " ++ data)
                     (js "KebabMenu");
              ret (Some data)))
           (Some (λ error,
              exec logError error (js "KebabMenu");
              showTempMessage error 3000));
       ret actionId)
      (λ error,
         exec showTempMessage (failedToLaunch error) 3000;
         ret None).

End Kebab.

Section AgentChoice.

(** [this.config.availableAgents] and [this.config.agentChoice], which
    the record of the configuration leaves out; [JSON.stringify] on the
    agents; the length of what [buildAgentLaunchOptions] of
    [utils/agentLaunch.js] returns for them, which may throw. *)
Context {Payload : Type}.
Variable env : @Env (list jsstring) Payload Positioning.
Variable availableAgents : list jsstring.
Variable agentChoice : option jsstring.
Variable stringifyAgents : list jsstring → jsstring.
Variable agentLaunchOptionsLength : list jsstring → Outcome Z.

(** [agentChoice || availableAgents[0] || "claude"] *)
Definition defaultAgent : jsstring :=
  if nonEmpty agentChoice then toStringOr agentChoice
  else if nonEmpty (head availableAgents)
       then toStringOr (head availableAgents)
       else js "claude".

Definition launchAgentChoicePopup : M Host (option (list jsstring)) :=
  do supported <- checkPopupSupport config;
  if negb supported then ret None
  else
    tryCatch
      (let agentsJson := stringifyAgents availableAgents in
       do popupOptionsCount <-
         call (agentLaunchOptionsLength availableAgents);
       let popupHeight := Z.max 12 (popupOptionsCount * 2 + 7) in
       do result <-
         launchPopup env config (js "agentChoicePopup.js")
           [agentsJson; defaultAgent]
           (mkOptions (Some 72) (Some popupHeight) (js "Select Agent(s)")
              None) None;
       handleResult result None None)
      (λ error,
         exec showTempMessage (failedToLaunch error) 3000;
         ret None).

End AgentChoice.

(** The title of the logs popup; its symbol is U+1FAB5, a surrogate
    pair. *)
Definition logsTitle : jsstring :=
  [55358%N; 57013%N] ++ js " dmux Logs".

(** The message after the logs were cleared; its symbol is U+2713. *)
Definition logsCleared : jsstring :=
  [10003%N] ++ js " Logs cleared".

Section Logs.

(** The object of the logs, their statistics and the panes, read from
    [StateManager], which may throw; its [markAllLogsAsRead], and
    [clearAll] of [LogService]. None of them is among the sources. *)
Context {Payload : Type}.
Variable env : @Env LogsAnswer Payload Positioning.
Variable logsData : Outcome Payload.
Variable markAllLogsAsRead : M Host unit.
Variable clearAll : M Host unit.

Definition launchLogsPopup : M Host unit :=
  do supported <- checkPopupSupport config;
  if negb supported then ret tt
  else
    tryCatch
      (do logsData <- call logsData;
       do result <-
         launchPopup env config (js "logsPopup.js") []
           (mkOptions None None logsTitle (Some Large)) (Some logsData);
       if truthy (success result) then
         exec markAllLogsAsRead;
         if truthy (data result ≫= clearLogs) then
           exec clearAll;
           showTempMessage logsCleared 2000
         else ret tt
       else ret tt)
      (λ error, showTempMessage (failedToLaunch error) 3000).

End Logs.

(** The title of the popup of the closed worktrees; its symbol is U+1F4C2,
    a surrogate pair. *)
Definition reopenTitle : jsstring :=
  [55357%N; 56514%N] ++ js " Reopen Closed Worktree".

Section ReopenWorktree.

(** A [Date] and its [toISOString()], which throws for an invalid date. *)
Context {Date : Type}.
Variable toISOString : Date → Outcome jsstring.
Variable env : @Env WorktreeRef (list (Worktree jsstring)) Positioning.

Definition launchReopenWorktreePopup (worktrees : list (Worktree Date))
    : M Host (option WorktreeRef) :=
  do supported <- checkPopupSupport config;
  if negb supported then ret None
  else
    tryCatch
      (do worktreesData <-
         call (mapOutcome
                 (λ wt,
                    match toISOString (wtLastModified wt) with
                    | Returned lastModified =>
                        Returned
                          (mkWorktree (wtSlug wt) (wtPath wt) lastModified
                             (wtBranch wt) (wtHasUncommittedChanges wt))
                    | Thrown e => Thrown e
                    end)
                 worktrees);
       do result <-
         launchPopup env config (js "reopenWorktreePopup.js") []
           (mkOptions (Some 70) (Some (Z.min 25 (len worktrees * 3 + 8)))
              reopenTitle None)
           (Some worktreesData);
       handleResult result None None)
      (λ error,
         exec showTempMessage (failedToLaunch error) 3000;
         ret None).

End ReopenWorktree.

End OtherMethods.

(** *** Vocabulary for these methods *)

(** A callback inside the [try] of a launch method, the value [a] the
    method answers when the callback returns, and what the method does to
    the host then; when the callback throws, the method reports a failure
    to launch and answers [fallback]. *)
Definition afterCalling {A} (callback : M Host unit) (a fallback : A)
    (after : Host → Host) (h : Host) : Outcome A * Host :=
  match callback h with
  | (Returned _, h') => (Returned a, after h')
  | (Thrown e, h') => (Returned fallback, notify (failedToLaunch e) 3000 h')
  end.

Section OtherLaunches.

Context {Positioning : Type}.
Variable config : PopupManagerConfig.

Definition kebabLaunch {Payload Action}
    (env : @Env jsstring Payload Positioning) (paneSlug : jsstring)
    (stringifyActions : list Action → jsstring) (actions : list Action)
    : Outcome (PopupResult jsstring) :=
  launchOutcome env config (js "kebabMenuPopup.js")
    [paneSlug; stringifyActions actions]
    (mkOptions (Some 60) (Some (Z.min 20 (len actions + 5)))
       (js "Menu: " ++ paneSlug) None) None.

Definition agentChoiceLaunch {Payload}
    (env : @Env (list jsstring) Payload Positioning)
    (availableAgents : list jsstring) (agentChoice : option jsstring)
    (stringifyAgents : list jsstring → jsstring) (popupOptionsCount : Z)
    : Outcome (PopupResult (list jsstring)) :=
  launchOutcome env config (js "agentChoicePopup.js")
    [stringifyAgents availableAgents;
     defaultAgent availableAgents agentChoice]
    (mkOptions (Some 72) (Some (Z.max 12 (popupOptionsCount * 2 + 7)))
       (js "Select Agent(s)") None) None.

Definition logsLaunch {Payload} (env : @Env LogsAnswer Payload Positioning)
    (logsData : Payload) : Outcome (PopupResult LogsAnswer) :=
  launchOutcome env config (js "logsPopup.js") []
    (mkOptions None None logsTitle (Some Large)) (Some logsData).

Definition reopenLaunch
    (env : @Env WorktreeRef (list (Worktree jsstring)) Positioning)
    (worktreesData : list (Worktree jsstring))
    : Outcome (PopupResult WorktreeRef) :=
  launchOutcome env config (js "reopenWorktreePopup.js") []
    (mkOptions (Some 70) (Some (Z.min 25 (len worktreesData * 3 + 8)))
       reopenTitle None)
    (Some worktreesData).

End OtherLaunches.

(** The worktrees with their dates as strings. *)
Definition worktreesData {Date} (toISOString : Date → Outcome jsstring)
    (worktrees : list (Worktree Date))
    : Outcome (list (Worktree jsstring)) :=
  mapOutcome
    (λ wt,
       match toISOString (wtLastModified wt) with
       | Returned lastModified =>
           Returned
             (mkWorktree (wtSlug wt) (wtPath wt) lastModified (wtBranch wt)
                (wtHasUncommittedChanges wt))
       | Thrown e => Thrown e
       end)
    worktrees.

(** *** Concrete worktrees *)

(** A date is valid, with its ISO string, or invalid. *)
Definition sampleISOString (date : option jsstring) : Outcome jsstring :=
  match date with
  | Some iso => Returned iso
  | None => Thrown (mkExn (Some (js "Invalid time value")))
  end.

(** Two closed worktrees, the second with an invalid date. *)
Definition reopenWithInvalidDate : Outcome (option WorktreeRef) * Host :=
  launchReopenWorktreePopup sampleConfig sampleISOString
    (quietEnv (Returned cancelledResult))
    [mkWorktree (js "fix-login") (js "/home/dev/project/.dmux/fix-login")
       (Some (js "2025-01-01T00:00:00.000Z")) (js "fix-login") false;
     mkWorktree (js "old") (js "/home/dev/project/.dmux/old") None
       (js "old") true]
    emptyHost.

(** *** Concrete menus and logs *)

(** The kebab menu delivers an action, and the debug log throws. *)
Definition logFailure : Exn := mkExn (Some (js "log file busy")).

Definition kebabLosesAction : Outcome (option jsstring) * Host :=
  launchKebabMenuPopup sampleConfig
    (quietEnv (Payload := unit) (Returned (successResult (js "close"))))
    (js "fix-login") (Returned [js "close"; js "merge"]) (λ _, js "[]")
    (λ _ _, throw logFailure) (λ _ _, ret tt) emptyHost.

(** The logs popup asks to clear the logs. *)
Definition logsAreCleared : Outcome unit * Host :=
  launchLogsPopup sampleConfig
    (quietEnv (Returned (successResult (mkLogsAnswer (Some true)))))
    (Returned (js "{logs:[]}")) (ret tt) (ret tt) emptyHost.

(** The same environment with another answer of
    [TmuxService.getAllDimensions]. *)
Definition withAllDimensions {T Payload Positioning}
    (dims : Outcome Dimensions) (env : @Env T Payload Positioning)
    : @Env T Payload Positioning :=
  mkEnv (dirname env) (path_resolve env) (path_join env) (path_basename env)
        (dateNow env) (jsonStringify env) (writeFileError env)
        (failedWriteLeaves env) (unlinkError env)
        dims (positioningLarge env)
        (positioningCentered env) (positioningStandard env)
        (launchNodePopupNonBlocking env) (meanwhile env)
        (INPUT_IGNORE_DELAY env).
End Launcher.

(** * Properties *)

Import Mention.

(** ** Properties of the string primitives *)

Lemma len_nonneg {A} (l : list A) : 0 ≤ len l.
Proof. unfold len. lia. Qed.

Lemma len_app {A} (l k : list A) : len (l ++ k) = len l + len k.
Proof. unfold len. rewrite length_app. lia. Qed.

Lemma len_nil_iff {A} (l : list A) : (len l >? 0) = false ↔ l = [].
Proof.
  unfold len. rewrite Z.gtb_ltb, Z.ltb_ge.
  destruct l as [|x l]; simpl; split; (done || lia).
Qed.

Lemma slice_from (s : jsstring) (i : Z) :
  0 ≤ i → slice s i None = drop (Z.to_nat i) s.
Proof.
  intros Hi. unfold slice, clampIndex, len.
  destruct (Z.ltb_spec i 0) as [?|_]; [lia|].
  destruct (Z.le_gt_cases i (Z.of_nat (length s))) as [Hle|Hgt].
  - rewrite Z.min_l by lia. apply take_ge. rewrite length_drop. lia.
  - rewrite Z.min_r by lia. rewrite !drop_ge by lia. apply take_nil.
Qed.

Lemma slice_to (s : jsstring) (i : Z) :
  0 ≤ i → slice s 0 (Some i) = take (Z.to_nat i) s.
Proof.
  intros Hi. unfold slice, clampIndex, len. simpl.
  destruct (Z.ltb_spec i 0) as [?|_]; [lia|].
  rewrite (Z.min_l 0) by lia. rewrite Z.sub_0_r, Z2Nat.inj_0, drop_0.
  destruct (Z.le_gt_cases i (Z.of_nat (length s))) as [Hle|Hgt].
  - rewrite Z.min_l by lia. reflexivity.
  - rewrite Z.min_r by lia. rewrite Nat2Z.id.
    rewrite !take_ge by lia. reflexivity.
Qed.

Lemma nonSpaceRun_maximal (s : jsstring) : maximalRun s (nonSpaceRun s).
Proof.
  induction s as [|c s IH]; simpl.
  - exists []. split_and!; [done | constructor | done].
  - destruct (isWhiteSpace c) eqn:Hc.
    + exists (c :: s). split_and!; [done | constructor | done].
    + destruct IH as (rest & Heq & Hall & Hrest).
      exists rest. split_and!; [simpl; congruence | by constructor | done].
Qed.

Lemma maximalRun_unique (s run : jsstring) :
  maximalRun s run → run = nonSpaceRun s.
Proof.
  intros (rest & -> & Hall & Hrest).
  induction Hall as [|c run Hc _ IH]; simpl.
  - destruct rest as [|c rest]; simpl; [done|]. by rewrite Hrest.
  - rewrite Hc. by f_equal.
Qed.

Lemma scanAt_spec (p : jsstring) (n : nat) :
  (scanAt p n = -1 ∧ ∀ i : nat, (i < n)%nat → p !! i ≠ Some AT)
  ∨ (∃ a : nat, scanAt p n = Z.of_nat a ∧ (a < n)%nat ∧ p !! a = Some AT
       ∧ ∀ j : nat, (a < j < n)%nat → p !! j ≠ Some AT).
Proof.
  induction n as [|n IH]; simpl.
  - left. split; [done | intros; lia].
  - destruct (decide (p !! n = Some AT)) as [Hat|Hno].
    + right. exists n. split_and!; [done | lia | done | intros; lia].
    + destruct IH as [[Hnone Hall]|(a & Ha & Hlt & Hat & Hbetween)].
      * left. split; [done|]. intros i Hi.
        destruct (decide (i = n)) as [->|]; [done | apply Hall; lia].
      * right. exists a. split_and!; [done | lia | done |].
        intros j Hj. destruct (decide (j = n)) as [->|]; [done|].
        apply Hbetween. lia.
Qed.

Lemma charAt_nat (s : jsstring) (i : nat) : charAt s (Z.of_nat i) = s !! i.
Proof.
  unfold charAt. destruct (Z.ltb_spec (Z.of_nat i) 0); [lia|].
  by rewrite Nat2Z.id.
Qed.

Lemma scanAt_noAtBefore (text : jsstring) (cursorIndex : Z) :
  noAtBefore text cursorIndex → scanAt text (Z.to_nat cursorIndex) = -1.
Proof.
  intros Hno.
  destruct (scanAt_spec text (Z.to_nat cursorIndex))
    as [[H _]|(a & _ & Hlt & Hat & _)]; [done|].
  destruct (Hno (Z.of_nat a)); [lia|]. by rewrite charAt_nat.
Qed.

Lemma scanAt_nearestAt (text : jsstring) (cursorIndex anchorIndex : Z) :
  nearestAt text cursorIndex anchorIndex →
  scanAt text (Z.to_nat cursorIndex) = anchorIndex.
Proof.
  intros (Hrange & Hanchor & Hnearest).
  destruct (scanAt_spec text (Z.to_nat cursorIndex))
    as [[_ Hall]|(a & Ha & Hlt & Hat & Hbetween)].
  - destruct (Hall (Z.to_nat anchorIndex)); [lia|].
    rewrite <- charAt_nat, Z2Nat.id by lia. done.
  - rewrite Ha.
    destruct (Z.lt_trichotomy (Z.of_nat a) anchorIndex) as [Hlt'|[Heq|Hgt]];
      [|done|].
    + destruct (Hbetween (Z.to_nat anchorIndex)); [lia|].
      rewrite <- charAt_nat, Z2Nat.id by lia. done.
    + destruct (Hnearest (Z.of_nat a)); [lia|]. by rewrite charAt_nat.
Qed.

(** ** The detection effect *)

Lemma detectMention_no_anchor scan fuzzy (st : AppState) :
  scanAt (prompt st) (Z.to_nat (currentCursor st)) = -1 →
  detectMention scan fuzzy st = hideFileList st.
Proof. intros H. unfold detectMention. by rewrite H. Qed.

(** With an anchor, only the comparison of the cursor with the end of the
    query decides: the inner test for a completed reference asks for a cursor
    beyond the space, which the enclosing test has excluded. *)
Lemma detectMention_anchor scan fuzzy (st : AppState) (a : Z) :
  scanAt (prompt st) (Z.to_nat (currentCursor st)) = a →
  0 ≤ a < currentCursor st →
  detectMention scan fuzzy st =
    let query := nonSpaceRun (drop (Z.to_nat (a + 1)) (prompt st)) in
    if currentCursor st <=? a + 1 + len query
    then showFileList scan fuzzy query a st
    else hideFileList st.
Proof.
  intros H Ha. unfold detectMention. rewrite H.
  destruct (Z.eqb_spec a (-1)) as [?|_]; [lia|]. simpl.
  rewrite slice_from by lia.
  destruct (Z.geb_spec (currentCursor st) a) as [_|?]; [|lia]. simpl.
  destruct (Z.leb_spec (currentCursor st)
              (a + 1 + len (nonSpaceRun (drop (Z.to_nat (a + 1)) (prompt st)))))
    as [Hin|Hout]; [|done].
  destruct (Z.gtb_spec (currentCursor st)
              (a + 1 + len (nonSpaceRun (drop (Z.to_nat (a + 1)) (prompt st)))))
    as [?|_]; [lia|].
  by rewrite andb_false_r.
Qed.

Lemma showFileList_found scan fuzzy files matches query a (st : AppState) :
  scan = Some files → fuzzy query files = Some matches →
  showFileList scan fuzzy query a st =
    mkApp (prompt st) true matches 0 a (cursorPosition st) (currentCursor st).
Proof. intros -> Hm. unfold showFileList. simpl. by rewrite Hm. Qed.

(** C3. Mention detection over (text, cursorIndex), for a file index that
    answers (its scan and its fuzzy match return): without an ['@'] before
    the cursor the list is inactive; with the nearest ['@'] at [anchorIndex]
    and [query] the maximal non-whitespace run after it, the list is active
    exactly when [cursorIndex <= anchorIndex + 1 + query.length], and then
    the anchor is recorded, the candidates are the matches of [query] and
    the selection is 0. In particular ["fix @BU"] with cursor 7 is active
    with anchor 4 and query ["BU"]; ["fix @BUG.md rest"] is inactive with
    cursor 13 and active with cursor 11. *)
Theorem mention_detection scan fuzzy files (st : AppState) :
  scan = Some files →
  (∀ q, is_Some (fuzzy q files)) →
  let st' := detectMention scan fuzzy st in
  (noAtBefore (prompt st) (currentCursor st) → isFileListActive st' = false)
  ∧ (∀ anchorIndex query,
       nearestAt (prompt st) (currentCursor st) anchorIndex →
       queryAt (prompt st) anchorIndex query →
       let endOfQuery := anchorIndex + 1 + len query in
       (isFileListActive st' = true ↔ currentCursor st ≤ endOfQuery)
       ∧ (currentCursor st ≤ endOfQuery →
          atPosition st' = anchorIndex
          ∧ fuzzy query files = Some (filteredFiles st')
          ∧ selectedFileIndex st' = 0))
  ∧ (prompt st = js "fix @BU" → currentCursor st = 7 →
     isFileListActive st' = true ∧ atPosition st' = 4
     ∧ fuzzy (js "BU") files = Some (filteredFiles st'))
  ∧ (prompt st = js "fix @BUG.md rest" → currentCursor st = 13 →
     isFileListActive st' = false)
  ∧ (prompt st = js "fix @BUG.md rest" → currentCursor st = 11 →
     isFileListActive st' = true).
Proof.
  intros Hscan Hfuzzy st'.
  assert (Hgeneral : ∀ anchorIndex query,
       nearestAt (prompt st) (currentCursor st) anchorIndex →
       queryAt (prompt st) anchorIndex query →
       (isFileListActive st' = true
        ↔ currentCursor st ≤ anchorIndex + 1 + len query)
       ∧ (currentCursor st ≤ anchorIndex + 1 + len query →
          atPosition st' = anchorIndex
          ∧ fuzzy query files = Some (filteredFiles st')
          ∧ selectedFileIndex st' = 0)).
  { intros a query Hnear Hquery.
    pose proof Hnear as (Hrange & _).
    apply scanAt_nearestAt in Hnear. apply maximalRun_unique in Hquery.
    subst st'. rewrite (detectMention_anchor _ _ _ a) by done.
    cbv zeta. rewrite <- Hquery.
    destruct (Z.leb_spec (currentCursor st) (a + 1 + len query)) as [Hin|Hout].
    - destruct (Hfuzzy query) as [matches Hm].
      rewrite (showFileList_found _ _ files matches) by done. simpl.
      by split_and!.
    - simpl. split; [|intros; lia]. split; [done | lia]. }
  split_and!.
  - intros Hno. subst st'.
    rewrite detectMention_no_anchor by by apply scanAt_noAtBefore. done.
  - exact Hgeneral.
  - intros Hp Hc.
    destruct (Hgeneral 4 (js "BU")) as [Hiff Hthen].
    + rewrite Hp, Hc. split_and!; [lia | lia | done |]. intros j Hj.
      assert (j = 5 ∨ j = 6) as [->| ->] by lia; done.
    + rewrite Hp. exists []. split_and!; [done | | done].
      repeat constructor.
    + rewrite Hc in *. change (len (js "BU")) with 2 in *.
      destruct Hthen as (? & ? & ?); [lia|]. split_and!; [|done..].
      apply Hiff. lia.
  - intros Hp Hc.
    destruct (Hgeneral 4 (js "BUG.md")) as [Hiff _].
    + rewrite Hp, Hc. split_and!; [lia | lia | done |]. intros j Hj.
      assert (j = 5 ∨ j = 6 ∨ j = 7 ∨ j = 8 ∨ j = 9 ∨ j = 10 ∨ j = 11
              ∨ j = 12) as Hcases by lia.
      destruct_or!; subst j; done.
    + rewrite Hp. exists (js " rest"). split_and!; [done | | done].
      repeat constructor.
    + rewrite Hc in *. change (len (js "BUG.md")) with 6 in *.
      destruct (isFileListActive st'); [|done].
      assert (13 ≤ 4 + 1 + 6) by by apply Hiff. lia.
  - intros Hp Hc.
    destruct (Hgeneral 4 (js "BUG.md")) as [Hiff _].
    + rewrite Hp, Hc. split_and!; [lia | lia | done |]. intros j Hj.
      assert (j = 5 ∨ j = 6 ∨ j = 7 ∨ j = 8 ∨ j = 9 ∨ j = 10) as Hcases
        by lia.
      destruct_or!; subst j; done.
    + rewrite Hp. exists (js " rest"). split_and!; [done | | done].
      repeat constructor.
    + rewrite Hc in *. change (len (js "BUG.md")) with 6 in *.
      apply Hiff. lia.
Qed.

(** When the file index throws, the list stays hidden and empty. *)
Lemma detectMention_index_failure scan fuzzy (st : AppState) :
  (∀ q, scan ≫= fuzzy q = None) →
  isFileListActive (detectMention scan fuzzy st) = false
  ∧ filteredFiles (detectMention scan fuzzy st) = [].
Proof.
  intros Hfail.
  destruct (scanAt_spec (prompt st) (Z.to_nat (currentCursor st)))
    as [[Hnone _]|(a & Ha & Hlt & _)].
  - by rewrite detectMention_no_anchor.
  - rewrite (detectMention_anchor _ _ _ (Z.of_nat a)) by (done || lia).
    cbv zeta. case_match; [|done]. unfold showFileList. by rewrite Hfail.
Qed.

(** An active list has its anchor on an ['@'] of the text and its selection
    at 0. *)
Lemma detectMention_active scan fuzzy (st : AppState) :
  isFileListActive (detectMention scan fuzzy st) = true →
  0 ≤ atPosition (detectMention scan fuzzy st)
  ∧ charAt (prompt st) (atPosition (detectMention scan fuzzy st)) = Some AT
  ∧ prompt (detectMention scan fuzzy st) = prompt st
  ∧ selectedFileIndex (detectMention scan fuzzy st) = 0.
Proof.
  destruct (scanAt_spec (prompt st) (Z.to_nat (currentCursor st)))
    as [[Hnone _]|(a & Ha & Hlt & Hat & _)].
  - by rewrite detectMention_no_anchor.
  - rewrite (detectMention_anchor _ _ _ (Z.of_nat a)) by (done || lia).
    cbv zeta. case_match; [|done]. unfold showFileList.
    destruct (scan ≫= fuzzy _); [|done]. simpl. intros _.
    rewrite charAt_nat. split_and!; (done || lia).
Qed.

Lemma mention_detection_witness :
  isFileListActive (typed (js "fix @BU") 7) = true
  ∧ atPosition (typed (js "fix @BU") 7) = 4.
Proof.
  destruct (mention_detection (Some sampleFiles) sampleMatch sampleFiles
              (setCurrentCursor 7 (setPrompt (js "fix @BU") initialState))
              eq_refl (λ q, ex_intro _ _ eq_refl))
    as (_ & _ & Hexample & _).
  destruct (Hexample eq_refl eq_refl) as (Hactive & Hanchor & _).
  exact (conj Hactive Hanchor).
Defined.

(** ** Navigation *)

Lemma afterRender_same scan fuzzy (st st' : AppState) :
  prompt st = prompt st' → currentCursor st = currentCursor st' →
  afterRender scan fuzzy st st' = st'.
Proof. intros Hp Hc. unfold afterRender. by rewrite decide_True. Qed.

Lemma keypress_up scan fuzzy (st : AppState) :
  isFileListActive st = true →
  keypress scan fuzzy upKey st =
    setSelectedFileIndex (Z.max 0 (selectedFileIndex st - 1)) st.
Proof.
  intros Hact. unfold keypress, useInputHandler. simpl. rewrite Hact. simpl.
  by apply afterRender_same.
Qed.

Lemma keypress_down scan fuzzy (st : AppState) :
  isFileListActive st = true →
  keypress scan fuzzy downKey st =
    setSelectedFileIndex
      (Z.min (len (filteredFiles st) - 1) (selectedFileIndex st + 1)) st.
Proof.
  intros Hact. unfold keypress, useInputHandler. simpl. rewrite Hact. simpl.
  by apply afterRender_same.
Qed.

Lemma setSelectedFileIndex_id (st : AppState) :
  setSelectedFileIndex (selectedFileIndex st) st = st.
Proof. by destruct st. Qed.

(** One arrow key moves only the selection, and keeps it in range. *)
Lemma keypress_nav scan fuzzy (d : Nav) (st : AppState) :
  isFileListActive st = true →
  0 ≤ selectedFileIndex st ≤ len (filteredFiles st) - 1 →
  ∃ i, keypress scan fuzzy (navKey d) st = setSelectedFileIndex i st
       ∧ 0 ≤ i ≤ len (filteredFiles st) - 1.
Proof.
  intros Hact Hrange. destruct d; simpl.
  - rewrite keypress_up by done. eexists. split; [done | lia].
  - rewrite keypress_down by done. eexists. split; [done | lia].
Qed.

Lemma navigate_selection scan fuzzy (ds : list Nav) (st : AppState) :
  isFileListActive st = true →
  0 ≤ selectedFileIndex st ≤ len (filteredFiles st) - 1 →
  ∃ i, navigate scan fuzzy ds st = setSelectedFileIndex i st
       ∧ 0 ≤ i ≤ len (filteredFiles st) - 1.
Proof.
  revert st. induction ds as [|d ds IH]; intros st Hact Hrange.
  - exists (selectedFileIndex st). by rewrite setSelectedFileIndex_id.
  - destruct (keypress_nav scan fuzzy d st) as (i & Hstep & Hi); [done..|].
    destruct (IH (setSelectedFileIndex i st)) as (k & Hrest & Hk); [done..|].
    exists k. unfold navigate in *. simpl. rewrite Hstep, Hrest. done.
Qed.

(** C6. While the candidate list is active, a selection inside
    [[0, candidates.length - 1]] stays inside it under every sequence of
    up and down keys, and nothing but the selection changes; down at the
    last index and up at index 0 leave the state as it is, however often
    they are repeated. *)
Theorem navigation_stays_in_range scan fuzzy (ds : list Nav) (st : AppState) :
  isFileListActive st = true →
  0 ≤ selectedFileIndex st ≤ len (filteredFiles st) - 1 →
  let st' := navigate scan fuzzy ds st in
  0 ≤ selectedFileIndex st' ≤ len (filteredFiles st') - 1
  ∧ st' = setSelectedFileIndex (selectedFileIndex st') st
  ∧ (selectedFileIndex st = len (filteredFiles st) - 1 →
     ∀ n, navigate scan fuzzy (replicate n Down) st = st)
  ∧ (selectedFileIndex st = 0 →
     ∀ n, navigate scan fuzzy (replicate n Up) st = st).
Proof.
  intros Hact Hrange st'.
  destruct (navigate_selection scan fuzzy ds st) as (i & Hnav & Hi);
    [done..|].
  subst st'. rewrite Hnav. simpl.
  split; [done|]. split; [done|]. split.
  - intros Hlast n.
    assert (keypress scan fuzzy downKey st = st) as Hstep.
    { rewrite keypress_down by done. rewrite Z.min_l by lia.
      rewrite <- Hlast. apply setSelectedFileIndex_id. }
    induction n as [|n IH]; [done|].
    unfold navigate in *. simpl. by rewrite Hstep.
  - intros Hfirst n.
    assert (keypress scan fuzzy upKey st = st) as Hstep.
    { rewrite keypress_up by done. rewrite Z.max_l by lia.
      rewrite <- Hfirst. apply setSelectedFileIndex_id. }
    induction n as [|n IH]; [done|].
    unfold navigate in *. simpl. by rewrite Hstep.
Qed.

Lemma navigation_stays_in_range_witness :
  0 ≤ selectedFileIndex
        (navigate (Some sampleFiles) sampleMatch [Down; Down; Up; Down]
           (typed (js "@m") 2))
    ≤ len (filteredFiles
             (navigate (Some sampleFiles) sampleMatch [Down; Down; Up; Down]
                (typed (js "@m") 2))) - 1.
Proof.
  apply (navigation_stays_in_range (Some sampleFiles) sampleMatch
           [Down; Down; Up; Down] (typed (js "@m") 2)).
  - reflexivity.
  - vm_compute. split; discriminate.
Defined.

(** With no candidate the interval is empty and the arithmetic of the down
    key yields [-1]. *)
Lemma navigation_without_candidates :
  selectedFileIndex
    (navigate (Some sampleFiles) sampleMatch [Down] (typed (js "@zzz") 4))
  = -1.
Proof. reflexivity. Qed.

(** ** Insertion *)

(** C4, as the code has it. For the text ["see @re"] with the cursor at 7,
    the candidates [["readme.md"]] and the selection 0, the accept gesture
    (tab or return) yields the text ["see @readme.md "], with the trailing
    space inserted, and proposes the cursor index 14, the end of the
    inserted reference. *)
Theorem insertion_example :
  prompt seeRe = js "see @re" ∧ currentCursor seeRe = 7
  ∧ isFileListActive seeRe = true ∧ filteredFiles seeRe = [js "readme.md"]
  ∧ selectedFileIndex seeRe = 0
  ∧ prompt (useInputHandler tabKey seeRe) = js "see @readme.md "
  ∧ cursorPosition (useInputHandler tabKey seeRe) = Some 14
  ∧ useInputHandler returnKey seeRe = useInputHandler tabKey seeRe.
Proof. by split_and!. Qed.

(** C4, as stated: the proposed cursor index is not 16 (the new text is only
    15 code units long). *)
Lemma insertion_example_cursor_not_16 :
  ¬ (prompt (useInputHandler tabKey seeRe) = js "see @readme.md "
     ∧ cursorPosition (useInputHandler tabKey seeRe) = Some 16).
Proof. intros [_ H]. discriminate H. Qed.

Lemma itemAt_Some (l : list jsstring) (i : Z) (x : jsstring) :
  itemAt l i = Some x → 0 ≤ i < len l.
Proof.
  unfold itemAt, len. destruct (Z.ltb_spec i 0); [done|].
  intros Hl%lookup_lt_Some. lia.
Qed.

(** The match of the [@token] pattern on [text.slice(anchorIndex)] has the
    length [tokenLength]. *)
Lemma matchAtToken_length (text : jsstring) (anchorIndex : Z) :
  0 ≤ anchorIndex →
  match matchAtToken (drop (Z.to_nat anchorIndex) text) with
  | Some m => len m
  | None => 1
  end = tokenLength text anchorIndex.
Proof.
  intros Ha. unfold tokenLength, charAt.
  destruct (Z.ltb_spec anchorIndex 0); [lia|].
  replace (Z.to_nat (anchorIndex + 1)) with (S (Z.to_nat anchorIndex)) by lia.
  destruct (text !! Z.to_nat anchorIndex) as [c|] eqn:Hc.
  - rewrite (drop_S _ _ _ Hc). simpl.
    destruct (N.eqb_spec c AT) as [->|Hne].
    + rewrite decide_True by done. unfold len. simpl. lia.
    + rewrite decide_False by congruence. done.
  - rewrite drop_ge by by apply lookup_ge_None.
    rewrite decide_False by done. done.
Qed.

(** What the accept gesture does to an active list, for either key. *)
Lemma acceptSelection_spec (st : AppState) (candidate : jsstring) :
  0 ≤ atPosition st →
  itemAt (filteredFiles st) (selectedFileIndex st) = Some candidate →
  acceptSelection st =
    let before := take (Z.to_nat (atPosition st)) (prompt st) in
    let rest := restAfterToken (prompt st) (atPosition st) in
    mkApp (before ++ AT :: candidate
             ++ (if startsWith rest [SPACE] then [] else [SPACE]) ++ rest)
          false [] (selectedFileIndex st) (-1)
          (Some (len before + 1 + len candidate)) (currentCursor st).
Proof.
  intros Ha Hitem. pose proof (itemAt_Some _ _ _ Hitem) as Hsel.
  unfold acceptSelection. rewrite Hitem.
  destruct (Z.gtb_spec (len (filteredFiles st)) 0); [|lia].
  destruct (Z.ltb_spec (selectedFileIndex st) (len (filteredFiles st)));
    [|lia].
  simpl. rewrite slice_to by done. rewrite (slice_from _ (atPosition st)) by done.
  rewrite matchAtToken_length by done.
  rewrite slice_from by (unfold tokenLength; case_decide; pose proof (len_nonneg
    (nonSpaceRun (drop (Z.to_nat (atPosition st + 1)) (prompt st)))); lia).
  unfold restAfterToken, setAtPosition, setFilteredFiles, setIsFileListActive,
    setCursorPosition, setPrompt. simpl.
  do 2 f_equal. unfold len. rewrite length_cons. lia.
Qed.

(** C5, as the code has it. For an active list whose selection names the
    candidate [candidates[selectedIndex]], with the anchor the detection
    recorded, the accept gesture (tab or return) yields the text
    [before + "@" + candidate + separator + rest], where
    [before = text[0:anchorIndex]], [rest] is [text[anchorIndex:]] without
    the leading [@token] run ([1 + query.length] code units for the maximal
    non-whitespace run [query] after the ['@'], or 1 when no ['@'] stands at
    the anchor), and [separator] is empty when [rest] begins with the space
    character and a single space otherwise, also when [rest] begins with
    other whitespace; the proposed cursor index is
    [before.length + 1 + candidate.length]; the handler leaves the list
    inactive and the candidates empty. *)
Theorem insertion_rule (key : Key) (st : AppState) (candidate : jsstring) :
  key = tabKey ∨ key = returnKey →
  isFileListActive st = true →
  0 ≤ atPosition st →
  itemAt (filteredFiles st) (selectedFileIndex st) = Some candidate →
  let st' := useInputHandler key st in
  let before := take (Z.to_nat (atPosition st)) (prompt st) in
  let rest := restAfterToken (prompt st) (atPosition st) in
  let separator := if startsWith rest [SPACE] then [] else [SPACE] in
  prompt st' = before ++ AT :: candidate ++ separator ++ rest
  ∧ cursorPosition st' = Some (len before + 1 + len candidate)
  ∧ isFileListActive st' = false
  ∧ filteredFiles st' = []
  ∧ (∀ query, charAt (prompt st) (atPosition st) = Some AT →
       queryAt (prompt st) (atPosition st) query →
       tokenLength (prompt st) (atPosition st) = 1 + len query)
  ∧ (charAt (prompt st) (atPosition st) ≠ Some AT →
       tokenLength (prompt st) (atPosition st) = 1).
Proof.
  intros Hkey Hact Hanchor Hitem st' before rest separator.
  assert (st' = acceptSelection st) as ->.
  { subst st'. unfold useInputHandler.
    destruct Hkey as [-> | ->]; simpl; by rewrite Hact. }
  rewrite (acceptSelection_spec st candidate) by done. simpl.
  split_and!; try done.
  - intros query Hat Hquery. apply maximalRun_unique in Hquery.
    unfold tokenLength. rewrite decide_True by done. by rewrite Hquery.
  - intros Hat. unfold tokenLength. by rewrite decide_False.
Qed.

Lemma insertion_rule_witness :
  prompt (useInputHandler tabKey seeReTab)
  = js "see " ++ AT :: js "readme.md" ++ [SPACE] ++ [9%N] ++ js "x".
Proof.
  destruct (insertion_rule tabKey seeReTab (js "readme.md")) as [H _].
  - by left.
  - reflexivity.
  - vm_compute. discriminate.
  - reflexivity.
  - exact H.
Defined.

(** C5, as stated: before a tab character the code inserts a space, where
    the stated rule inserts nothing because the rest begins with
    whitespace. *)
Lemma insertion_rule_separator_counterexample :
  isFileListActive seeReTab = true
  ∧ itemAt (filteredFiles seeReTab) (selectedFileIndex seeReTab)
    = Some (js "readme.md")
  ∧ prompt (useInputHandler tabKey seeReTab)
    ≠ insertionAsStated (prompt seeReTab) (atPosition seeReTab)
        (js "readme.md").
Proof. split_and!; [done | done | discriminate]. Qed.

(** ** Progressive cancel *)

Lemma scanAt_nil (n : nat) : scanAt [] n = -1.
Proof.
  induction n as [|n IH]; [done|]. cbn [scanAt].
  by rewrite decide_False.
Qed.

Lemma detectMention_empty scan fuzzy (st : AppState) :
  prompt st = [] → detectMention scan fuzzy st = hideFileList st.
Proof.
  intros Hp. apply detectMention_no_anchor. rewrite Hp. apply scanAt_nil.
Qed.

Lemma keypress_escape_active scan fuzzy (st : AppState) :
  isFileListActive st = true →
  keypress scan fuzzy escapeKey st = hideFileList st.
Proof.
  intros Hact. unfold keypress, useInputHandler. simpl. rewrite Hact.
  by apply afterRender_same.
Qed.

Lemma keypress_escape_text scan fuzzy (st : AppState) :
  isFileListActive st = false → prompt st ≠ [] →
  keypress scan fuzzy escapeKey st = hideFileList (setPrompt [] st).
Proof.
  intros Hact Htext. unfold keypress, useInputHandler. simpl. rewrite Hact.
  destruct (len (prompt st) >? 0) eqn:Hlen.
  - unfold afterRender. rewrite decide_False by (simpl; intros [? _]; done).
    by apply detectMention_empty.
  - by apply len_nil_iff in Hlen.
Qed.

Lemma keypress_escape_idle scan fuzzy (st : AppState) :
  isFileListActive st = false → prompt st = [] →
  keypress scan fuzzy escapeKey st = st.
Proof.
  intros Hact Htext. unfold keypress, useInputHandler. simpl.
  rewrite Hact, Htext. simpl. by apply afterRender_same.
Qed.

Lemma shouldAllowCancel_iff (st : AppState) :
  shouldAllowCancel st = true ↔ isFileListActive st = false ∧ prompt st = [].
Proof.
  unfold shouldAllowCancel. destruct (isFileListActive st).
  - split; [done | by intros [? _]].
  - rewrite <- len_nil_iff. destruct (len (prompt st) >? 0); split; try done.
    by intros [_ ?].
Qed.

(** C7. A cancel gesture may close the session exactly when the list is
    inactive and the text is empty. Otherwise the gesture is intercepted:
    with an active list it only deactivates the mention state and leaves the
    text as it is; else, with a non-empty text, it only clears the text.
    From an active list over a non-empty text, the first gesture dismisses
    the suggestions, the second clears the text, and the third is the first
    that closes the session. *)
Theorem progressive_cancel scan fuzzy :
  (∀ st, shouldAllowCancel st = true
         ↔ isFileListActive st = false ∧ prompt st = [])
  ∧ (∀ st, isFileListActive st = true →
       keypress scan fuzzy escapeKey st = hideFileList st
       ∧ prompt (hideFileList st) = prompt st
       ∧ isFileListActive (hideFileList st) = false)
  ∧ (∀ st, isFileListActive st = false → prompt st ≠ [] →
       let st' := keypress scan fuzzy escapeKey st in
       prompt st' = [] ∧ isFileListActive st' = false
       ∧ currentCursor st' = currentCursor st)
  ∧ (∀ st, isFileListActive st = false → prompt st = [] →
       keypress scan fuzzy escapeKey st = st)
  ∧ (∀ st, isFileListActive st = true → prompt st ≠ [] →
       let s1 := cancelGesture scan fuzzy (mkSession st false) in
       let s2 := cancelGesture scan fuzzy s1 in
       let s3 := cancelGesture scan fuzzy s2 in
       (closed s1 = false ∧ isFileListActive (app s1) = false
        ∧ prompt (app s1) = prompt st)
       ∧ (closed s2 = false ∧ isFileListActive (app s2) = false
          ∧ prompt (app s2) = [])
       ∧ (shouldAllowCancel (app s2) = true ∧ closed s3 = true
          ∧ app s3 = app s2)).
Proof.
  split; [exact shouldAllowCancel_iff|].
  split; [intros st Hact; by rewrite keypress_escape_active|].
  split; [intros st Hact Htext; cbv zeta;
          rewrite keypress_escape_text by done; simpl; auto|].
  split; [intros st Hact Htext; by apply keypress_escape_idle|].
  intros st Hact Htext. cbv zeta.
  assert (cancelGesture scan fuzzy (mkSession st false)
          = mkSession (hideFileList st) false) as ->.
  { unfold cancelGesture, popupWrapperCloses, shouldAllowCancel. simpl.
    by rewrite keypress_escape_active, Hact. }
  assert (cancelGesture scan fuzzy (mkSession (hideFileList st) false)
          = mkSession (hideFileList (setPrompt [] (hideFileList st))) false)
    as ->.
  { unfold cancelGesture, popupWrapperCloses, shouldAllowCancel. simpl.
    rewrite keypress_escape_text by done.
    destruct (len (prompt st) >? 0) eqn:Hlen; [done|].
    by apply len_nil_iff in Hlen. }
  assert (cancelGesture scan fuzzy
            (mkSession (hideFileList (setPrompt [] (hideFileList st))) false)
          = mkSession (hideFileList (setPrompt [] (hideFileList st))) true)
    as ->.
  { unfold cancelGesture. simpl. by rewrite keypress_escape_idle. }
  simpl. by split_and!.
Qed.

Lemma progressive_cancel_witness :
  closed (cancelGesture (Some sampleFiles) sampleMatch
            (cancelGesture (Some sampleFiles) sampleMatch
               (cancelGesture (Some sampleFiles) sampleMatch
                  (mkSession seeRe false)))) = true.
Proof.
  destruct (progressive_cancel (Some sampleFiles) sampleMatch)
    as (_ & _ & _ & _ & Hthree).
  apply (Hthree seeRe); [reflexivity | discriminate].
Defined.

(** ** The launcher *)

Import Launcher.

Arguments tempFileName : simpl never.

Section LauncherProperties.

Context {T Payload Positioning : Type}.
Implicit Types (env : @Env T Payload Positioning) (h : Host).

Lemma withUnlinkError_same env : withUnlinkError (unlinkError env) env = env.
Proof. by destruct env. Qed.

Lemma nonEmpty_tempFileName (scriptName : jsstring) (now : N) :
  nonEmpty (Some (tempFileName scriptName now)) = true.
Proof. reflexivity. Qed.

(** The quiet removal logs one call, touches nothing but the files, and
    leaves no file at [path] unless [fs.unlink] fails for a reason of its
    own. *)
Lemma unlinkQuietly_fsCalls env path h :
  fsCalls (unlinkQuietly env path h) = fsCalls h ++ [Unlink path].
Proof.
  unfold unlinkQuietly, tryCatch, fs_unlink. simpl.
  destruct (unlinkError env); [done|]. by destruct (files h !! path).
Qed.

Lemma unlinkQuietly_callbacks env path h :
  statusMessages (unlinkQuietly env path h) = statusMessages h
  ∧ ignoreInput (unlinkQuietly env path h) = ignoreInput h
  ∧ timers (unlinkQuietly env path h) = timers h.
Proof.
  unfold unlinkQuietly, tryCatch, fs_unlink. simpl.
  destruct (unlinkError env); [done|]. by destruct (files h !! path).
Qed.

Lemma unlinkQuietly_files env path h :
  unlinkError env = None → files (unlinkQuietly env path h) !! path = None.
Proof.
  intros Hok. unfold unlinkQuietly, tryCatch, fs_unlink. simpl. rewrite Hok.
  destruct (files h !! path) eqn:Hfile; simpl; [|done].
  apply lookup_delete_eq.
Qed.

(** Every path through [launchPopup] with a payload ends in the quiet
    removal of the channel file; what it returns or throws, and the host
    before the removal, do not depend on how [fs.unlink] answers. *)
Lemma launchPopup_payload env config scriptName args options
    (payload : Payload) h :
  ∃ out written fs,
    (written = []
     ∨ ∃ content,
         written = [WriteFile (tempFileName scriptName (dateNow env)) content])
    ∧ ∀ ue,
        launchPopup (withUnlinkError ue env) config scriptName args options
          (Some payload) h
        = (out,
           unlinkQuietly (withUnlinkError ue env)
             (tempFileName scriptName (dateNow env))
             (mkHost fs (fsCalls h ++ written) (statusMessages h)
                (ignoreInput h) (timers h))).
Proof.
  destruct h as [fs0 calls msgs ign tms].
  run_launcher.
  destruct (jsonStringify env payload) as [content|e]; simpl.
  2: { exists (Thrown e), [], fs0. split; [by left|]. intros ue.
       rewrite app_nil_r. by settle_unlink. }
  set (name := tempFileName scriptName (dateNow env)).
  destruct (writeFileError env) as [e|]; simpl.
  { destruct (failedWriteLeaves env) as [part|]; simpl.
    - exists (Thrown e), [WriteFile name content], (<[name:=part]> fs0).
      split; [right; by eexists|]. intros ue. by settle_unlink.
    - exists (Thrown e), [WriteFile name content], fs0.
      split; [right; by eexists|]. intros ue. by settle_unlink. }
  unfold getPositioning.
  destruct (positioning options) as [[| |]|]; simpl.
  3: destruct (getAllDimensions env) as [d|e]; simpl.
  all: try match goal with
           | |- context [launchNodePopupNonBlocking ?v ?p ?a ?o] =>
               destruct (launchNodePopupNonBlocking v p a o)
                 as [[[r|e]]|e]; simpl
           end.
  all: first
    [ by (eexists _, [WriteFile name content], (<[name:=content]> fs0);
          split; [right; by eexists|]; intros ue; settle_unlink)
    | by (eexists _, [WriteFile name content],
            (meanwhile env (<[name:=content]> fs0));
          split; [right; by eexists|]; intros ue; settle_unlink) ].
Qed.

(** [launchPopup] returns or throws what its steps decide; how [fs.unlink]
    answers plays no part. *)
Lemma launchPopup_outcome env config scriptName args options
    (tempData : option Payload) h :
  (launchPopup env config scriptName args options tempData h).1
  = launchOutcome env config scriptName args options tempData.
Proof.
  unfold launchOutcome, prepareArgs. run_launcher.
  destruct tempData as [payload|]; simpl.
  - destruct (jsonStringify env payload) as [content|e]; simpl.
    2: { by destruct (fs_unlink _ _ _) as [[[]|?] ?]. }
    destruct (writeFileError env) as [e|]; simpl.
    { destruct (failedWriteLeaves env) as [part|]; simpl;
        by destruct (fs_unlink _ _ _) as [[[]|?] ?]. }
    destruct (getPositioning env config options) as [pos|e]; simpl.
    2: { by destruct (fs_unlink _ _ _) as [[[]|?] ?]. }
    destruct (launchNodePopupNonBlocking _ _ _ _) as [[[r|e]]|e]; simpl.
    all: by destruct (fs_unlink _ _ _) as [[[]|?] ?].
  - destruct (getPositioning env config options) as [pos|e]; simpl; [|done].
    by destruct (launchNodePopupNonBlocking _ _ _ _) as [[[r|e]]|e].
Qed.

(** Without a payload [launchPopup] leaves the host as it found it, but for
    what happened to the files while it waited. *)
Lemma launchPopup_no_payload env config scriptName args options h :
  (launchPopup env config scriptName args options None h).2 = h
  ∨ (launchPopup env config scriptName args options None h).2
    = setFiles (meanwhile env (files h)) h.
Proof.
  run_launcher.
  destruct (getPositioning env config options) as [pos|e]; simpl;
    [|by left].
  destruct (launchNodePopupNonBlocking _ _ _ _) as [[[r|e]]|e]; simpl;
    [by right | by right | by left].
Qed.

(** C1. Every call of [launchPopup] with a payload ends, on every path, in
    one call of [fs.unlink] on the channel file it named, after the write
    (if the call got that far) and as its last file operation; unless
    [fs.unlink] itself fails, no file of that name is left when the call
    completes. A failing [fs.unlink] is swallowed: what the call returns or
    throws is the same for every answer of [fs.unlink], it is the settled
    result promise (whatever variant it carries) when every step before
    succeeded, and no notification is shown. *)
Theorem channel_file_removed_on_every_path env config scriptName args options
    (payload : Payload) h :
  let tempFile := tempFileName scriptName (dateNow env) in
  let run := launchPopup env config scriptName args options (Some payload) h in
  (∃ written,
     fsCalls run.2 = fsCalls h ++ written ++ [Unlink tempFile]
     ∧ (written = [] ∨ ∃ content, written = [WriteFile tempFile content]))
  ∧ (unlinkError env = None → files run.2 !! tempFile = None)
  ∧ (∀ ue,
       (launchPopup (withUnlinkError ue env) config scriptName args options
          (Some payload) h).1 = run.1)
  ∧ (∀ content positioning handle,
       jsonStringify env payload = Returned content →
       writeFileError env = None →
       getPositioning env config options = Returned positioning →
       spawnPopup env (getPopupScriptPath env scriptName) (tempFile :: args)
         options positioning = Returned handle →
       run.1 = resultPromise handle)
  ∧ (∀ e, run.1 = Thrown e →
       launchOutcome env config scriptName args options (Some payload)
       = Thrown e)
  ∧ statusMessages run.2 = statusMessages h
  ∧ ignoreInput run.2 = ignoreInput h
  ∧ timers run.2 = timers h.
Proof.
  intros tempFile run.
  destruct (launchPopup_payload env config scriptName args options payload h)
    as (out & written & fs & Hwritten & Hrun).
  assert (run = (out,
            unlinkQuietly env tempFile
              (mkHost fs (fsCalls h ++ written) (statusMessages h)
                 (ignoreInput h) (timers h)))) as Heq.
  { subst run. rewrite <- (withUnlinkError_same env) at 1.
    rewrite Hrun. by rewrite withUnlinkError_same. }
  pose proof (unlinkQuietly_callbacks env tempFile
                (mkHost fs (fsCalls h ++ written) (statusMessages h)
                   (ignoreInput h) (timers h)))
    as (Hstatus & Hignore & Htimers).
  split_and!.
  - exists written. rewrite Heq. simpl.
    rewrite unlinkQuietly_fsCalls. simpl. by rewrite <- app_assoc.
  - intros Hok. rewrite Heq. simpl. by apply unlinkQuietly_files.
  - intros ue. rewrite Hrun, Heq. done.
  - intros content positioning handle Hjson Hwrite Hpos Hspawn.
    unfold run. rewrite launchPopup_outcome. unfold tempFile in Hspawn.
    unfold launchOutcome, prepareArgs. by rewrite Hjson, Hwrite, Hpos, Hspawn.
  - intros e He. unfold run in He. by rewrite launchPopup_outcome in He.
  - rewrite Heq. exact Hstatus.
  - rewrite Heq. exact Hignore.
  - rewrite Heq. exact Htimers.
Qed.

End LauncherProperties.

Lemma channel_file_removed_on_every_path_witness :
  files firstConfirm.2
    !! tempFileName (js "confirmPopup.js") 1700000000000 = None
  ∧ files failedConfirm.2
      !! tempFileName (js "confirmPopup.js") 1700000000000 = None.
Proof.
  split.
  - exact (proj1 (proj2 (channel_file_removed_on_every_path
             (sampleEnv (Returned cancelledResult) None None 1700000000000)
             sampleConfig (js "confirmPopup.js") [] confirmOptions
             (js "{title:A}") emptyHost)) eq_refl).
  - exact (proj1 (proj2 (channel_file_removed_on_every_path
             (sampleEnv (Returned cancelledResult) (Some spawnFailure) None
                1700000000000)
             sampleConfig (js "confirmPopup.js") [] confirmOptions
             (js "{title:A}") emptyHost)) eq_refl).
Defined.

(** ** The classification of results *)

(** C2. [handleResult] on the three results of the specification:
    [{success: true, data: "x"}] without a success projector yields ["x"]
    and leaves the host alone; [{cancelled: true}] yields [null] and leaves
    the host alone, whatever the callbacks; [{error: "boom"}] without an
    error callback yields [null] after one status message
    ["Popup error: boom"] with its 3000 ms timer; with an error callback it
    yields [null] after one call of it on that text, and shows nothing
    itself. It is total: every result takes one of three courses, the data
    handed on (both [success] and [data] present), the error reported once
    (neither delivered nor cancelled, a non-empty [error]), or [null]
    without any effect (every other result). *)
Theorem handle_result_classification :
  (∀ onError h,
     handleResult (successResult (js "x")) None onError h
     = (Returned (Some (js "x")), h))
  ∧ (∀ (T : Type) onSuccess onError h,
       handleResult (@cancelledResult T) onSuccess onError h
       = (Returned None, h))
  ∧ (∀ (T : Type) onSuccess h,
       handleResult (@errorResult T (js "boom")) onSuccess None h
       = (Returned None,
          mkHost (files h) (fsCalls h)
            (statusMessages h ++ [js "Popup error: boom"]) (ignoreInput h)
            (timers h ++ [(3000, ClearStatusMessage)])))
  ∧ (∀ (T : Type) onSuccess onError h,
       handleResult (@errorResult T (js "boom")) onSuccess (Some onError) h
       = (exec onError (js "Popup error: boom"); ret None) h)
  ∧ (∀ (T : Type) (result : PopupResult T) onSuccess onError h,
       let run := handleResult result onSuccess onError h in
       let delivered :=
         truthy (success result) && bool_decide (is_Some (data result)) in
       (∀ d, truthy (success result) = true → data result = Some d →
          run = match onSuccess with
                | Some onSuccess => onSuccess d h
                | None => (Returned (Some d), h)
                end)
       ∧ (delivered = false → truthy (cancelled result) = true →
          run = (Returned None, h))
       ∧ (∀ msg, delivered = false → truthy (cancelled result) = false →
          error result = Some msg → msg ≠ [] →
          run = (exec match onError with
                      | Some onError => onError (js "Popup error: " ++ msg)
                      | None =>
                          showTempMessage (js "Popup error: " ++ msg) 3000
                      end;
                 ret None) h)
       ∧ (delivered = false → truthy (cancelled result) = false →
          nonEmpty (error result) = false →
          run = (Returned None, h))).
Proof.
  split_and!; try done.
  intros T [s d c e] onSuccess onError h run delivered.
  subst run delivered. unfold handleResult. simpl.
  split_and!.
  - intros d' -> ->. by destruct onSuccess.
  - intros Hnot ->.
    destruct (truthy s); [|done]. by destruct d.
  - intros msg Hnot -> -> Hmsg.
    destruct msg as [|m msg]; [done|].
    destruct (truthy s); [|done]. by destruct d.
  - intros Hnot -> ->.
    destruct (truthy s); [|done]. by destruct d.
Qed.

(** C10. A result that carries [success: true] and no [data] (and no error
    text) is neither handed on nor reported: [handleResult] yields [null]
    and the host is as before, whatever the two callbacks are, so neither
    was called and nothing was shown. *)
Theorem handle_result_success_without_data :
  ∀ (T : Type) (cancelled : option bool)
    (onSuccess : option (T → M Host (option T)))
    (onError : option (jsstring → M Host unit)) (h : Host),
    handleResult (mkResult (Some true) None cancelled None)
      onSuccess onError h = (Returned None, h)
    ∧ handleResult (mkResult (Some true) None cancelled (Some []))
        onSuccess onError h = (Returned None, h).
Proof.
  intros T c onSuccess onError h. unfold handleResult. simpl.
  by destruct (truthy c).
Qed.

(** When such a result also carries an error text, the error is reported. *)
Lemma handle_result_success_with_error (h : Host) :
  handleResult (T := jsstring)
    (mkResult (Some true) None None (Some (js "boom"))) None None h
  = (Returned None,
     setTimeout ClearStatusMessage 3000
       (setStatusMessage (js "Popup error: boom") h)).
Proof. reflexivity. Qed.

(** Without callbacks [handleResult] throws nothing. *)
Lemma handleResult_default_returns {T} (result : PopupResult T) (h : Host) :
  ∃ v h', handleResult result None None h = (Returned v, h').
Proof.
  destruct result as [s d c e]. unfold handleResult. simpl.
  destruct (truthy s), d, (truthy c), (nonEmpty e); by eexists _, _.
Qed.

(** ** Failures of a launch *)

Section Failures.

Context {Payload Positioning : Type}.
Implicit Types (env : @Env jsstring Payload Positioning) (h : Host).

(** The spawn of the new-pane popup. *)
Lemma launchNewPanePopup_spawn env config projectPath :
  launchOutcome env config (js "newPanePopup.js") (newPaneArgs projectPath)
    (newPaneOptions env config projectPath) None
  = match spawnPopup env (getPopupScriptPath env (js "newPanePopup.js"))
            (newPaneArgs projectPath) (newPaneOptions env config projectPath)
            (positioningCentered env (sidebarWidth config)) with
    | Thrown e => Thrown e
    | Returned handle => resultPromise handle
    end.
Proof. reflexivity. Qed.

(** [launchNewPanePopup] in terms of the run of [launchPopup] inside it. *)
Lemma launchNewPanePopup_run env config projectPath h :
  popupsSupported config = true →
  launchNewPanePopup env config projectPath h
  = match launchPopup env config (js "newPanePopup.js")
            (newPaneArgs projectPath) (newPaneOptions env config projectPath)
            None h with
    | (Returned result, h') =>
        handleResult result None None
          (setTimeout StopIgnoringInput (INPUT_IGNORE_DELAY env)
             (setIgnoreInput true h'))
    | (Thrown e, h') =>
        (Returned None,
         setTimeout ClearStatusMessage 3000
           (setStatusMessage (failedToLaunch e) h'))
    end.
Proof.
  intros Hsupported. unfold launchNewPanePopup, checkPopupSupport.
  rewrite Hsupported.
  cbv beta iota zeta delta
    [bind ret tryCatch ignoreInputBriefly modify showTempMessage negb].
  destruct (launchPopup _ _ _ _ _ _ _) as [[result|e] h']; [|done].
  destruct (handleResult_default_returns result
              (setTimeout StopIgnoringInput (INPUT_IGNORE_DELAY env)
                 (setIgnoreInput true h'))) as (v & h'' & Hres).
  by rewrite Hres.
Qed.

Lemma launchNewPanePopup_unsupported env config projectPath h :
  popupsSupported config = false →
  launchNewPanePopup env config projectPath h
  = (Returned None,
     setTimeout ClearStatusMessage 3000
       (setStatusMessage (js "Popups require tmux 3.2+") h)).
Proof.
  intros Hsupported. unfold launchNewPanePopup, checkPopupSupport.
  by rewrite Hsupported.
Qed.

(** C9, as the code has it. When the spawn throws or the result promise
    rejects (the steps before having succeeded), [launchPopup] throws that
    same exception, after one call of [fs.unlink] on the channel file if it
    had named one; it builds no result of its own: whatever it returns is
    what the result promise of a spawned popup resolved to. The entry point
    [launchNewPanePopup] catches the exception, shows one status message
    ["Failed to launch popup: " + error.message] with its 3000 ms timer and
    returns [null]; it never throws, so its caller sees neither the
    exception nor an error result. *)
Theorem launch_failure_rethrown_then_notified env config :
  (∀ (T : Type) (env' : @Env T Payload Positioning) scriptName args options
     tempData h prepared positioning e,
     prepareArgs env' scriptName args tempData = Returned prepared →
     getPositioning env' config options = Returned positioning →
     let spawn :=
       spawnPopup env' (getPopupScriptPath env' scriptName) prepared options
         positioning in
     spawn = Thrown e
     ∨ (∃ handle, spawn = Returned handle ∧ resultPromise handle = Thrown e) →
     let run := launchPopup env' config scriptName args options tempData h in
     run.1 = Thrown e
     ∧ (is_Some tempData →
        ∃ before,
          fsCalls run.2
          = before ++ [Unlink (tempFileName scriptName (dateNow env'))]))
  ∧ (∀ (T : Type) (env' : @Env T Payload Positioning) scriptName args options
       tempData h result,
       (launchPopup env' config scriptName args options tempData h).1
       = Returned result →
       ∃ prepared positioning handle,
         spawnPopup env' (getPopupScriptPath env' scriptName) prepared options
           positioning = Returned handle
         ∧ resultPromise handle = Returned result)
  ∧ (∀ projectPath h e,
       popupsSupported config = true →
       let spawn :=
         spawnPopup env (getPopupScriptPath env (js "newPanePopup.js"))
           (newPaneArgs projectPath) (newPaneOptions env config projectPath)
           (positioningCentered env (sidebarWidth config)) in
       spawn = Thrown e
       ∨ (∃ handle, spawn = Returned handle ∧ resultPromise handle = Thrown e) →
       let run := launchNewPanePopup env config projectPath h in
       run.1 = Returned None
       ∧ statusMessages run.2 = statusMessages h ++ [failedToLaunch e]
       ∧ timers run.2 = timers h ++ [(3000, ClearStatusMessage)]
       ∧ ignoreInput run.2 = ignoreInput h
       ∧ fsCalls run.2 = fsCalls h)
  ∧ (∀ projectPath h,
       ∃ v, (launchNewPanePopup env config projectPath h).1 = Returned v).
Proof.
  split_and!.
  - intros T env' scriptName args options tempData h prepared positioning e
      Hprep Hpos spawn Hspawn run. split.
    + subst run. rewrite launchPopup_outcome. unfold launchOutcome.
      rewrite Hprep, Hpos. fold spawn.
      by destruct Hspawn as [Hs | (handle & Hs & Hp)]; rewrite Hs.
    + intros [payload ->].
      destruct (launchPopup_payload env' config scriptName args options
                  payload h) as (out & written & fs & _ & Hrun).
      specialize (Hrun (unlinkError env')).
      rewrite withUnlinkError_same in Hrun. subst run. rewrite Hrun.
      cbn [snd]. rewrite unlinkQuietly_fsCalls. by eexists.
  - intros T env' scriptName args options tempData h result.
    rewrite launchPopup_outcome. unfold launchOutcome.
    destruct (prepareArgs _ _ _ _) as [prepared|?]; [|done].
    destruct (getPositioning _ _ _) as [positioning|?]; [|done].
    destruct (spawnPopup _ _ _ _ _) as [handle|?] eqn:Hspawn; [|done].
    intros Hresult. by exists prepared, positioning, handle.
  - intros projectPath h e Hsupported spawn Hspawn run.
    assert ((launchPopup env config (js "newPanePopup.js")
               (newPaneArgs projectPath)
               (newPaneOptions env config projectPath) None h).1 = Thrown e)
      as Hthrown.
    { rewrite launchPopup_outcome, launchNewPanePopup_spawn. fold spawn.
      by destruct Hspawn as [Hs | (handle & Hs & Hp)]; rewrite Hs. }
    pose proof (launchPopup_no_payload env config (js "newPanePopup.js")
                  (newPaneArgs projectPath)
                  (newPaneOptions env config projectPath) h) as Hhost.
    subst run. rewrite launchNewPanePopup_run by done.
    destruct (launchPopup _ _ _ _ _ _ _) as [out h']. simpl in *.
    subst out. simpl. by destruct Hhost as [-> | ->].
  - intros projectPath h.
    destruct (popupsSupported config) eqn:Hsupported.
    + rewrite launchNewPanePopup_run by done.
      destruct (launchPopup _ _ _ _ _ _ _) as [[result|e] h'];
        [|by eexists].
      destruct (handleResult_default_returns result
                  (setTimeout StopIgnoringInput (INPUT_IGNORE_DELAY env)
                     (setIgnoreInput true h'))) as (v & h'' & Hres).
      rewrite Hres. by eexists.
    + rewrite launchNewPanePopup_unsupported by done. by eexists.
Qed.

End Failures.

Lemma launch_failure_rethrown_then_notified_witness :
  (launchNewPanePopup
     (sampleEnv (Returned cancelledResult) (Some spawnFailure) None 5)
     sampleConfig None emptyHost).1 = Returned None
  ∧ failedConfirm.1 = Thrown spawnFailure.
Proof.
  pose proof (launch_failure_rethrown_then_notified
                (sampleEnv (Returned cancelledResult) (Some spawnFailure)
                   None 5) sampleConfig) as (Hlaunch & _ & Hpane & _).
  split.
  - apply (Hpane None emptyHost spawnFailure); [reflexivity | by left].
  - apply (Hlaunch jsstring
             (sampleEnv (Returned cancelledResult) (Some spawnFailure) None
                1700000000000)
             (js "confirmPopup.js") [] confirmOptions (Some (js "{title:A}"))
             emptyHost
             [tempFileName (js "confirmPopup.js") 1700000000000] tt
             spawnFailure); [reflexivity | reflexivity | by left].
Defined.

(** C9, as stated: when the spawn fails, [launchPopup] returns no result,
    in particular no error result; it throws the exception it caught. *)
Lemma launch_failure_is_no_error_result :
  failedConfirm.1 = Thrown spawnFailure
  ∧ ¬ (∃ msg, failedConfirm.1 = Returned (errorResult msg)).
Proof. split; [reflexivity | by intros [msg Hmsg]]. Qed.

(** ** Names of channel files *)

Lemma js_inj (s1 s2 : string) : js s1 = js s2 → s1 = s2.
Proof.
  unfold js. intros H.
  rewrite <- (String.string_of_list_ascii_of_string s1),
          <- (String.string_of_list_ascii_of_string s2).
  f_equal. revert H. generalize (String.list_ascii_of_string s2).
  induction (String.list_ascii_of_string s1) as [|a l IH];
    intros [|b k] H; simplify_eq/=; [done|].
  f_equal; [|by apply IH].
  rewrite <- (Ascii.ascii_N_embedding a), <- (Ascii.ascii_N_embedding b).
  by f_equal.
Qed.

Lemma js_String (c : Ascii.ascii) (s : string) :
  js (String c s) = Ascii.N_of_ascii c :: js s.
Proof. reflexivity. Qed.

(** The decimal digits of a number hold no dash. *)
Lemma pretty_N_go_no_dash (x : N) (s : string) :
  45%N ∉ js s → 45%N ∉ js (pretty_N_go x s).
Proof.
  revert s. induction (N.lt_wf_0 x) as [x _ IH]; intros s Hs.
  destruct (decide (x = 0%N)) as [->|Hx]; [by rewrite pretty_N_go_0|].
  rewrite pretty_N_go_step by lia. apply IH.
  - apply N.div_lt; lia.
  - rewrite js_String. apply not_elem_of_cons. split; [|done].
    unfold pretty_N_char. by repeat case_match.
Qed.

Lemma pretty_N_no_dash (x : N) : 45%N ∉ js (pretty x).
Proof.
  unfold pretty, pretty_N. case_decide.
  - by intros [= ]%list_elem_of_singleton.
  - apply pretty_N_go_no_dash. apply not_elem_of_nil.
Qed.

Lemma json_suffix_no_dash : 45%N ∉ js ".json".
Proof.
  change (js ".json") with [46%N; 106%N; 115%N; 111%N; 110%N].
  rewrite !not_elem_of_cons. split_and!; try done. apply not_elem_of_nil.
Qed.

(** Two texts cut at their last separator agree part by part. *)
Lemma app_separator_inj {A} (c : A) (l1 l2 d1 d2 : list A) :
  c ∉ d1 → c ∉ d2 → l1 ++ c :: d1 = l2 ++ c :: d2 → l1 = l2 ∧ d1 = d2.
Proof.
  intros H1 H2. revert l2.
  induction l1 as [|x l1 IH]; intros [|y l2] Heq; simplify_eq/=.
  - done.
  - destruct H1. apply elem_of_app. right. by left.
  - destruct H2. apply elem_of_app. right. by left.
  - destruct (IH l2) as [-> ->]; done.
Qed.

(** C8, as the code has it. The name of a channel file is made of the popup
    kind (the script name without its first [".js"]) and the millisecond
    the clock showed: two launches get the same name exactly when they
    agree on both, and distinct names otherwise. *)
Theorem channel_file_names_agree_iff (s1 s2 : jsstring) (t1 t2 : N) :
  tempFileName s1 t1 = tempFileName s2 t2
  ↔ replaceFirst s1 (js ".js") [] = replaceFirst s2 (js ".js") []
    ∧ t1 = t2.
Proof.
  split; [|by intros [Hkind ->]; unfold tempFileName; rewrite Hkind].
  unfold tempFileName. intros Heq.
  apply app_inv_head in Heq.
  change (js "-") with [45%N] in Heq.
  apply app_separator_inj in Heq as [Hkind Hrest].
  - split; [done|]. apply app_inv_tail in Hrest.
    by apply js_inj, pretty_N_inj in Hrest.
  - rewrite not_elem_of_app. split; [apply pretty_N_no_dash|].
    apply json_suffix_no_dash.
  - rewrite not_elem_of_app. split; [apply pretty_N_no_dash|].
    apply json_suffix_no_dash.
Qed.

(** C8, as stated: two launches of the confirm popup within one millisecond
    write and remove the same channel file, each with its own payload. *)
Lemma two_launches_share_the_channel_file :
  ∃ path c1 c2,
    fsCalls firstConfirm.2 = [WriteFile path c1; Unlink path]
    ∧ fsCalls secondConfirm.2 = [WriteFile path c2; Unlink path]
    ∧ c1 ≠ c2.
Proof.
  exists (tempFileName (js "confirmPopup.js") 1700000000000),
    (js "{title:A}"), (js "{title:B}").
  split_and!; [reflexivity | reflexivity | discriminate].
Qed.

(** * Further properties of the prompt *)

(** ** The detection effect as a whole *)

(** The effect applies the verdict on the text and the cursor. *)
Lemma detectMention_verdict scan fuzzy (st : AppState) :
  detectMention scan fuzzy st
  = applyVerdict (verdict scan fuzzy (prompt st) (currentCursor st)) st.
Proof.
  unfold verdict.
  destruct (scanAt_spec (prompt st) (Z.to_nat (currentCursor st)))
    as [[Hnone _]|(a & Ha & Hlt & _)].
  - rewrite Hnone. by apply detectMention_no_anchor.
  - rewrite (detectMention_anchor _ _ _ (Z.of_nat a)) by (done || lia).
    rewrite Ha. destruct (Z.eqb_spec (Z.of_nat a) (-1)) as [?|_]; [lia|].
    cbv zeta. case_match; [|done]. unfold showFileList.
    by destruct (scan ≫= fuzzy _).
Qed.

Lemma applyVerdict_buffer (v : Verdict) (st : AppState) :
  prompt (applyVerdict v st) = prompt st
  ∧ currentCursor (applyVerdict v st) = currentCursor st
  ∧ cursorPosition (applyVerdict v st) = cursorPosition st.
Proof. by destruct v. Qed.

(** A verdict to show the list: its anchor is the nearest ['@'] before the
    cursor, and the cursor is inside the token. *)
Lemma verdict_Show scan fuzzy (text : jsstring) (cursor a : Z) matches :
  verdict scan fuzzy text cursor = Show a matches →
  ∃ n : nat,
    a = Z.of_nat n ∧ text !! n = Some AT
    ∧ Z.of_nat n < cursor
      ≤ Z.of_nat n + 1 + len (nonSpaceRun (drop (S n) text))
    ∧ (∀ j : nat, (n < j)%nat → Z.of_nat j < cursor → text !! j ≠ Some AT)
    ∧ scan ≫= fuzzy (nonSpaceRun (drop (S n) text)) = Some matches.
Proof.
  unfold verdict.
  destruct (scanAt_spec text (Z.to_nat cursor))
    as [[-> _]|(n & -> & Hlt & Hat & Hbetween)]; [done|].
  destruct (Z.eqb_spec (Z.of_nat n) (-1)) as [?|_]; [lia|]. cbv zeta.
  replace (Z.to_nat (Z.of_nat n + 1)) with (S n) by lia.
  destruct (Z.leb_spec cursor
              (Z.of_nat n + 1 + len (nonSpaceRun (drop (S n) text))))
    as [Hin|?]; [|done].
  destruct (scan ≫= fuzzy _) as [m|] eqn:Hm; [|done].
  intros [= <- <-]. exists n. split_and!; try (done || lia).
  intros j Hj Hc. apply Hbetween. lia.
Qed.

(** X1. The detection effect never edits the buffer: the text, the cursor
    reported by the text input and the pending cursor override are the same
    after it, whatever it decides. *)
Theorem detection_leaves_buffer scan fuzzy (st : AppState) :
  prompt (detectMention scan fuzzy st) = prompt st
  ∧ currentCursor (detectMention scan fuzzy st) = currentCursor st
  ∧ cursorPosition (detectMention scan fuzzy st) = cursorPosition st.
Proof. rewrite detectMention_verdict. apply applyVerdict_buffer. Qed.

(** X2. A file index that throws is absorbed: the list is hidden, the
    candidates are empty, and the text and the cursor are as before. *)
Theorem detection_absorbs_index_failure scan fuzzy (st : AppState) :
  (∀ q, scan ≫= fuzzy q = None) →
  isFileListActive (detectMention scan fuzzy st) = false
  ∧ filteredFiles (detectMention scan fuzzy st) = []
  ∧ prompt (detectMention scan fuzzy st) = prompt st
  ∧ currentCursor (detectMention scan fuzzy st) = currentCursor st.
Proof.
  intros Hfail. rewrite detectMention_verdict.
  destruct (verdict scan fuzzy (prompt st) (currentCursor st))
    as [|a matches|] eqn:Hv; [done| |done].
  apply verdict_Show in Hv as (n & _ & _ & _ & _ & Hm). congruence.
Qed.

Lemma detection_absorbs_index_failure_witness :
  isFileListActive
    (detectMention None sampleMatch
       (setCurrentCursor 7 (setPrompt (js "fix @BU") initialState))) = false.
Proof.
  apply (detection_absorbs_index_failure None sampleMatch
           (setCurrentCursor 7 (setPrompt (js "fix @BU") initialState))).
  reflexivity.
Defined.

(** X3. Running the effect again on its own result changes nothing. *)
Theorem detection_idempotent scan fuzzy (st : AppState) :
  detectMention scan fuzzy (detectMention scan fuzzy st)
  = detectMention scan fuzzy st.
Proof.
  rewrite (detectMention_verdict scan fuzzy (detectMention scan fuzzy st)).
  rewrite (detectMention_verdict scan fuzzy st).
  destruct (applyVerdict_buffer
              (verdict scan fuzzy (prompt st) (currentCursor st)) st)
    as (-> & -> & _).
  by destruct (verdict scan fuzzy (prompt st) (currentCursor st)), st.
Qed.

Lemma nonSpaceRun_lookup (s : jsstring) (k : nat) :
  (k < length (nonSpaceRun s))%nat →
  ∃ c, s !! k = Some c ∧ isWhiteSpace c = false.
Proof.
  revert k. induction s as [|c s IH]; intros k; simpl; [lia|].
  destruct (isWhiteSpace c) eqn:Hc; simpl; [lia|].
  destruct k as [|k]; [by exists c|]. intros Hk. apply IH. lia.
Qed.

(** X4. Whenever the detection leaves the list active, the recorded anchor
    is the position of an ['@'] of the text strictly before the cursor, the
    cursor is inside the text, every code unit between the anchor and the
    cursor is neither whitespace nor another ['@'], and the selection is 0. *)
Theorem detection_active_invariant scan fuzzy (st : AppState) :
  isFileListActive (detectMention scan fuzzy st) = true →
  let st' := detectMention scan fuzzy st in
  0 ≤ atPosition st' < currentCursor st
  ∧ currentCursor st ≤ len (prompt st)
  ∧ charAt (prompt st) (atPosition st') = Some AT
  ∧ (∀ j, atPosition st' < j < currentCursor st →
       ∃ c, charAt (prompt st) j = Some c
            ∧ isWhiteSpace c = false ∧ c ≠ AT)
  ∧ selectedFileIndex st' = 0.
Proof.
  intros Hact st'. subst st'. rewrite detectMention_verdict in *.
  destruct (verdict scan fuzzy (prompt st) (currentCursor st))
    as [|a matches|] eqn:Hv; [done| |done].
  apply verdict_Show in Hv as (n & -> & Hat & Hrange & Hbetween & _).
  simpl. clear Hact.
  assert (len (nonSpaceRun (drop (S n) (prompt st)))
          ≤ len (drop (S n) (prompt st))) as Hle.
  { destruct (nonSpaceRun_maximal (drop (S n) (prompt st)))
      as (rest & Heq & _).
    rewrite Heq at 2. rewrite len_app. pose proof (len_nonneg rest). lia. }
  assert (Z.of_nat (S n) ≤ len (prompt st)) as Hn.
  { apply lookup_lt_Some in Hat. unfold len. lia. }
  unfold len in Hle at 2. rewrite length_drop in Hle. unfold len in Hn.
  split_and!; try lia.
  - unfold len. lia.
  - by rewrite charAt_nat.
  - intros j Hj.
    destruct (nonSpaceRun_lookup (drop (S n) (prompt st))
                (Z.to_nat j - S n)) as (c & Hc & Hws).
    { unfold len in Hrange. lia. }
    rewrite lookup_drop in Hc.
    replace (S n + (Z.to_nat j - S n))%nat with (Z.to_nat j) in Hc by lia.
    exists c. unfold charAt. destruct (Z.ltb_spec j 0); [lia|].
    split_and!; [done..|]. intros ->.
    by apply (Hbetween (Z.to_nat j)); [lia | lia |].
Qed.

Lemma detection_active_invariant_witness :
  charAt (js "fix @BU") (atPosition (typed (js "fix @BU") 7)) = Some AT.
Proof.
  exact (proj1 (proj2 (proj2 (detection_active_invariant (Some sampleFiles)
           sampleMatch
           (setCurrentCursor 7 (setPrompt (js "fix @BU") initialState))
           eq_refl)))).
Defined.

(** ** Keys *)

(** X5. An escape key is handled by exactly one side: the component's own
    handler changes the state exactly when [shouldAllowCancel] refuses the
    cancel, and leaves the state alone exactly when the cancel is allowed. *)
Theorem escape_intercepted_iff_cancel_blocked (st : AppState) :
  useInputHandler escapeKey st = st ↔ shouldAllowCancel st = true.
Proof.
  unfold useInputHandler, shouldAllowCancel. simpl.
  destruct (isFileListActive st) eqn:Hact; simpl.
  - split; [|done]. intros Heq.
    apply (f_equal isFileListActive) in Heq. simpl in Heq. congruence.
  - destruct (len (prompt st) >? 0) eqn:Hlen; [|done].
    split; [|done]. intros Heq.
    apply (f_equal prompt) in Heq. simpl in Heq.
    rewrite <- Heq in Hlen. done.
Qed.

Lemma cancelGestures_closed scan fuzzy (n : nat) (st : AppState) :
  cancelGestures scan fuzzy n (mkSession st true) = mkSession st true.
Proof.
  induction n as [|n IH]; [done|].
  unfold cancelGestures in *. simpl. by rewrite IH.
Qed.

Lemma cancelGestures_S scan fuzzy (n : nat) (s : Session) :
  cancelGestures scan fuzzy (S n) s
  = cancelGestures scan fuzzy n (cancelGesture scan fuzzy s).
Proof. unfold cancelGestures. by rewrite Nat.iter_succ_r. Qed.

(** X6. Every session closes under repeated cancel gestures, and the number
    it takes is one, plus one if the list is active, plus one if the text is
    not empty: after [n] gestures the session is closed exactly when [n] is
    at least that number (three at most). *)
Theorem cancel_gestures_needed scan fuzzy (n : nat) (st : AppState) :
  closed (cancelGestures scan fuzzy n (mkSession st false)) = true
  ↔ (gesturesToClose st ≤ n)%nat.
Proof.
  assert (Hidle : ∀ st n, isFileListActive st = false → prompt st = [] →
            closed (cancelGestures scan fuzzy n (mkSession st false)) = true
            ↔ (1 ≤ n)%nat).
  { intros st0 [|k] Hact Htext; [by split; [|lia]|].
    rewrite cancelGestures_S. unfold cancelGesture, popupWrapperCloses. simpl.
    rewrite keypress_escape_idle by done.
    rewrite (proj2 (shouldAllowCancel_iff st0)) by done.
    rewrite cancelGestures_closed. simpl. split; [lia | done]. }
  assert (Htext : ∀ st n, isFileListActive st = false → prompt st ≠ [] →
            closed (cancelGestures scan fuzzy n (mkSession st false)) = true
            ↔ (2 ≤ n)%nat).
  { intros st0 [|k] Hact Htext; [by split; [|lia]|].
    rewrite cancelGestures_S. unfold cancelGesture, popupWrapperCloses. simpl.
    rewrite keypress_escape_text by done.
    assert (shouldAllowCancel st0 = false) as ->.
    { destruct (shouldAllowCancel st0) eqn:H; [|done].
      by apply shouldAllowCancel_iff in H as [_ ?]. }
    rewrite Hidle by done. lia. }
  unfold gesturesToClose.
  destruct (isFileListActive st) eqn:Hact.
  - destruct n as [|k]; [by split; [|simpl; case_match; lia]|].
    rewrite cancelGestures_S. unfold cancelGesture, popupWrapperCloses. simpl.
    rewrite keypress_escape_active by done.
    unfold shouldAllowCancel at 1. rewrite Hact.
    destruct (len (prompt st) >? 0) eqn:Hlen.
    + rewrite Htext; [lia | done |]. simpl. intros Hnil.
      rewrite Hnil in Hlen. done.
    + apply len_nil_iff in Hlen. rewrite Hidle by done. lia.
  - destruct (len (prompt st) >? 0) eqn:Hlen.
    + rewrite Htext; [lia | done |]. intros Hnil. rewrite Hnil in Hlen. done.
    + apply len_nil_iff in Hlen. rewrite Hidle by done. lia.
Qed.

(** X7. Enter is an accept or a submit, never both. While the list is
    active, [handleSubmit] submits nothing, whatever value it is given;
    while it is inactive, the key handler leaves the state alone for tab,
    return and the arrows, and [handleSubmit] submits the given value, or
    the text when the value is empty, also when the text is empty. *)
Theorem enter_accepts_or_submits scan fuzzy (st : AppState)
    (value : option jsstring) :
  (isFileListActive st = true → handleSubmit value st = None)
  ∧ (isFileListActive st = false →
       (∀ key, escape key = false → keypress scan fuzzy key st = st)
       ∧ handleSubmit (Some []) st = Some (prompt st)
       ∧ handleSubmit None st = Some (prompt st)
       ∧ ∀ c v, handleSubmit (Some (c :: v)) st = Some (c :: v)).
Proof.
  unfold handleSubmit. split; intros Hact; rewrite Hact; [done|].
  split_and!; try done.
  intros key Hesc. unfold keypress, useInputHandler. rewrite Hesc, Hact.
  simpl. by apply afterRender_same.
Qed.

(** X8. An active list without candidates swallows the accept gesture: tab
    and return change nothing and Enter submits nothing, and the arrows
    move the selection between 0 and -1 only. *)
Theorem no_candidates_accept_is_swallowed scan fuzzy (st : AppState) :
  isFileListActive st = true →
  filteredFiles st = [] →
  keypress scan fuzzy tabKey st = st
  ∧ keypress scan fuzzy returnKey st = st
  ∧ (∀ value, handleSubmit value st = None)
  ∧ (-1 ≤ selectedFileIndex st ≤ 0 →
     ∀ ds, -1 ≤ selectedFileIndex (navigate scan fuzzy ds st) ≤ 0
           ∧ filteredFiles (navigate scan fuzzy ds st) = []
           ∧ isFileListActive (navigate scan fuzzy ds st) = true).
Proof.
  intros Hact Hnone.
  assert (Haccept : ∀ key, key = tabKey ∨ key = returnKey →
            keypress scan fuzzy key st = st).
  { intros key Hkey. unfold keypress, useInputHandler, acceptSelection.
    destruct Hkey as [-> | ->]; simpl; rewrite Hact, Hnone; simpl;
      by apply afterRender_same. }
  split_and!; [by apply Haccept; left | by apply Haccept; right | |].
  - intros value. unfold handleSubmit. by rewrite Hact.
  - intros Hsel ds. clear Haccept. revert st Hact Hnone Hsel.
    induction ds as [|d ds IH]; intros st Hact Hnone Hsel; [done|].
    unfold navigate in *. simpl.
    assert (keypress scan fuzzy (navKey d) st
            = setSelectedFileIndex
                (match d with
                 | Up => Z.max 0 (selectedFileIndex st - 1)
                 | Down => Z.min (-1) (selectedFileIndex st + 1)
                 end) st) as ->.
    { destruct d; simpl; [by apply keypress_up|].
      rewrite keypress_down by done. by rewrite Hnone. }
    apply IH; [done | done |]. simpl. destruct d; lia.
Qed.

Lemma no_candidates_accept_is_swallowed_witness :
  keypress (Some sampleFiles) sampleMatch returnKey (typed (js "@zzz") 4)
  = typed (js "@zzz") 4.
Proof.
  apply (no_candidates_accept_is_swallowed (Some sampleFiles) sampleMatch
           (typed (js "@zzz") 4)); reflexivity.
Defined.

(** ** The accept gesture as an edit *)

Lemma nonSpaceRun_split (s : jsstring) :
  s = nonSpaceRun s ++ drop (length (nonSpaceRun s)) s.
Proof.
  induction s as [|c s IH]; simpl; [done|].
  destruct (isWhiteSpace c); simpl; [done|]. by rewrite <- IH.
Qed.

Lemma nonSpaceRun_rest (s : jsstring) :
  match drop (length (nonSpaceRun s)) s with
  | [] => True
  | c :: _ => isWhiteSpace c = true
  end.
Proof.
  induction s as [|c s IH]; simpl; [done|].
  destruct (isWhiteSpace c) eqn:Hc; simpl; done.
Qed.

Lemma startsWith_space (s : jsstring) :
  startsWith s [SPACE] = true → ∃ tail, s = SPACE :: tail.
Proof.
  destruct s as [|c s]; [done|]. unfold startsWith. cbn [isPrefixOf].
  destruct (N.eqb_spec SPACE c) as [<-|?]; [|done]. by exists s.
Qed.

(** The shape of the text before and after an accept on an ['@']. *)
Lemma accept_shape (st : AppState) (candidate : jsstring) :
  0 ≤ atPosition st →
  charAt (prompt st) (atPosition st) = Some AT →
  itemAt (filteredFiles st) (selectedFileIndex st) = Some candidate →
  let before := take (Z.to_nat (atPosition st)) (prompt st) in
  let query :=
    nonSpaceRun (drop (Z.to_nat (atPosition st + 1)) (prompt st)) in
  let rest :=
    drop (Z.to_nat (atPosition st + 1 + len query)) (prompt st) in
  len before = atPosition st
  ∧ prompt st = before ++ AT :: query ++ rest
  ∧ cursorPosition (acceptSelection st)
    = Some (atPosition st + 1 + len candidate)
  ∧ ∃ separator tail,
      prompt (acceptSelection st)
      = before ++ AT :: candidate ++ separator ++ rest
      ∧ (separator = [] ∨ separator = [SPACE])
      ∧ separator ++ rest = SPACE :: tail.
Proof.
  intros Ha Hat Hitem before query rest.
  assert (Hlookup : prompt st !! Z.to_nat (atPosition st) = Some AT).
  { unfold charAt in Hat. by destruct (Z.ltb_spec (atPosition st) 0); [lia|]. }
  assert (Hbefore : len before = atPosition st).
  { subst before. unfold len. rewrite length_take.
    apply lookup_lt_Some in Hlookup. lia. }
  assert (Hrest : restAfterToken (prompt st) (atPosition st) = rest).
  { unfold restAfterToken, tokenLength. rewrite decide_True by done.
    subst rest query. f_equal. lia. }
  rewrite (acceptSelection_spec st candidate) by done.
  cbv zeta. cbn [prompt cursorPosition].
  rewrite Hrest. fold before. rewrite Hbefore.
  split_and!; [done | | done |].
  - rewrite <- (take_drop (Z.to_nat (atPosition st)) (prompt st)) at 1.
    fold before. f_equal. rewrite (drop_S _ _ _ Hlookup). f_equal.
    replace (S (Z.to_nat (atPosition st)))
      with (Z.to_nat (atPosition st + 1)) by lia.
    rewrite (nonSpaceRun_split (drop (Z.to_nat (atPosition st + 1))
                                  (prompt st))) at 1.
    fold query. f_equal. subst rest. rewrite drop_drop. f_equal.
    unfold len. lia.
  - destruct (startsWith rest [SPACE]) eqn:Hstart.
    + destruct (startsWith_space rest Hstart) as [tail Htail].
      exists [], tail. split_and!; [done | by left | done].
    + exists [SPACE], rest. split_and!; [done | by right | done].
Qed.

(** X9. The accept gesture is a splice. With the anchor on an ['@'] of the
    text, the old text is [before + "@" + query + rest] and the new text is
    [before + "@" + candidate + separator + rest] with the same [before] and
    [rest]: only the token is replaced, and at most one space is added. The
    proposed cursor is the position right after the inserted reference, and
    the code unit at that position of the new text is a space. *)
Theorem accept_is_a_splice (key : Key) (st : AppState)
    (candidate : jsstring) :
  key = tabKey ∨ key = returnKey →
  isFileListActive st = true →
  0 ≤ atPosition st →
  charAt (prompt st) (atPosition st) = Some AT →
  itemAt (filteredFiles st) (selectedFileIndex st) = Some candidate →
  let st' := useInputHandler key st in
  let before := take (Z.to_nat (atPosition st)) (prompt st) in
  let query :=
    nonSpaceRun (drop (Z.to_nat (atPosition st + 1)) (prompt st)) in
  let rest :=
    drop (Z.to_nat (atPosition st + 1 + len query)) (prompt st) in
  prompt st = before ++ AT :: query ++ rest
  ∧ (∃ separator,
       prompt st' = before ++ AT :: candidate ++ separator ++ rest
       ∧ (separator = [] ∨ separator = [SPACE]))
  ∧ cursorPosition st' = Some (len before + 1 + len candidate)
  ∧ charAt (prompt st') (len before + 1 + len candidate) = Some SPACE.
Proof.
  intros Hkey Hact Ha Hat Hitem st' before query rest.
  assert (st' = acceptSelection st) as ->.
  { subst st'. unfold useInputHandler.
    destruct Hkey as [-> | ->]; simpl; by rewrite Hact. }
  destruct (accept_shape st candidate Ha Hat Hitem)
    as (Hbefore & Hold & Hcursor & separator & tail & Hnew & Hsep & Htail).
  fold before in Hbefore, Hold, Hnew. fold query in Hold. fold rest in Hold.
  fold query rest in Hnew, Htail.
  split_and!; [done | by exists separator | by rewrite Hbefore |].
  rewrite Hnew, Htail. unfold charAt.
  destruct (Z.ltb_spec (len before + 1 + len candidate) 0) as [Hneg|_].
  { pose proof (len_nonneg before). pose proof (len_nonneg candidate). lia. }
  replace (Z.to_nat (len before + 1 + len candidate))
    with (length before + S (length candidate))%nat by (unfold len; lia).
  rewrite lookup_app_r by lia.
  replace (length before + S (length candidate) - length before)%nat
    with (S (length candidate)) by lia.
  simpl. rewrite lookup_app_r by lia.
  by replace (length candidate - length candidate)%nat with 0%nat by lia.
Qed.

Lemma accept_is_a_splice_witness :
  charAt (prompt (useInputHandler tabKey seeReTab)) 14 = Some SPACE.
Proof.
  apply (accept_is_a_splice tabKey seeReTab (js "readme.md")).
  - by left.
  - reflexivity.
  - vm_compute. discriminate.
  - reflexivity.
  - reflexivity.
Defined.

(** X10. The list comes back after an accept. When the inserted candidate
    holds no whitespace and no ['@'], and the cursor stands where the accept
    gesture proposed it, the detection effect (for a file index that
    answers) activates the list again, on the same anchor, with the whole
    inserted candidate as the query. *)
Theorem list_reopens_after_accept scan fuzzy files (key : Key)
    (st : AppState) (candidate : jsstring) (cursor : Z) :
  scan = Some files →
  (∀ q, is_Some (fuzzy q files)) →
  key = tabKey ∨ key = returnKey →
  isFileListActive st = true →
  0 ≤ atPosition st →
  charAt (prompt st) (atPosition st) = Some AT →
  itemAt (filteredFiles st) (selectedFileIndex st) = Some candidate →
  plainPath candidate →
  cursorPosition (useInputHandler key st) = Some cursor →
  let st' :=
    detectMention scan fuzzy
      (setCurrentCursor cursor (useInputHandler key st)) in
  isFileListActive st' = true
  ∧ atPosition st' = atPosition st
  ∧ fuzzy candidate files = Some (filteredFiles st').
Proof.
  intros Hscan Hfuzzy Hkey Hact Ha Hat Hitem Hplain Hcursor st'.
  assert (useInputHandler key st = acceptSelection st) as Haccept.
  { unfold useInputHandler.
    destruct Hkey as [-> | ->]; simpl; by rewrite Hact. }
  rewrite Haccept in *.
  destruct (accept_shape st candidate Ha Hat Hitem)
    as (Hbefore & _ & Hcur & separator & tail & Hnew & _ & Htail).
  rewrite Hcur in Hcursor. injection Hcursor as <-.
  set (before := take (Z.to_nat (atPosition st)) (prompt st)) in *.
  rewrite Htail in Hnew. clear Htail.
  set (new := setCurrentCursor (atPosition st + 1 + len candidate)
                (acceptSelection st)) in *.
  assert (Hprompt : prompt new = before ++ AT :: candidate ++ SPACE :: tail)
    by done.
  assert (Hlen : length before = Z.to_nat (atPosition st))
    by (unfold len in Hbefore; lia).
  assert (Hnear : nearestAt (prompt new) (currentCursor new) (atPosition st)).
  { pose proof (len_nonneg candidate).
    split_and!; [done | simpl; lia | |].
    - unfold charAt. destruct (Z.ltb_spec (atPosition st) 0); [lia|].
      rewrite Hprompt, lookup_app_r by lia.
      by replace (Z.to_nat (atPosition st) - length before)%nat
        with 0%nat by lia.
    - simpl. intros j Hj. unfold charAt.
      destruct (Z.ltb_spec j 0); [lia|].
      rewrite Hnew, lookup_app_r by lia.
      replace (Z.to_nat j - length before)%nat
        with (S (Z.to_nat j - length before - 1)) by lia.
      simpl. rewrite lookup_app_l by (unfold len in Hj; lia).
      intros Hj'. apply (Forall_lookup_1 _ _ _ _ Hplain) in Hj'.
      by destruct Hj'. }
  assert (Hquery : queryAt (prompt new) (atPosition st) candidate).
  { exists (SPACE :: tail). split_and!; [| |done].
    - rewrite Hprompt.
      replace (Z.to_nat (atPosition st + 1)) with (length before + 1)%nat
        by lia.
      rewrite <- drop_drop, drop_app_length. done.
    - eapply Forall_impl; [exact Hplain|]. by intros c [? _]. }
  pose proof Hnear as (Hrange & _).
  apply scanAt_nearestAt in Hnear. apply maximalRun_unique in Hquery.
  subst st'. rewrite Haccept. fold new.
  rewrite (detectMention_anchor _ _ _ (atPosition st)) by done.
  cbv zeta. rewrite <- Hquery.
  destruct (Z.leb_spec (currentCursor new) (atPosition st + 1 + len candidate))
    as [_|Hout]; [|simpl in Hout; lia].
  destruct (Hfuzzy candidate) as [matches Hm].
  by rewrite (showFileList_found _ _ files matches).
Qed.

Lemma list_reopens_after_accept_witness :
  isFileListActive
    (detectMention (Some sampleFiles) sampleMatch
       (setCurrentCursor 14 (useInputHandler tabKey seeRe))) = true.
Proof.
  apply (list_reopens_after_accept (Some sampleFiles) sampleMatch sampleFiles
           tabKey seeRe (js "readme.md") 14).
  - reflexivity.
  - intros q. by eexists.
  - by left.
  - reflexivity.
  - vm_compute. discriminate.
  - reflexivity.
  - reflexivity.
  - repeat constructor; done.
  - reflexivity.
Defined.

(** ** Reachable states *)

Lemma applyVerdict_wellFormed scan fuzzy (st : AppState) :
  wellFormed
    (applyVerdict (verdict scan fuzzy (prompt st) (currentCursor st)) st).
Proof.
  destruct (verdict scan fuzzy (prompt st) (currentCursor st))
    as [|a matches|] eqn:Hv; [done| |done].
  apply verdict_Show in Hv as (n & -> & Hat & _).
  unfold wellFormed. simpl. split_and!; [|by destruct matches|done].
  intros _. split; [lia|]. by rewrite charAt_nat.
Qed.

Lemma afterRender_wellFormed scan fuzzy (st st' : AppState) :
  wellFormed st' → wellFormed (afterRender scan fuzzy st st').
Proof.
  intros Hwf. unfold afterRender. case_decide; [done|].
  rewrite detectMention_verdict. apply applyVerdict_wellFormed.
Qed.

(** A new text or a new cursor is followed by the detection. *)
Lemma afterRender_buffer_wellFormed scan fuzzy (st st' : AppState) :
  wellFormed st →
  isFileListActive st' = isFileListActive st →
  filteredFiles st' = filteredFiles st →
  selectedFileIndex st' = selectedFileIndex st →
  atPosition st' = atPosition st →
  (prompt st' = prompt st → wellFormed st') →
  wellFormed (afterRender scan fuzzy st st').
Proof.
  intros Hwf _ _ _ _ Hsame. unfold afterRender.
  case_decide as Hbuf; [by apply Hsame; destruct Hbuf|].
  rewrite detectMention_verdict. apply applyVerdict_wellFormed.
Qed.

Lemma keypress_wellFormed scan fuzzy (key : Key) (st : AppState) :
  wellFormed st → wellFormed (keypress scan fuzzy key st).
Proof.
  intros (Hanchor & Hsel & Hkeep). unfold keypress.
  assert (wellFormed st) as Hwf by done.
  unfold useInputHandler.
  destruct (escape key && isFileListActive st).
  { by apply afterRender_wellFormed. }
  destruct (escape key && (len (prompt st) >? 0)) eqn:Hclear.
  { unfold afterRender. case_decide as Hbuf.
    - simpl in Hbuf. destruct Hbuf as [Hnil _].
      apply andb_true_iff in Hclear as [_ Hlen]. rewrite Hnil in Hlen.
      done.
    - rewrite detectMention_verdict. apply applyVerdict_wellFormed. }
  destruct (isFileListActive st) eqn:Hact; simpl.
  2: { by apply afterRender_wellFormed. }
  destruct (upArrow key).
  { apply afterRender_wellFormed. unfold wellFormed. simpl.
    split_and!; [by intros _; apply Hanchor | | by rewrite Hact].
    intros Hfiles. specialize (Hsel Hfiles). lia. }
  destruct (downArrow key).
  { apply afterRender_wellFormed. unfold wellFormed. simpl.
    split_and!; [by intros _; apply Hanchor | | by rewrite Hact].
    intros Hfiles. specialize (Hsel Hfiles). lia. }
  destruct (tab key || return_ key); [|by apply afterRender_wellFormed].
  unfold acceptSelection. case_match; [|by apply afterRender_wellFormed].
  by apply afterRender_wellFormed.
Qed.

Lemma react_wellFormed scan fuzzy (st : AppState) (ev : Event) :
  wellFormed st → wellFormed (react scan fuzzy st ev).
Proof.
  intros Hwf. destruct ev as [text|cursor|key|]; simpl.
  - apply afterRender_buffer_wellFormed; try done.
    simpl. intros Htext. rewrite Htext. by destruct st.
  - unfold afterRender. case_decide as Hbuf.
    + simpl in Hbuf. destruct Hbuf as [_ <-]. by destruct st.
    + rewrite detectMention_verdict. apply applyVerdict_wellFormed.
  - by apply keypress_wellFormed.
  - unfold clearCursorOverride. by destruct (cursorPosition st).
Qed.

(** X11. Whatever the text input reports and whatever keys arrive, in any
    order and for any file index, the component stays in a state the accept
    gesture can work on: an active list is anchored on an ['@'] of the
    current text; a non-empty candidate list has its selection on one of
    its candidates, so that an accept never inserts a missing file; and
    candidates are kept only while the list is active. *)
Theorem reachable_states_well_formed scan fuzzy (evs : list Event) :
  let st := reactAll scan fuzzy evs initialState in
  (isFileListActive st = true →
     0 ≤ atPosition st ∧ charAt (prompt st) (atPosition st) = Some AT)
  ∧ (filteredFiles st ≠ [] →
       ∃ candidate,
         itemAt (filteredFiles st) (selectedFileIndex st) = Some candidate)
  ∧ (isFileListActive st = false → filteredFiles st = []).
Proof.
  intros st.
  assert (wellFormed st) as (Hanchor & Hsel & Hkeep).
  { subst st. unfold reactAll.
    assert (wellFormed initialState) as Hinit by done.
    revert Hinit. generalize initialState.
    induction evs as [|ev evs IH]; intros st0 Hwf; [done|].
    simpl. apply IH. by apply react_wellFormed. }
  split_and!; [done | | done].
  intros Hfiles. destruct (Hsel Hfiles) as [Hlo Hhi].
  unfold itemAt. destruct (Z.ltb_spec (selectedFileIndex st) 0); [lia|].
  apply lookup_lt_is_Some_2. unfold len in Hhi. lia.
Qed.
(** * Further properties of the popup manager *)

Section MoreLauncher.

Context {Positioning : Type}.
Implicit Types (config : PopupManagerConfig) (h : Host).

Lemma guarded_run {A} config (fallback : A) (body : M Host A) h :
  guarded config fallback body h
  = if popupsSupported config then
      match body h with
      | (Returned a, h') => (Returned a, h')
      | (Thrown e, h') => (Returned fallback, notify (failedToLaunch e) 3000 h')
      end
    else (Returned fallback, notify (js "Popups require tmux 3.2+") 3000 h).
Proof.
  unfold guarded, checkPopupSupport.
  destruct (popupsSupported config); [|done].
  cbv beta iota zeta delta [bind ret tryCatch negb].
  by destruct (body h) as [[a|e] h'].
Qed.

Lemma handleResult_default {T} (result : PopupResult T) h :
  handleResult result None None h
  = (Returned (deliveredData result), afterHandling result h).
Proof.
  destruct result as [s d c e].
  unfold handleResult, afterHandling, reportedError, deliveredData. simpl.
  destruct (truthy s), d; try done.
  all: destruct (truthy c); [done|]; by destruct (nonEmpty e).
Qed.

Lemma afterHandling_files {T} (result : PopupResult T) h :
  files (afterHandling result h) = files h
  ∧ fsCalls (afterHandling result h) = fsCalls h
  ∧ ignoreInput (afterHandling result h) = ignoreInput h.
Proof. unfold afterHandling. by destruct (reportedError result). Qed.

(** The host after a launch with a payload. *)
Lemma launchPopup_payload_host {T Payload}
    (env : @Env T Payload Positioning) config scriptName args options
    (payload : Payload) h :
  let run := launchPopup env config scriptName args options (Some payload) h in
  let tempFile := tempFileName scriptName (dateNow env) in
  run.1 = launchOutcome env config scriptName args options (Some payload)
  ∧ (∃ written,
       fsCalls run.2 = fsCalls h ++ written ++ [Unlink tempFile]
       ∧ (written = [] ∨ ∃ content, written = [WriteFile tempFile content]))
  ∧ (unlinkError env = None → files run.2 !! tempFile = None)
  ∧ statusMessages run.2 = statusMessages h
  ∧ ignoreInput run.2 = ignoreInput h
  ∧ timers run.2 = timers h.
Proof.
  intros run tempFile.
  destruct (launchPopup_payload env config scriptName args options payload h)
    as (out & written & fs & Hwritten & Hrun).
  specialize (Hrun (unlinkError env)). rewrite withUnlinkError_same in Hrun.
  pose proof (unlinkQuietly_callbacks env tempFile
                (mkHost fs (fsCalls h ++ written) (statusMessages h)
                   (ignoreInput h) (timers h)))
    as (Hstatus & Hignore & Htimers).
  split; [apply launchPopup_outcome|].
  subst run. fold tempFile in Hrun. rewrite Hrun. cbn [snd].
  split_and!; [| |done..].
  - exists written. rewrite unlinkQuietly_fsCalls. simpl.
    by rewrite <- app_assoc.
  - intros Hok. by apply unlinkQuietly_files.
Qed.

(** The host after a launch without a payload. *)
Lemma launchPopup_bare_host {T Payload}
    (env : @Env T Payload Positioning) config scriptName args options h :
  let run := launchPopup env config scriptName args options None h in
  run.1 = launchOutcome env config scriptName args options None
  ∧ fsCalls run.2 = fsCalls h
  ∧ statusMessages run.2 = statusMessages h
  ∧ ignoreInput run.2 = ignoreInput h
  ∧ timers run.2 = timers h
  ∧ (files run.2 = files h ∨ files run.2 = meanwhile env (files h)).
Proof.
  intros run. split; [apply launchPopup_outcome|].
  destruct (launchPopup_no_payload env config scriptName args options h)
    as [Hh | Hh]; subst run; rewrite Hh; simpl; split_and!; auto.
Qed.

(** The run of a method of the shared shape. *)
Lemma standard_run {T Payload A} (env : @Env T Payload Positioning) config
    scriptName args options (tempData : option Payload) (ignore : bool)
    (f : option T → A) h :
  let outcome := launchOutcome env config scriptName args options tempData in
  let launched :=
    (launchPopup env config scriptName args options tempData h).2 in
  guarded config (f None)
    (standardBody env config scriptName args options tempData ignore f) h
  = (Returned (f (launcherData config outcome)),
     if popupsSupported config then
       match outcome with
       | Returned result =>
           afterHandling result
             (if ignore then ignoringInput (INPUT_IGNORE_DELAY env) launched
              else launched)
       | Thrown e => notify (failedToLaunch e) 3000 launched
       end
     else notify (js "Popups require tmux 3.2+") 3000 h).
Proof.
  intros outcome launched. rewrite guarded_run. unfold launcherData.
  destruct (popupsSupported config); [|done].
  unfold standardBody, bind at 1.
  pose proof (launchPopup_outcome env config scriptName args options
                tempData h) as Hout.
  fold outcome in Hout. subst launched.
  destruct (launchPopup _ _ _ _ _ _ _) as [out hl]. simpl in Hout.
  subst out. destruct outcome as [result|e]; [|done].
  cbn [snd]. unfold bind.
  destruct ignore; cbv beta iota zeta delta [ignoreInputBriefly bind modify ret];
    by rewrite handleResult_default.
Qed.

(** [launchPopup] itself shows nothing and sets no timer. *)
Lemma launchPopup_callbacks {T Payload} (env : @Env T Payload Positioning)
    config scriptName args options (tempData : option Payload) h :
  let run := launchPopup env config scriptName args options tempData h in
  statusMessages run.2 = statusMessages h
  ∧ ignoreInput run.2 = ignoreInput h
  ∧ timers run.2 = timers h.
Proof.
  destruct tempData as [payload|].
  - by destruct (launchPopup_payload_host env config scriptName args options
                   payload h) as (_ & _ & _ & ? & ? & ?).
  - by destruct (launchPopup_bare_host env config scriptName args options h)
      as (_ & _ & ? & ? & ? & _).
Qed.

(** What a method of the shared shape answers and what it leaves on the
    host. *)
Lemma standard_observations {T Payload A} (env : @Env T Payload Positioning)
    config scriptName args options (tempData : option Payload)
    (ignore : bool) (f : option T → A) h :
  let outcome := launchOutcome env config scriptName args options tempData in
  let launched :=
    (launchPopup env config scriptName args options tempData h).2 in
  let run :=
    guarded config (f None)
      (standardBody env config scriptName args options tempData ignore f) h in
  run.1 = Returned (f (launcherData config outcome))
  ∧ statusMessages run.2
    = statusMessages h ++ option_list (launcherMessage config outcome)
  ∧ ignoreInput run.2
    = ignoreInput h
      ++ (if ignore && resolved config outcome then [true] else [])
  ∧ timers run.2
    = timers h
      ++ (if ignore && resolved config outcome
          then [(INPUT_IGNORE_DELAY env, StopIgnoringInput)] else [])
      ++ (const (3000, ClearStatusMessage)
            <$> option_list (launcherMessage config outcome))
  ∧ fsCalls run.2 = (if popupsSupported config then fsCalls launched
                     else fsCalls h)
  ∧ files run.2 = (if popupsSupported config then files launched
                   else files h).
Proof.
  intros outcome launched run. subst run. rewrite standard_run.
  fold outcome launched.
  destruct (launchPopup_callbacks env config scriptName args options
              tempData h) as (Hstatus & Hignore & Htimers).
  fold launched in Hstatus, Hignore, Htimers.
  unfold launcherMessage, resolved, launcherData.
  destruct (popupsSupported config); cbn [fst snd andb].
  2: { rewrite andb_false_r. simpl. by rewrite !app_nil_r. }
  destruct outcome as [result|e]; simpl.
  - unfold afterHandling. rewrite andb_true_r.
    destruct (reportedError result), ignore; simpl;
      rewrite ?Hstatus, ?Hignore, ?Htimers, ?app_nil_r, <- ?app_assoc; done.
  - rewrite andb_false_r. simpl.
    by rewrite Hstatus, Hignore, Htimers, ?app_nil_r.
Qed.

(** Each method is of the shared shape. *)
Ltac shared_shape :=
  intros; rewrite !guarded_run; unfold checkPopupSupport;
  destruct (popupsSupported _); [|done];
  cbv beta iota zeta delta
    [bind ret tryCatch negb standardBody ignoreInputBriefly modify
     showTempMessage];
  destruct (launchPopup _ _ _ _ _ _ _) as [[?|?] ?]; [|done];
  by rewrite handleResult_default.

Lemma launchNewPanePopup_shape {Payload}
    (env : @Env jsstring Payload Positioning) config projectPath h :
  launchNewPanePopup env config projectPath h
  = guarded config None
      (standardBody env config (js "newPanePopup.js")
         (newPaneArgs projectPath) (newPaneOptions env config projectPath)
         None true id) h.
Proof. unfold launchNewPanePopup. shared_shape. Qed.

Lemma launchConfirmPopup_shape (env : @Env bool PopupPayload Positioning)
    config title message yesLabel noLabel h :
  launchConfirmPopup config env title message yesLabel noLabel h
  = guarded config false
      (standardBody env config (js "confirmPopup.js") []
         (mkOptions (Some 80) (Some (confirmHeight message))
            (orElse title (js "Confirm")) None)
         (Some (ConfirmData title message yesLabel noLabel)) false
         (default false)) h.
Proof. unfold launchConfirmPopup. shared_shape. Qed.

Lemma launchChoicePopup_shape (env : @Env jsstring PopupPayload Positioning)
    config title message options h :
  launchChoicePopup config env title message options h
  = guarded config None
      (standardBody env config (js "choicePopup.js") []
         (mkOptions (Some 70) (Some (Z.min 25 (len options * 3 + 8)))
            (orElse title (js "Choose Option")) None)
         (Some (ChoiceData title message options)) false id) h.
Proof. unfold launchChoicePopup. shared_shape. Qed.

Lemma launchProjectSelectPopup_shape
    (env : @Env jsstring PopupPayload Positioning) config defaultValue h :
  launchProjectSelectPopup config env defaultValue h
  = guarded config None
      (standardBody env config (js "projectSelectPopup.js") []
         (mkOptions (Some 80) (Some 25) (js "  Select Project  ")
            (Some Centered))
         (Some (ProjectSelectData
                  (if nonEmpty defaultValue then toStringOr defaultValue
                   else []))) true id) h.
Proof. unfold launchProjectSelectPopup. shared_shape. Qed.

Lemma launchInputPopup_shape (env : @Env jsstring PopupPayload Positioning)
    config title message placeholder defaultValue h :
  launchInputPopup config env title message placeholder defaultValue h
  = guarded config None
      (standardBody env config (js "inputPopup.js") []
         (mkOptions (Some 70) (Some 15) (orElse title (js "Input")) None)
         (Some (InputData title message placeholder defaultValue)) false
         id) h.
Proof. unfold launchInputPopup. shared_shape. Qed.

Lemma launchShortcutsPopup_shape
    (env : @Env ActionData PopupPayload Positioning) config hasSidebarLayout
    h :
  launchShortcutsPopup config env hasSidebarLayout h
  = guarded config None
      (standardBody env config (js "shortcutsPopup.js") []
         (mkOptions (Some 50) (Some 21) shortcutsTitle None)
         (Some (ShortcutsData hasSidebarLayout)) true hooksOrNull) h.
Proof. unfold launchShortcutsPopup. shared_shape. Qed.

End MoreLauncher.

Ltac shared_shapes :=
  rewrite ?launchNewPanePopup_shape, ?launchConfirmPopup_shape,
    ?launchChoicePopup_shape, ?launchProjectSelectPopup_shape,
    ?launchInputPopup_shape, ?launchShortcutsPopup_shape.

(** ** What the launch methods answer *)

(** X12. The methods that hand the result of their popup to
    [handleResult] never throw, and what they return is decided by the
    launch alone, whatever the host state: the data the popup delivered
    when the environment supports popups, the launch went through and the
    result carries both [success] and [data], and [null] in every other
    case; the confirm popup turns [null] into [false], the shortcuts popup
    answers ["hooks"] for the action of that name and [null] otherwise. *)
Theorem launch_methods_answer {Positioning : Type} config h :
  (∀ Payload (env : @Env jsstring Payload Positioning) projectPath,
     (launchNewPanePopup env config projectPath h).1
     = Returned (launcherData config (newPaneLaunch config env projectPath)))
  ∧ (∀ (env : @Env bool PopupPayload Positioning) title message yesLabel
       noLabel,
       (launchConfirmPopup config env title message yesLabel noLabel h).1
       = Returned
           (default false
              (launcherData config
                 (confirmLaunch config env title message yesLabel noLabel))))
  ∧ (∀ (env : @Env jsstring PopupPayload Positioning) title message options,
       (launchChoicePopup config env title message options h).1
       = Returned
           (launcherData config
              (choiceLaunch config env title message options)))
  ∧ (∀ (env : @Env jsstring PopupPayload Positioning) defaultValue,
       (launchProjectSelectPopup config env defaultValue h).1
       = Returned
           (launcherData config (projectSelectLaunch config env defaultValue)))
  ∧ (∀ (env : @Env jsstring PopupPayload Positioning) title message
       placeholder defaultValue,
       (launchInputPopup config env title message placeholder defaultValue
          h).1
       = Returned
           (launcherData config
              (inputLaunch config env title message placeholder
                 defaultValue)))
  ∧ (∀ (env : @Env ActionData PopupPayload Positioning) hasSidebarLayout,
       (launchShortcutsPopup config env hasSidebarLayout h).1
       = Returned
           (hooksOrNull
              (launcherData config
                 (shortcutsLaunch config env hasSidebarLayout)))).
Proof.
  split_and!; intros; shared_shapes;
    match goal with
    | |- context [standardBody ?env _ ?script ?args ?options ?tempData
                    ?ignore ?f] =>
        by destruct (standard_observations env config script args options
                       tempData ignore f h) as (Hanswer & _)
    end.
Qed.

(** X13. The confirm popup defaults to no: [launchConfirmPopup] answers
    [true] only when the environment supports popups, the popup was
    launched, its result promise resolved, and the result carries a truthy
    [success] and the data [true]. An unsupported environment, a failed
    launch, a cancelled popup, an error result and a result without data
    all answer [false]. *)
Theorem confirm_defaults_to_no {Positioning : Type} config
    (env : @Env bool PopupPayload Positioning) title message yesLabel
    noLabel h :
  ∃ answer : bool,
    (launchConfirmPopup config env title message yesLabel noLabel h).1
    = Returned answer
    ∧ (answer = true
       ↔ popupsSupported config = true
         ∧ ∃ result,
             confirmLaunch config env title message yesLabel noLabel
             = Returned result
             ∧ truthy (success result) = true
             ∧ data result = Some true).
Proof.
  rewrite launchConfirmPopup_shape.
  destruct (standard_observations env config (js "confirmPopup.js") []
              (mkOptions (Some 80) (Some (confirmHeight message))
                 (orElse title (js "Confirm")) None)
              (Some (ConfirmData title message yesLabel noLabel)) false
              (default false) h) as (Hanswer & _).
  eexists. split; [exact Hanswer|].
  fold (confirmLaunch config env title message yesLabel noLabel).
  unfold launcherData, deliveredData.
  destruct (popupsSupported config); [|by split; [|intros [? _]]].
  destruct (confirmLaunch _ _ _ _ _ _) as [result|e];
    [|by split; [|intros (_ & ? & ? & _)]].
  destruct (truthy (success result)) eqn:Hsuccess.
  2: { split; [done|]. intros (_ & ? & [= <-] & ? & _). congruence. }
  destruct (data result) as [[]|] eqn:Hdata; simpl.
  - split; [|done]. intros _. split; [done|]. by exists result.
  - split; [done|]. intros (_ & ? & [= <-] & _ & ?). congruence.
  - split; [done|]. intros (_ & ? & [= <-] & _ & ?). congruence.
Qed.

(** ** What the launch methods leave on the host *)

Lemma standard_channelFile {T A Payload Positioning}
    (env : @Env T Payload Positioning) config scriptName args options
    (payload : Payload) (ignore : bool) (f : option T → A) h :
  channelFileHandled env config scriptName h
    (guarded config (f None)
       (standardBody env config scriptName args options (Some payload)
          ignore f) h).2.
Proof.
  destruct (standard_observations env config scriptName args options
              (Some payload) ignore f h) as (_ & _ & _ & _ & Hcalls & Hfiles).
  destruct (launchPopup_payload_host env config scriptName args options
              payload h) as (_ & Hwritten & Habsent & _).
  unfold channelFileHandled. rewrite Hcalls, Hfiles.
  by destruct (popupsSupported config).
Qed.

Lemma launchProgressPopup_run {Positioning}
    (env : @Env unit PopupPayload Positioning) config message type timeout
    h :
  let launched :=
    (launchPopup env config (js "progressPopup.js") []
       (mkOptions (Some 70)
          (Some (Z.min 15 (ceilDiv (len message) 60 + 3 + 4)))
          (progressTitle (default Info type)) None)
       (Some (ProgressData message (default Info type)
                (default 2000 timeout))) h).2 in
  launchProgressPopup config env message type timeout h
  = (Returned tt,
     if resolved config (progressLaunch config env message type timeout)
     then launched
     else notify message (default 2000 timeout)
            (if popupsSupported config then launched else h)).
Proof.
  intros launched. unfold launchProgressPopup, resolved, progressLaunch.
  destruct (popupsSupported config); [|done].
  cbv beta iota zeta delta [bind ret tryCatch negb andb showTempMessage].
  subst launched.
  rewrite <- (launchPopup_outcome env config (js "progressPopup.js") _ _ _
                h).
  by destruct (launchPopup _ _ _ _ _ _ _) as [[?|?] ?].
Qed.

(** X14. A launch method shows at most one status message, after what was
    shown before: the text that popups need tmux 3.2+ in an environment
    without them, ["Failed to launch popup: ..."] when the launch threw,
    ["Popup error: ..."] when the result were neither delivered nor
    cancelled and carries an error text, and nothing for a delivered or a
    cancelled result. *)
Theorem launch_methods_report_once {Positioning : Type} config h :
  (∀ Payload (env : @Env jsstring Payload Positioning) projectPath,
     statusMessages (launchNewPanePopup env config projectPath h).2
     = statusMessages h
       ++ option_list
            (launcherMessage config (newPaneLaunch config env projectPath)))
  ∧ (∀ (env : @Env bool PopupPayload Positioning) title message yesLabel
       noLabel,
       statusMessages
         (launchConfirmPopup config env title message yesLabel noLabel h).2
       = statusMessages h
         ++ option_list
              (launcherMessage config
                 (confirmLaunch config env title message yesLabel noLabel)))
  ∧ (∀ (env : @Env jsstring PopupPayload Positioning) title message options,
       statusMessages (launchChoicePopup config env title message options h).2
       = statusMessages h
         ++ option_list
              (launcherMessage config
                 (choiceLaunch config env title message options)))
  ∧ (∀ (env : @Env jsstring PopupPayload Positioning) defaultValue,
       statusMessages (launchProjectSelectPopup config env defaultValue h).2
       = statusMessages h
         ++ option_list
              (launcherMessage config
                 (projectSelectLaunch config env defaultValue)))
  ∧ (∀ (env : @Env jsstring PopupPayload Positioning) title message
       placeholder defaultValue,
       statusMessages
         (launchInputPopup config env title message placeholder defaultValue
            h).2
       = statusMessages h
         ++ option_list
              (launcherMessage config
                 (inputLaunch config env title message placeholder
                    defaultValue)))
  ∧ (∀ (env : @Env ActionData PopupPayload Positioning) hasSidebarLayout,
       statusMessages (launchShortcutsPopup config env hasSidebarLayout h).2
       = statusMessages h
         ++ option_list
              (launcherMessage config
                 (shortcutsLaunch config env hasSidebarLayout))).
Proof.
  split_and!; intros; shared_shapes;
    match goal with
    | |- context [standardBody ?env _ ?script ?args ?options ?tempData
                    ?ignore ?f] =>
        by destruct (standard_observations env config script args options
                       tempData ignore f h) as (_ & Hstatus & _)
    end.
Qed.

(** X15. Keyboard input is ignored briefly only once the result promise
    of a popup resolved, and only by three methods: the new pane, project
    select and shortcuts methods then call [setIgnoreInput(true)] once and
    set one timer of [INPUT_IGNORE_DELAY] to end it, before the timer of a
    status message; in an unsupported environment and after a failed
    launch they do neither. The confirm, choice and input methods never
    touch the flag. Every status message has its one timer of 3000 ms. *)
Theorem input_ignored_after_resolved_popup {Positioning : Type} config h :
  let ignored {T} delay (outcome : Outcome (PopupResult T)) (h' : Host) :=
    ignoreInput h'
    = ignoreInput h ++ (if resolved config outcome then [true] else [])
    ∧ timers h'
      = timers h
        ++ (if resolved config outcome then [(delay, StopIgnoringInput)]
            else [])
        ++ (const (3000, ClearStatusMessage)
              <$> option_list (launcherMessage config outcome)) in
  let untouched {T} (outcome : Outcome (PopupResult T)) (h' : Host) :=
    ignoreInput h' = ignoreInput h
    ∧ timers h'
      = timers h
        ++ (const (3000, ClearStatusMessage)
              <$> option_list (launcherMessage config outcome)) in
  (∀ Payload (env : @Env jsstring Payload Positioning) projectPath,
     ignored (INPUT_IGNORE_DELAY env) (newPaneLaunch config env projectPath)
       (launchNewPanePopup env config projectPath h).2)
  ∧ (∀ (env : @Env jsstring PopupPayload Positioning) defaultValue,
       ignored (INPUT_IGNORE_DELAY env)
         (projectSelectLaunch config env defaultValue)
         (launchProjectSelectPopup config env defaultValue h).2)
  ∧ (∀ (env : @Env ActionData PopupPayload Positioning) hasSidebarLayout,
       ignored (INPUT_IGNORE_DELAY env)
         (shortcutsLaunch config env hasSidebarLayout)
         (launchShortcutsPopup config env hasSidebarLayout h).2)
  ∧ (∀ (env : @Env bool PopupPayload Positioning) title message yesLabel
       noLabel,
       untouched (confirmLaunch config env title message yesLabel noLabel)
         (launchConfirmPopup config env title message yesLabel noLabel h).2)
  ∧ (∀ (env : @Env jsstring PopupPayload Positioning) title message options,
       untouched (choiceLaunch config env title message options)
         (launchChoicePopup config env title message options h).2)
  ∧ (∀ (env : @Env jsstring PopupPayload Positioning) title message
       placeholder defaultValue,
       untouched
         (inputLaunch config env title message placeholder defaultValue)
         (launchInputPopup config env title message placeholder defaultValue
            h).2).
Proof.
  intros ignored untouched. subst ignored untouched. cbv beta.
  split_and!; intros; shared_shapes;
    match goal with
    | |- context [standardBody ?env _ ?script ?args ?options ?tempData
                    ?ignore ?f] =>
        destruct (standard_observations env config script args options
                    tempData ignore f h) as (_ & _ & Hignore & Htimers & _)
    end;
    simpl in Hignore, Htimers; rewrite ?app_nil_r in Hignore; done.
Qed.

(** X16. The methods that hand a payload to their popup leave no channel
    file behind, whatever the popup answered and whether or not the launch
    threw: in a supporting environment the last file operation is the
    removal of the channel file they named, preceded by at most one write
    of that file, and the file is absent afterwards unless [fs.unlink]
    failed; in an unsupported environment there is no file operation at
    all. The new pane method, which hands over no payload, makes no file
    operation in any case. *)
Theorem launch_methods_remove_channel_file {Positioning : Type} config h :
  (∀ (env : @Env bool PopupPayload Positioning) title message yesLabel
     noLabel,
     channelFileHandled env config (js "confirmPopup.js") h
       (launchConfirmPopup config env title message yesLabel noLabel h).2)
  ∧ (∀ (env : @Env jsstring PopupPayload Positioning) title message options,
       channelFileHandled env config (js "choicePopup.js") h
         (launchChoicePopup config env title message options h).2)
  ∧ (∀ (env : @Env jsstring PopupPayload Positioning) defaultValue,
       channelFileHandled env config (js "projectSelectPopup.js") h
         (launchProjectSelectPopup config env defaultValue h).2)
  ∧ (∀ (env : @Env jsstring PopupPayload Positioning) title message
       placeholder defaultValue,
       channelFileHandled env config (js "inputPopup.js") h
         (launchInputPopup config env title message placeholder defaultValue
            h).2)
  ∧ (∀ (env : @Env ActionData PopupPayload Positioning) hasSidebarLayout,
       channelFileHandled env config (js "shortcutsPopup.js") h
         (launchShortcutsPopup config env hasSidebarLayout h).2)
  ∧ (∀ (env : @Env unit PopupPayload Positioning) message type timeout,
       channelFileHandled env config (js "progressPopup.js") h
         (launchProgressPopup config env message type timeout h).2)
  ∧ (∀ Payload (env : @Env jsstring Payload Positioning) projectPath,
       fsCalls (launchNewPanePopup env config projectPath h).2 = fsCalls h).
Proof.
  split_and!; intros; shared_shapes;
    try match goal with
        | |- context [standardBody ?env _ ?script ?args ?options
                        (Some ?payload) ?ignore ?f] =>
            exact (standard_channelFile env config script args options
                     payload ignore f h)
        end.
  - rewrite launchProgressPopup_run. cbn [snd].
    unfold channelFileHandled, resolved.
    match goal with
    | |- context [launchPopup ?env _ ?script ?args ?options (Some ?payload)
                    _] =>
        destruct (launchPopup_payload_host env config script args options
                    payload h) as (_ & Hwritten & Habsent & _)
    end.
    destruct (popupsSupported config); [|done]. cbn [andb].
    by destruct (progressLaunch _ _ _ _ _).
  - destruct (standard_observations env config (js "newPanePopup.js")
                (newPaneArgs projectPath)
                (newPaneOptions env config projectPath) None true id h)
      as (_ & _ & _ & _ & Hcalls & _).
    cbv beta zeta in Hcalls. unfold id at 1 in Hcalls. rewrite Hcalls.
    destruct (launchPopup_bare_host env config (js "newPanePopup.js")
                (newPaneArgs projectPath)
                (newPaneOptions env config projectPath) h) as (_ & ? & _).
    by destruct (popupsSupported config).
Qed.

(** X17. The progress popup is shown and forgotten: [launchProgressPopup]
    never throws and reads nothing of the result of its popup. Its message
    becomes a status message, for the given time or 2000 ms, exactly when
    the popup could not be shown, in an environment without popups or
    because the launch threw; the exception itself is dropped. It never
    asks for input to be ignored. *)
Theorem progress_popup_falls_back_to_status {Positioning : Type} config
    (env : @Env unit PopupPayload Positioning) message type timeout h :
  let run := launchProgressPopup config env message type timeout h in
  let shown :=
    resolved config (progressLaunch config env message type timeout) in
  run.1 = Returned tt
  ∧ statusMessages run.2
    = statusMessages h ++ (if shown then [] else [message])
  ∧ timers run.2
    = timers h
      ++ (if shown then []
          else [(default 2000 timeout, ClearStatusMessage)])
  ∧ ignoreInput run.2 = ignoreInput h.
Proof.
  intros run shown. subst run. rewrite launchProgressPopup_run.
  fold shown. cbn [fst snd].
  match goal with
  | |- context [launchPopup ?env _ ?script ?args ?options ?tempData _] =>
      destruct (launchPopup_callbacks env config script args options
                  tempData h) as (Hstatus & Hignore & Htimers)
  end.
  cbv zeta in Hstatus, Hignore, Htimers.
  destruct shown eqn:Hshown.
  - by rewrite Hstatus, Hignore, Htimers, !app_nil_r.
  - destruct (popupsSupported config); simpl;
      by rewrite ?Hstatus, ?Hignore, ?Htimers.
Qed.

(** ** The settings and the hooks popup *)

(** X18. The settings popup. [launchSettingsPopup] never throws. When the
    argument of the popup cannot be built, nothing is launched and the
    failure is the one status message. A result that asks for the hooks
    (truthy [success], action ["hooks"]) runs the callback once, on the
    host the launch left, and the method answers [null]; an exception of
    the callback is caught and reported as a failure to launch. Every other
    result is answered silently: the truthy data of a successful result,
    and [null] otherwise, also for a result that carries an error text,
    which this method, unlike the others, does not report. *)
Theorem settings_popup_courses {Positioning Payload Data : Type} config
    (dataAction : Data → option jsstring) (dataTruthy : Data → bool)
    (env : @Env Data Payload Positioning) settingsArgument
    settingDefinitionsLength onLaunchHooks h :
  let run :=
    launchSettingsPopup config dataAction dataTruthy env settingsArgument
      settingDefinitionsLength onLaunchHooks h in
  (∃ answer, run.1 = Returned answer)
  ∧ (popupsSupported config = false →
     run = (Returned None, notify (js "Popups require tmux 3.2+") 3000 h))
  ∧ (∀ e, popupsSupported config = true →
          settingsArgument = Thrown e →
          run = (Returned None, notify (failedToLaunch e) 3000 h))
  ∧ (∀ argument,
       popupsSupported config = true →
       settingsArgument = Returned argument →
       let launched :=
         (launchPopup env config (js "settingsPopup.js") [argument]
            (mkOptions (Some 70)
               (Some (Z.min 25 (settingDefinitionsLength + 8)))
               settingsTitle None) None h).2 in
       match settingsLaunch config env argument settingDefinitionsLength with
       | Thrown e =>
           run = (Returned None, notify (failedToLaunch e) 3000 launched)
       | Returned result =>
           if asksForHooks dataAction result
           then run = (Returned None, afterCallback onLaunchHooks launched)
           else run = (Returned (settingsAnswer dataTruthy result), launched)
       end).
Proof.
  intros run. subst run.
  unfold launchSettingsPopup, checkPopupSupport, settingsLaunch,
    asksForHooks, settingsAnswer, afterCallback.
  cbv beta iota zeta delta [bind ret tryCatch negb call showTempMessage].
  destruct (popupsSupported config).
  2: { split_and!; [by eexists|reflexivity|done..]. }
  destruct settingsArgument as [argument|e].
  2: { split_and!; [by eexists|done|by intros ? _ [= <-]|done]. }
  match goal with
  | |- context [launchPopup ?env _ ?script ?args ?options None _] =>
      pose proof (launchPopup_outcome env config script args options None h)
        as Hout
  end.
  destruct (launchPopup _ _ _ _ _ _ _) as [out launched] eqn:Hrun.
  simpl in Hout. subst out.
  destruct (launchOutcome _ _ _ _ _ _) as [result|e] eqn:Hlaunch.
  2: { split_and!; [by eexists|done|done|].
       intros ? _ [= <-]. rewrite Hlaunch, Hrun. reflexivity. }
  destruct (truthy (success result)) eqn:Hsuccess.
  2: { split_and!; [by eexists|done|done|].
       intros ? _ [= <-]. by rewrite Hlaunch, Hrun, Hsuccess. }
  case_bool_decide as Haction.
  - destruct (onLaunchHooks launched) as [[[]|e] h'] eqn:Hcallback.
    all: split_and!; [by eexists|done|done|].
    all: intros ? _ [= <-]; rewrite Hlaunch, Hrun, Hsuccess; cbn [snd andb].
    all: rewrite bool_decide_eq_true_2 by done; by rewrite Hcallback.
  - assert (∃ v, (match data result with
                  | Some d =>
                      if dataTruthy d then (λ h0, (Returned (Some d), h0))
                      else (λ h0, (Returned None, h0))
                  | None => (λ h0, (Returned None, h0))
                  end : M Host (option Data)) launched
                 = (Returned v, launched)
                 ∧ v = match data result with
                       | Some d => if dataTruthy d then Some d else None
                       | None => None
                       end) as (v & Hv & ->).
    { destruct (data result) as [d|]; [destruct (dataTruthy d)|];
        by eexists. }
    rewrite Hv.
    split_and!; [by eexists|done|done|].
    intros ? _ [= <-]. rewrite Hlaunch, Hrun, Hsuccess. cbn [snd andb].
    by rewrite bool_decide_eq_false_2.
Qed.

Lemma mapOutcome_Returned {A B} (f : A → Outcome B) l ys :
  mapOutcome f l = Returned ys → Forall2 (λ x y, f x = Returned y) l ys.
Proof.
  revert ys. induction l as [|x l IH]; intros ys; simpl.
  - intros [= <-]. constructor.
  - destruct (f x) as [y|e] eqn:Hx; [|done].
    destruct (mapOutcome f l) as [ys'|e]; [|done].
    intros [= <-]. constructor; [done|by apply IH].
Qed.

Lemma hookStatuses_Returned config hasHook processCwd hooks :
  hookStatuses config hasHook processCwd = Returned hooks →
  hooks.*1 = allHookTypes
  ∧ ∀ name active,
      (name, active) ∈ hooks →
      hasHook (orElse (projectRoot config) processCwd) name = Returned active.
Proof.
  unfold hookStatuses. intros H%mapOutcome_Returned. revert H.
  generalize allHookTypes. intros names H.
  induction H as [|name [name' active] names hooks' Hhead _ IH];
    [by split; [|intros ?? ?%elem_of_nil]|].
  destruct IH as [IHnames IHactive].
  destruct (hasHook _ name) as [active'|e] eqn:Hname; [|done].
  injection Hhead as <- <-. split; [simpl; by f_equal|].
  intros name' active [[= -> ->] | Hin]%elem_of_cons; [done|by apply IHactive].
Qed.

(** X19. The hooks popup. [launchHooksPopup] never throws. Before the
    launch it asks [hasHook] for each of the eleven hook names, in their
    order and for the project root of the configuration or else the
    working directory; if the import of the hooks module or one of these
    calls throws, nothing is launched and that failure is the one status
    message. After the popup the result goes through [handleResult]; the
    action ["edit"] then runs the callback once, an exception of which is
    caught and reported as a failure to launch, the action ["view"] shows
    that viewing is not implemented, for 2000 ms, and any other outcome
    does nothing more. *)
Theorem hooks_popup_courses {Positioning Payload : Type} config
    (env : @Env ActionData Payload Positioning) importHooks hasHook
    processCwd stringifyHooks onEditHooks h :
  let run :=
    launchHooksPopup config env importHooks hasHook processCwd
      stringifyHooks onEditHooks h in
  run.1 = Returned tt
  ∧ (popupsSupported config = false →
     run.2 = notify (js "Popups require tmux 3.2+") 3000 h)
  ∧ (∀ e, popupsSupported config = true →
          importHooks = Thrown e
          ∨ (importHooks = Returned tt
             ∧ hookStatuses config hasHook processCwd = Thrown e) →
          run.2 = notify (failedToLaunch e) 3000 h)
  ∧ (∀ hooks,
       popupsSupported config = true →
       importHooks = Returned tt →
       hookStatuses config hasHook processCwd = Returned hooks →
       hooks.*1 = allHookTypes
       ∧ (∀ name active,
            (name, active) ∈ hooks →
            hasHook (orElse (projectRoot config) processCwd) name
            = Returned active)
       ∧ let launched :=
           (launchPopup env config (js "hooksPopup.js")
              [stringifyHooks hooks]
              (mkOptions (Some 70) (Some 24) hooksTitle None) None h).2 in
         match hooksLaunch config env (stringifyHooks hooks) with
         | Thrown e => run.2 = notify (failedToLaunch e) 3000 launched
         | Returned result =>
             let handled := afterHandling result launched in
             let data := deliveredData result in
             if hasAction data (js "edit")
             then run.2 = afterCallback onEditHooks handled
             else if hasAction data (js "view")
             then run.2
                  = notify (js "View in editor not yet implemented") 2000
                      handled
             else run.2 = handled
         end).
Proof.
  intros run. subst run.
  unfold launchHooksPopup, checkPopupSupport, hooksLaunch, afterCallback.
  fold (hookStatuses config hasHook processCwd).
  cbv beta iota zeta delta [bind ret tryCatch negb call showTempMessage].
  destruct (popupsSupported config).
  2: { split_and!; [reflexivity|reflexivity|done..]. }
  destruct importHooks as [[]|e].
  2: { split_and!; [reflexivity|done| |done].
       by intros ? _ [[= <-] | [? _]]. }
  destruct (hookStatuses config hasHook processCwd) as [hooks|e] eqn:Hhooks.
  2: { split_and!; [reflexivity|done| |done].
       by intros ? _ [? | [_ [= <-]]]. }
  destruct (hookStatuses_Returned _ _ _ _ Hhooks) as [Hnames Hactive].
  pose proof (launchPopup_outcome env config (js "hooksPopup.js")
                [stringifyHooks hooks]
                (mkOptions (Some 70) (Some 24) hooksTitle None) None h)
    as Hout.
  destruct (launchPopup _ _ _ _ _ _ _) as [out launched] eqn:Hrun.
  simpl in Hout. subst out.
  destruct (launchOutcome _ _ _ _ _ _) as [result|e] eqn:Hlaunch.
  2: { split_and!; [reflexivity|done|by intros ? _ [? | [_ ?]]|].
       intros ? _ _ [= <-]. split_and!; [done..|].
       rewrite Hlaunch, Hrun. reflexivity. }
  rewrite handleResult_default.
  destruct (hasAction (deliveredData result) (js "edit")) eqn:Hedit.
  { destruct (onEditHooks (afterHandling result launched))
      as [[[]|e] h'] eqn:Hcallback.
    all: split_and!; [reflexivity|done|by intros ? _ [? | [_ ?]]|].
    all: intros ? _ _ [= <-]; split_and!; [done..|].
    all: rewrite Hlaunch, Hrun; cbn [snd]; by rewrite Hedit, Hcallback. }
  destruct (hasAction (deliveredData result) (js "view")) eqn:Hview.
  all: split_and!; [reflexivity|done|by intros ? _ [? | [_ ?]]|].
  all: intros ? _ _ [= <-]; split_and!; [done..|].
  all: rewrite Hlaunch, Hrun; cbn [snd]; by rewrite Hedit, Hview.
Qed.

Lemma settings_popup_courses_witness :
  settingsAsksForHooks
  = (Returned None, notify (js "hooks") 1000 emptyHost).
Proof.
  pose proof (settings_popup_courses sampleConfig Some (λ _, true)
                (quietEnv (Payload := unit)
                   (Returned (successResult (js "hooks"))))
                (Returned (js "{}")) 6 (showTempMessage (js "hooks") 1000)
                emptyHost) as (_ & _ & _ & Hcourse).
  exact (Hcourse (js "{}") eq_refl eq_refl).
Defined.

Lemma hooks_popup_courses_witness :
  hooksAsksForEdit.2
  = notify (js "Failed to launch popup: no editor") 3000 emptyHost.
Proof.
  pose proof (hooks_popup_courses sampleConfig
                (quietEnv (Payload := unit)
                   (Returned
                      (successResult (mkActionData (Some (js "edit"))))))
                (Returned tt) (λ _ _, Returned false) (js "/home/dev")
                (λ _, js "[]") (throw (mkExn (Some (js "no editor"))))
                emptyHost) as (_ & _ & _ & Hcourse).
  destruct (Hcourse (map (λ name, (name, false)) allHookTypes) eq_refl
              eq_refl eq_refl) as (_ & _ & Hrun).
  exact Hrun.
Defined.

(** ** The height of the confirm popup *)

Lemma splitOn_nonempty sep s : splitOn sep s ≠ [].
Proof.
  destruct s as [|c s]; simpl; [done|].
  destruct (c =? sep)%N; [done|]. by destruct (splitOn sep s).
Qed.

Lemma splitOn_app sep a b :
  splitOn sep (a ++ sep :: b) = splitOn sep a ++ splitOn sep b.
Proof.
  induction a as [|c a IH]; simpl.
  - by rewrite N.eqb_refl.
  - destruct (c =? sep)%N; [by rewrite IH|].
    rewrite IH. pose proof (splitOn_nonempty sep a) as Hne.
    by destruct (splitOn sep a).
Qed.

Lemma splitOn_single sep s : sep ∉ s → splitOn sep s = [s].
Proof.
  induction s as [|c s IH]; [done|].
  intros [Hc Hs]%not_elem_of_cons. simpl.
  destruct (N.eqb_spec c sep) as [->|_]; [done|]. by rewrite IH.
Qed.

Lemma foldl_rows (rows : jsstring → Z) count pieces :
  foldl (λ count line, count + rows line) count pieces
  = count + foldl (λ count line, count + rows line) 0 pieces.
Proof.
  revert count. induction pieces as [|line pieces IH]; intros count; simpl.
  - lia.
  - rewrite (IH (count + rows line)), (IH (0 + rows line)). lia.
Qed.

Lemma ceilDiv_bounds n d :
  0 < d → d * (ceilDiv n d - 1) < n ≤ d * ceilDiv n d.
Proof.
  intros Hd. unfold ceilDiv.
  pose proof (Z.div_mod (n + d - 1) d ltac:(lia)) as Hdiv.
  pose proof (Z.mod_pos_bound (n + d - 1) d Hd) as Hmod. lia.
Qed.

(** X20. The height of the confirm popup lies between 12 and 35 rows. The
    rows it counts for the message add up over the lines of the message,
    and a line counts for the least number of rows of 75 columns that hold
    it, an empty line for one row. *)
Theorem confirm_height_holds_the_message :
  (∀ message, 12 ≤ confirmHeight message ≤ 35)
  ∧ (∀ first rest,
       messageLines (first ++ 10%N :: rest)
       = messageLines first + messageLines rest)
  ∧ (∀ line,
       10%N ∉ line →
       1 ≤ messageLines line
       ∧ len line ≤ 75 * messageLines line
       ∧ (messageLines line = 1 ∨ 75 * (messageLines line - 1) < len line)).
Proof.
  split_and!.
  - intros message. unfold confirmHeight. lia.
  - intros first rest. unfold messageLines.
    by rewrite splitOn_app, foldl_app, foldl_rows.
  - intros line Hline. unfold messageLines.
    rewrite splitOn_single by done. simpl.
    pose proof (ceilDiv_bounds (len line) 75 ltac:(lia)).
    pose proof (len_nonneg line). lia.
Qed.

Lemma confirm_height_holds_the_message_witness :
  len (js "Close pane?") ≤ 75 * messageLines (js "Close pane?").
Proof.
  destruct confirm_height_holds_the_message as (_ & _ & Hline).
  destruct (Hline (js "Close pane?")) as (_ & Hholds & _); [|exact Hholds].
  apply (bool_decide_unpack _). vm_compute. exact I.
Defined.

(** ** The launch methods that read other services *)

(** A step that may throw before the launch. *)
Lemma guarded_prelude {X A} config (prelude : Outcome X)
    (body : X → M Host A) (fallback : A) h :
  guarded config fallback (do x <- call prelude; body x) h
  = match prelude with
    | Returned x => guarded config fallback (body x) h
    | Thrown e =>
        (Returned fallback,
         notify (if popupsSupported config then failedToLaunch e
                 else js "Popups require tmux 3.2+") 3000 h)
    end.
Proof.
  rewrite guarded_run. destruct prelude as [x|e].
  - by rewrite guarded_run.
  - by destruct (popupsSupported config).
Qed.

Lemma launchAgentChoicePopup_shape {Positioning Payload} config
    (env : @Env (list jsstring) Payload Positioning) availableAgents
    agentChoice stringifyAgents agentLaunchOptionsLength h :
  launchAgentChoicePopup config env availableAgents agentChoice
    stringifyAgents agentLaunchOptionsLength h
  = guarded config None
      (do popupOptionsCount <-
         call (agentLaunchOptionsLength availableAgents);
       standardBody env config (js "agentChoicePopup.js")
         [stringifyAgents availableAgents;
          defaultAgent availableAgents agentChoice]
         (mkOptions (Some 72) (Some (Z.max 12 (popupOptionsCount * 2 + 7)))
            (js "Select Agent(s)") None) None false id) h.
Proof.
  unfold launchAgentChoicePopup. rewrite !guarded_run.
  unfold checkPopupSupport. destruct (popupsSupported config); [|done].
  cbv beta iota zeta delta
    [bind ret tryCatch negb standardBody call showTempMessage].
  destruct (agentLaunchOptionsLength availableAgents); [|done].
  destruct (launchPopup _ _ _ _ _ _ _) as [[?|?] ?]; [|done].
  by rewrite handleResult_default.
Qed.

Lemma launchReopenWorktreePopup_shape {Positioning Date} config
    (toISOString : Date → Outcome jsstring)
    (env : @Env WorktreeRef (list (Worktree jsstring)) Positioning)
    worktrees h :
  launchReopenWorktreePopup config toISOString env worktrees h
  = guarded config None
      (do data <- call (worktreesData toISOString worktrees);
       standardBody env config (js "reopenWorktreePopup.js") []
         (mkOptions (Some 70) (Some (Z.min 25 (len worktrees * 3 + 8)))
            reopenTitle None)
         (Some data) false id) h.
Proof.
  unfold launchReopenWorktreePopup. rewrite !guarded_run.
  fold (worktreesData toISOString worktrees).
  unfold checkPopupSupport. destruct (popupsSupported config); [|done].
  cbv beta iota zeta delta
    [bind ret tryCatch negb standardBody call showTempMessage].
  destruct (worktreesData toISOString worktrees); [|done].
  destruct (launchPopup _ _ _ _ _ _ _) as [[?|?] ?]; [|done].
  by rewrite handleResult_default.
Qed.

(** X21. The agent choice popup. The agent it proposes is never the empty
    string: the configured choice, else the first available agent, else
    ["claude"]. If counting the launch options throws, nothing is launched
    and that failure is the one status message. Otherwise the method never
    throws and answers like the other methods: the agents the popup
    delivered, or [null]; it shows at most one status message, makes no
    file operation and never asks for input to be ignored. *)
Theorem agent_choice_popup_courses {Positioning Payload : Type} config
    (env : @Env (list jsstring) Payload Positioning) availableAgents
    agentChoice stringifyAgents agentLaunchOptionsLength h :
  let run :=
    launchAgentChoicePopup config env availableAgents agentChoice
      stringifyAgents agentLaunchOptionsLength h in
  defaultAgent availableAgents agentChoice ≠ []
  ∧ (∀ e, popupsSupported config = true →
          agentLaunchOptionsLength availableAgents = Thrown e →
          run = (Returned None, notify (failedToLaunch e) 3000 h))
  ∧ (∀ count,
       agentLaunchOptionsLength availableAgents = Returned count →
       let launch :=
         agentChoiceLaunch config env availableAgents agentChoice
           stringifyAgents count in
       run.1 = Returned (launcherData config launch)
       ∧ statusMessages run.2
         = statusMessages h ++ option_list (launcherMessage config launch)
       ∧ fsCalls run.2 = fsCalls h
       ∧ ignoreInput run.2 = ignoreInput h).
Proof.
  intros run. subst run. rewrite launchAgentChoicePopup_shape.
  rewrite guarded_prelude. split_and!.
  - unfold defaultAgent, nonEmpty.
    destruct agentChoice as [[|??]|]; [|done|];
      by destruct (head availableAgents) as [[|??]|].
  - by intros e -> ->.
  - intros count ->.
    match goal with
    | |- context [standardBody ?env _ ?script ?args ?options None ?ignore
                    ?f] =>
        destruct (standard_observations env config script args options
                    None ignore f h)
          as (Hanswer & Hstatus & Hignore & _ & Hcalls & _);
        destruct (launchPopup_bare_host env config script args options h)
          as (_ & Hbare & _)
    end.
    cbv zeta in Hanswer, Hstatus, Hignore, Hcalls, Hbare.
    cbv zeta. split_and!; [done|done| |].
    + etrans; [exact Hcalls|]. rewrite Hbare.
      by destruct (popupsSupported config).
    + etrans; [exact Hignore|]. apply app_nil_r.
Qed.

Lemma agent_choice_popup_courses_witness :
  (launchAgentChoicePopup sampleConfig
     (quietEnv (Payload := unit) (Returned (successResult [js "codex"])))
     [js "claude"; js "codex"] None (λ _, js "[]") (λ _, Returned 2)
     emptyHost).1
  = Returned (Some [js "codex"]).
Proof.
  pose proof (agent_choice_popup_courses sampleConfig
                (quietEnv (Payload := unit)
                   (Returned (successResult [js "codex"])))
                [js "claude"; js "codex"] None (λ _, js "[]")
                (λ _, Returned 2) emptyHost) as (_ & _ & Hcourse).
  destruct (Hcourse 2 eq_refl) as (Hanswer & _).
  exact Hanswer.
Defined.

(** X22. The popup of the closed worktrees. If [toISOString] throws for one
    of the dates, nothing is launched, no file is written, and that failure
    is the one status message. Otherwise the popup receives the worktrees
    in their order, each with its slug, path, branch and flag and with its
    date as a string, and the method never throws and answers like the
    other methods: the worktree the popup delivered, or [null]; it shows
    at most one status message, leaves no channel file behind and never
    asks for input to be ignored. *)
Theorem reopen_worktree_popup_courses {Positioning Date : Type} config
    (toISOString : Date → Outcome jsstring)
    (env : @Env WorktreeRef (list (Worktree jsstring)) Positioning)
    worktrees h :
  let run := launchReopenWorktreePopup config toISOString env worktrees h in
  (∀ e, popupsSupported config = true →
        worktreesData toISOString worktrees = Thrown e →
        run = (Returned None, notify (failedToLaunch e) 3000 h))
  ∧ (∀ data,
       worktreesData toISOString worktrees = Returned data →
       let launch := reopenLaunch config env data in
       Forall2
         (λ wt sent,
            toISOString (wtLastModified wt) = Returned (wtLastModified sent)
            ∧ wtSlug sent = wtSlug wt ∧ wtPath sent = wtPath wt
            ∧ wtBranch sent = wtBranch wt
            ∧ wtHasUncommittedChanges sent = wtHasUncommittedChanges wt)
         worktrees data
       ∧ run.1 = Returned (launcherData config launch)
       ∧ statusMessages run.2
         = statusMessages h ++ option_list (launcherMessage config launch)
       ∧ channelFileHandled env config (js "reopenWorktreePopup.js") h run.2
       ∧ ignoreInput run.2 = ignoreInput h).
Proof.
  intros run. subst run. rewrite launchReopenWorktreePopup_shape.
  rewrite guarded_prelude. split_and!.
  - by intros e -> ->.
  - intros data Hdata. rewrite Hdata.
    apply mapOutcome_Returned in Hdata.
    assert (len worktrees = len data) as Hlen.
    { unfold len. by rewrite (Forall2_length _ _ _ Hdata). }
    unfold reopenLaunch. rewrite <- Hlen.
    match goal with
    | |- context [standardBody ?env _ ?script ?args ?options (Some ?payload)
                    ?ignore ?f] =>
        destruct (standard_observations env config script args options
                    (Some payload) ignore f h)
          as (Hanswer & Hstatus & Hignore & _);
        pose proof (standard_channelFile env config script args options
                      payload ignore f h) as Hfile
    end.
    cbv zeta in Hanswer, Hstatus, Hignore.
    cbv zeta. split_and!; [|done|done|done|].
    2: { etrans; [exact Hignore|]. apply app_nil_r. }
    eapply Forall2_impl; [exact Hdata|].
    intros wt sent Hsent. simpl in Hsent.
    destruct (toISOString (wtLastModified wt)); [|done].
    by injection Hsent as <-.
Qed.

Lemma reopen_worktree_popup_courses_witness :
  reopenWithInvalidDate
  = (Returned None,
     notify (js "Failed to launch popup: Invalid time value") 3000
       emptyHost).
Proof.
  pose proof (reopen_worktree_popup_courses sampleConfig sampleISOString
                (quietEnv (Returned cancelledResult))
                [mkWorktree (js "fix-login")
                   (js "/home/dev/project/.dmux/fix-login")
                   (Some (js "2025-01-01T00:00:00.000Z")) (js "fix-login")
                   false;
                 mkWorktree (js "old") (js "/home/dev/project/.dmux/old")
                   None (js "old") true]
                emptyHost) as (Hcourse & _).
  exact (Hcourse (mkExn (Some (js "Invalid time value"))) eq_refl eq_refl).
Defined.

Lemma handleResult_callbacks {T} (result : PopupResult T)
    (onSuccess : T → M Host (option T)) (onError : jsstring → M Host unit)
    h :
  handleResult result (Some onSuccess) (Some onError) h
  = match deliveredData result with
    | Some d => onSuccess d h
    | None =>
        match reportedError result with
        | Some msg => (exec onError msg; ret None) h
        | None => (Returned None, h)
        end
    end.
Proof.
  destruct result as [s d c e].
  unfold handleResult, reportedError, deliveredData. simpl.
  destruct (truthy s), d; try done.
  all: destruct (truthy c); [done|]; by destruct (nonEmpty e).
Qed.

(** X23. The kebab menu. [launchKebabMenuPopup] never throws. If
    [getAvailableActions] throws, nothing is launched and that failure is
    the one status message. After the popup exactly one of three things
    happens: a delivered action is logged with [debug] and returned; the
    error text of a result that is neither delivered nor cancelled is
    logged with [error] and then shown, as ["Popup error: ..."], like the
    other methods show it; a cancelled or empty result does nothing. When
    one of the two log calls throws, the method reports a failure to launch
    and answers [null], also for an action the popup had delivered. *)
Theorem kebab_menu_popup_courses {Positioning Payload Action : Type} config
    (env : @Env jsstring Payload Positioning) paneSlug availableActions
    (stringifyActions : list Action → jsstring) logDebug logError h :
  let run :=
    launchKebabMenuPopup config env paneSlug availableActions
      stringifyActions logDebug logError h in
  (∃ answer, run.1 = Returned answer)
  ∧ (popupsSupported config = false →
     run = (Returned None, notify (js "Popups require tmux 3.2+") 3000 h))
  ∧ (∀ e, popupsSupported config = true →
          availableActions = Thrown e →
          run = (Returned None, notify (failedToLaunch e) 3000 h))
  ∧ (∀ actions,
       popupsSupported config = true →
       availableActions = Returned actions →
       let launched :=
         (launchPopup env config (js "kebabMenuPopup.js")
            [paneSlug; stringifyActions actions]
            (mkOptions (Some 60) (Some (Z.min 20 (len actions + 5)))
               (js "Menu: " ++ paneSlug) None) None h).2 in
       match kebabLaunch config env paneSlug stringifyActions actions with
       | Thrown e =>
           run = (Returned None, notify (failedToLaunch e) 3000 launched)
       | Returned result =>
           match deliveredData result, reportedError result with
           | Some action, _ =>
               run = afterCalling
                       (logDebug (js "Action selected: " ++ action)
                          (js "KebabMenu"))
                       (Some action) None (λ h', h') launched
           | None, Some msg =>
               run = afterCalling (logError msg (js "KebabMenu")) None None
                       (notify msg 3000) launched
           | None, None => run = (Returned None, launched)
           end
       end).
Proof.
  intros run. subst run.
  unfold launchKebabMenuPopup, checkPopupSupport, kebabLaunch, afterCalling.
  cbv beta iota zeta delta [bind ret tryCatch negb call showTempMessage].
  destruct (popupsSupported config).
  2: { split_and!; [by eexists|reflexivity|done..]. }
  destruct availableActions as [actions|e].
  2: { split_and!; [by eexists|done|by intros ? _ [= <-]|done]. }
  pose proof (launchPopup_outcome env config (js "kebabMenuPopup.js")
                [paneSlug; stringifyActions actions]
                (mkOptions (Some 60) (Some (Z.min 20 (len actions + 5)))
                   (js "Menu: " ++ paneSlug) None) None h) as Hout.
  destruct (launchPopup _ _ _ _ _ _ _) as [out launched] eqn:Hrun.
  cbn [fst] in Hout. subst out.
  destruct (launchOutcome _ _ _ _ _ _) as [result|e] eqn:Hlaunch.
  2: { split_and!; [by eexists|done|done|].
       intros ? _ [= <-]. rewrite Hlaunch, Hrun. reflexivity. }
  rewrite handleResult_callbacks.
  destruct (deliveredData result) as [action|] eqn:Hdata.
  { cbv beta iota zeta delta [bind ret].
    destruct (logDebug _ _ launched) as [[[]|e] h'] eqn:Hlog.
    all: split_and!; [by eexists|done|done|].
    all: intros ? _ [= <-]; rewrite Hlaunch, Hrun, Hdata; cbn [snd].
    all: by rewrite Hlog. }
  destruct (reportedError result) as [msg|] eqn:Herror.
  { cbv beta iota zeta delta [bind ret showTempMessage modify].
    destruct (logError _ _ launched) as [[[]|e] h'] eqn:Hlog.
    all: split_and!; [by eexists|done|done|].
    all: intros ? _ [= <-]; rewrite Hlaunch, Hrun, Hdata, Herror; cbn [snd].
    all: by rewrite Hlog. }
  split_and!; [by eexists|done|done|].
  intros ? _ [= <-]. by rewrite Hlaunch, Hrun, Hdata, Herror.
Qed.

(** X24. The logs popup. [launchLogsPopup] never throws. If reading the
    logs throws, nothing is launched, no file is written, and that failure
    is the one status message. The launch itself leaves no channel file
    behind. A result with a truthy [success] marks all logs as read, and,
    if its data asks for it, then clears them and shows that they were
    cleared, for 2000 ms; an exception of either call is reported as a
    failure to launch. Every other result, also one that carries an error
    text, does nothing and shows nothing. *)
Theorem logs_popup_courses {Positioning Payload : Type} config
    (env : @Env LogsAnswer Payload Positioning) logsData markAllLogsAsRead
    clearAll h :
  let run :=
    launchLogsPopup config env logsData markAllLogsAsRead clearAll h in
  run.1 = Returned tt
  ∧ (popupsSupported config = false →
     run.2 = notify (js "Popups require tmux 3.2+") 3000 h)
  ∧ (∀ e, popupsSupported config = true →
          logsData = Thrown e →
          run.2 = notify (failedToLaunch e) 3000 h)
  ∧ (∀ payload,
       popupsSupported config = true →
       logsData = Returned payload →
       let launched :=
         (launchPopup env config (js "logsPopup.js") []
            (mkOptions None None logsTitle (Some Large)) (Some payload)
            h).2 in
       channelFileHandled env config (js "logsPopup.js") h launched
       ∧ match logsLaunch config env payload with
         | Thrown e => run.2 = notify (failedToLaunch e) 3000 launched
         | Returned result =>
             if truthy (success result) then
               let clear := truthy (data result ≫= clearLogs) in
               run = afterCalling
                       (exec markAllLogsAsRead;
                        if clear then clearAll else ret tt)
                       tt tt
                       (if clear then notify logsCleared 2000 else λ h', h')
                       launched
             else run.2 = launched
         end).
Proof.
  intros run. subst run.
  unfold launchLogsPopup, checkPopupSupport, logsLaunch, afterCalling.
  cbv beta iota zeta delta [bind ret tryCatch negb call showTempMessage].
  destruct (popupsSupported config) eqn:Hsupported.
  2: { split_and!; [reflexivity|reflexivity|done..]. }
  destruct logsData as [payload|e].
  2: { split_and!; [reflexivity|done|by intros ? _ [= <-]|done]. }
  destruct (launchPopup_payload_host env config (js "logsPopup.js") []
              (mkOptions None None logsTitle (Some Large)) payload h)
    as (Hout & Hwritten & Habsent & _).
  assert (channelFileHandled env config (js "logsPopup.js") h
            (launchPopup env config (js "logsPopup.js") []
               (mkOptions None None logsTitle (Some Large)) (Some payload)
               h).2) as Hfile.
  { unfold channelFileHandled. by rewrite Hsupported. }
  destruct (launchPopup _ _ _ _ _ _ _) as [out launched] eqn:Hrun.
  cbn [fst snd] in Hout, Hfile. subst out.
  destruct (launchOutcome _ _ _ _ _ _) as [result|e] eqn:Hlaunch.
  2: { split_and!; [reflexivity|done|done|].
       intros ? _ [= <-]. rewrite Hlaunch, Hrun. done. }
  destruct (truthy (success result)) eqn:Hsuccess.
  2: { split_and!; [reflexivity|done|done|].
       intros ? _ [= <-]. by rewrite Hlaunch, Hrun, Hsuccess. }
  destruct (markAllLogsAsRead launched) as [[[]|e] h'] eqn:Hmark.
  2: { split_and!; [reflexivity|done|done|].
       intros ? _ [= <-]. rewrite Hlaunch, Hrun, Hsuccess. cbn [snd].
       by rewrite Hmark. }
  destruct (truthy (data result ≫= clearLogs)) eqn:Hclear.
  2: { split_and!; [reflexivity|done|done|].
       intros ? _ [= <-]. rewrite Hlaunch, Hrun, Hsuccess. cbn [snd].
       by rewrite Hmark, Hclear. }
  cbv beta iota zeta delta [modify].
  destruct (clearAll h') as [[[]|e] h''] eqn:Hclearing.
  all: split_and!; [reflexivity|done|done|].
  all: intros ? _ [= <-]; rewrite Hlaunch, Hrun, Hsuccess; cbn [snd].
  all: by rewrite Hmark, Hclear, Hclearing.
Qed.

Lemma kebab_menu_popup_courses_witness :
  kebabLosesAction
  = (Returned None,
     notify (js "Failed to launch popup: log file busy") 3000 emptyHost).
Proof.
  pose proof (kebab_menu_popup_courses sampleConfig
                (quietEnv (Payload := unit)
                   (Returned (successResult (js "close"))))
                (js "fix-login") (Returned [js "close"; js "merge"])
                (λ _, js "[]") (λ _ _, throw logFailure) (λ _ _, ret tt)
                emptyHost) as (_ & _ & _ & Hcourse).
  exact (Hcourse [js "close"; js "merge"] eq_refl eq_refl).
Defined.

Lemma logs_popup_courses_witness :
  statusMessages logsAreCleared.2 = [logsCleared].
Proof.
  pose proof (logs_popup_courses sampleConfig
                (quietEnv
                   (Returned (successResult (mkLogsAnswer (Some true)))))
                (Returned (js "{logs:[]}")) (ret tt) (ret tt) emptyHost)
    as (_ & _ & _ & Hcourse).
  destruct (Hcourse (js "{logs:[]}") eq_refl eq_refl) as (_ & Hrun).
  exact (f_equal (λ run, statusMessages run.2) Hrun).
Defined.

(** ** The dimensions of the terminal *)

(** X25. [launchPopup] asks [TmuxService] for the dimensions of the
    terminal for the large layout only: for the centered and the standard
    layout, and when the options name none, the whole launch, its result
    or exception and every file operation, is the same whatever
    [getAllDimensions] would answer or throw. *)
Theorem dimensions_read_for_large_layout_only {T Payload Positioning : Type}
    (env : @Env T Payload Positioning) config scriptName args options
    (tempData : option Payload) dims h :
  positioning options ≠ Some Large →
  launchPopup (withAllDimensions dims env) config scriptName args options
    tempData h
  = launchPopup env config scriptName args options tempData h.
Proof.
  intros Hlayout.
  assert (getPositioning (withAllDimensions dims env) config options
          = getPositioning env config options) as Hpositioning.
  { unfold getPositioning. by destruct (positioning options) as [[]|]. }
  unfold launchPopup. rewrite Hpositioning. reflexivity.
Qed.

Lemma dimensions_read_for_large_layout_only_witness :
  launchPopup
    (withAllDimensions (Thrown spawnFailure)
       (sampleEnv (Returned cancelledResult) None None 1700000000000))
    sampleConfig (js "confirmPopup.js") [] confirmOptions
    (Some (js "{title:A}")) emptyHost
  = firstConfirm.
Proof.
  apply (dimensions_read_for_large_layout_only
           (sampleEnv (Returned cancelledResult) None None 1700000000000)).
  discriminate.
Defined.
